(** * healthlink-ai: provider dispatcher and clinic search

    A shallow embedding of the two pieces of server logic the specification
    singles out, and the proofs of the properties it states about them:

    - [AIBrain] (server/services/aiBrain): the provider registry,
      [selectProvider] and [process];
    - [MemStorage] (server/storage): [searchClinics], [calculateDistance]
      and [getClinicsByLocation];
    - [Routes]: the branch selection of the POST /api/clinics/search handler.

    The development then covers more of the server: the other tables of the
    store ([Users], [HealthLogs], [ChatSessions]), the health-specific
    methods of the dispatcher ([AIBrainMethods]), the symptom and chat
    service ([AIService]) and the routes of the health logs and of the chat
    ([LogRoutes], [ChatRoutes]).

    JavaScript numbers are IEEE 754 binary64 values and are modelled by Rocq's
    primitive floats, whose operations are specified by [SpecFloat].  Strings
    are modelled by [string] (the model covers 7-bit ASCII text).  A JavaScript
    [Map] iterates in insertion order and is modelled by an association list. *)

From Stdlib Require Import ZArith List String Ascii Bool Lia Sorted Permutation.
From Stdlib Require Import Floats.
Import ListNotations.
Local Open Scope string_scope.
Local Open Scope list_scope.

Set Warnings "-register-all".

(** ** The JavaScript runtime: values, strings, maps, arrays *)

Module JS.

(** A value of type [any], as far as the dispatcher looks into it. *)
Inductive value : Type :=
| Undefined
| Null
| Boolean (b : bool)
| Num (n : float)
| Str (s : string)
| Obj (fields : list (string * value))
| Arr (elems : list value).

(** What a [throw] (or a rejected promise) carries: an instance of [Error]
    with its [message], or any other value. *)
Inductive thrown : Type :=
| ErrorObj (message : string)
| NonError (v : value).

Fixpoint lookup_field (p : string) (fields : list (string * value)) : value :=
  match fields with
  | [] => Undefined
  | (k, v) :: rest => if String.eqb k p then v else lookup_field p rest
  end.

(** [o.p] for the property names the dispatcher reads ([messages],
    [options], [query], [data], [type]): a TypeError on [undefined] and
    [null] (with V8's message), the own property of an object, and
    [undefined] on primitives and arrays, which have no such property. *)
Definition get (o : value) (p : string) : thrown + value :=
  match o with
  | Undefined =>
      inl (ErrorObj ("Cannot read properties of undefined (reading '" ++ p ++ "')")%string)
  | Null =>
      inl (ErrorObj ("Cannot read properties of null (reading '" ++ p ++ "')")%string)
  | Obj fields => inr (lookup_field p fields)
  | _ => inr Undefined
  end.

(** Truthiness of an optional string and of an optional number. *)
Definition truthy_string (s : option string) : bool :=
  match s with
  | Some s => negb (String.eqb s "")
  | None => false
  end.

Definition truthy_number (n : option float) : bool :=
  match n with
  | Some x => negb (PrimFloat.eqb x 0 || PrimFloat.is_nan x)
  | None => false
  end.

(** [String.prototype.toLowerCase] on ASCII text: the letters [A] to [Z]
    go to [a] to [z] and every other ASCII character stays.  Cased letters
    outside ASCII are not modelled, so the statements about lower-casing are
    about ASCII text ([Spec.ascii_text]). *)
Definition lower_char (c : ascii) : ascii :=
  let n := nat_of_ascii c in
  if (65 <=? n)%nat && (n <=? 90)%nat then ascii_of_nat (n + 32) else c.

Fixpoint toLowerCase (s : string) : string :=
  match s with
  | EmptyString => EmptyString
  | String c s' => String (lower_char c) (toLowerCase s')
  end.

(** [s.includes(q)]: [q] occurs in [s] at some position. *)
Fixpoint includes (s q : string) : bool :=
  if String.prefix q s then true
  else match s with
       | EmptyString => false
       | String _ s' => includes s' q
       end.

(** [Map.prototype.set]: an existing key keeps its position and takes the
    new value, a new key goes to the end. *)
Fixpoint Map_set {V : Type} (m : list (string * V)) (k : string) (v : V)
  : list (string * V) :=
  match m with
  | [] => [(k, v)]
  | (k', v') :: rest =>
      if String.eqb k' k then (k, v) :: rest else (k', v') :: Map_set rest k v
  end.

(** [Array.from(m.values())]. *)
Definition Map_values {V : Type} (m : list (string * V)) : list V :=
  map snd m.

(** [Array.prototype.sort(comparefn)].  The sort is stable, and an element
    goes behind another one exactly when [comparefn] of the two is positive
    (a [NaN] from [comparefn] counts as [+0]).  The model is insertion from
    the right.  For a comparator that orders the elements, the array that is
    a permutation of the input, sorted and stable is unique
    ([SortFacts.Array_sort_unique]), so every stable algorithm returns what
    this one returns. *)
Definition goes_behind {A : Type} (comparefn : A -> A -> float) (x y : A)
  : bool :=
  PrimFloat.ltb 0 (comparefn x y).

(** The comparator takes two elements for equal: neither goes behind the
    other. *)
Definition compare_equal {A : Type} (comparefn : A -> A -> float) (x y : A)
  : bool :=
  negb (goes_behind comparefn x y) && negb (goes_behind comparefn y x).

Fixpoint sort_insert {A : Type} (comparefn : A -> A -> float) (x : A)
  (sorted : list A) : list A :=
  match sorted with
  | [] => [x]
  | y :: rest =>
      if goes_behind comparefn x y
      then y :: sort_insert comparefn x rest
      else x :: y :: rest
  end.

Definition Array_sort {A : Type} (comparefn : A -> A -> float) (l : list A)
  : list A :=
  fold_right (sort_insert comparefn) [] l.

(** [Math.PI]. *)
Definition Math_PI : float := 0x1.921fb54442d18p+1%float.

(** The parts of the runtime that the language leaves to the implementation
    or that are too large to embed: the approximations [Math.sin],
    [Math.cos] and [Math.atan2], and [parseFloat]. *)
Class Runtime : Type := {
  Math_sin : float -> float;
  Math_cos : float -> float;
  Math_atan2 : float -> float -> float;
  parseFloat : string -> float
}.

End JS.

(** ** The provider dispatcher *)

Module AIBrain.
Import JS.

(** The request types, the string literals of [requestType]. *)
Module RequestType.

Inductive t : Type :=
| chat | analysis | prediction | education | emotion
| nutrition | fitness | mental_health.

Definition to_string (x : t) : string :=
  match x with
  | chat => "chat"
  | analysis => "analysis"
  | prediction => "prediction"
  | education => "education"
  | emotion => "emotion"
  | nutrition => "nutrition"
  | fitness => "fitness"
  | mental_health => "mental_health"
  end.

End RequestType.

Record AIBrainRequest : Type := {
  userId : option string;
  requestType : RequestType.t;
  specialization : string;
  input : value;
  req_priority : option float;
  fallback : option bool
}.

Record AIBrainResponse : Type := {
  success : bool;
  data : option value;
  error : option string;
  provider : string;
  model : string;
  responseTime : Z
}.

(** A settled promise: rejected with a thrown value or resolved.  A promise
    that never settles leaves the [await] on it pending for ever; such runs
    are outside the model, and the statements about [process] are about the
    runs in which the awaited call settles. *)
Definition settled (A : Type) : Type := (thrown + A)%type.

Record IAIProvider : Type := {
  name : string;
  isActive : bool;
  priority : float;
  rateLimit : float;
  chat : value -> value -> settled value;
  analyze : value -> string -> settled value;
  predict : value -> settled value;
  educate : value -> settled value;
  processEmotion : value -> value -> settled value
}.

(** One call of a provider method, as the dispatcher issues it. *)
Inductive method_call : Type :=
| call_chat (messages options : value)
| call_analyze (input : value) (type : string)
| call_predict (data : value)
| call_educate (query : value)
| call_processEmotion (input inputType : value).

Definition perform (p : IAIProvider) (c : method_call) : settled value :=
  match c with
  | call_chat messages options => chat p messages options
  | call_analyze i t => analyze p i t
  | call_predict d => predict p d
  | call_educate q => educate p q
  | call_processEmotion i t => processEmotion p i t
  end.

(** The world a call of [process] runs in: the readings [Date.now()] gives,
    how many were taken, and the provider calls issued so far. *)
Record world : Type := {
  clock : nat -> Z;
  reads : nat;
  calls : list (string * method_call)
}.

(** Computations that read the clock, call providers and may throw. *)
Definition M (A : Type) : Type := world -> settled A * world.

Definition ret {A : Type} (a : A) : M A := fun w => (inr a, w).

Definition bind {A B : Type} (m : M A) (k : A -> M B) : M B :=
  fun w =>
    match m w with
    | (inl e, w') => (inl e, w')
    | (inr a, w') => k a w'
    end.

Definition throw {A : Type} (e : thrown) : M A := fun w => (inl e, w).

Definition try_catch {A : Type} (body : M A) (handler : thrown -> M A) : M A :=
  fun w =>
    match body w with
    | (inl e, w') => handler e w'
    | (inr a, w') => (inr a, w')
    end.

Definition Date_now : M Z :=
  fun w =>
    (inr (clock w (reads w)),
     {| clock := clock w; reads := S (reads w); calls := calls w |}).

(** [await provider.method(args)]: the call is recorded, and the promise
    it returns is awaited. *)
Definition await_call (p : IAIProvider) (c : method_call) : M value :=
  fun w =>
    (perform p c,
     {| clock := clock w; reads := reads w;
        calls := calls w ++ [(name p, c)] |}).

(** Evaluation of a property access that may throw. *)
Definition prop (o : value) (p : string) : M value :=
  fun w => (get o p, w).

Declare Scope brain_scope.
Delimit Scope brain_scope with brain.
Notation "x <- m ;; k" := (bind m (fun x => k))
  (at level 61, m at next level, right associativity) : brain_scope.

(** The state of the dispatcher: the registry, a [Map] from names to
    providers. *)
Record AIBrain : Type := {
  providers : list (string * IAIProvider)
}.

Definition registerProvider (this : AIBrain) (n : string) (p : IAIProvider)
  : AIBrain :=
  {| providers := Map_set (providers this) n p |}.

Definition selectProvider (this : AIBrain) (request : AIBrainRequest)
  : option IAIProvider :=
  let availableProviders :=
    Array_sort (fun a b => (priority b - priority a)%float)
      (filter (fun p => isActive p) (Map_values (providers this))) in
  match availableProviders with
  | p :: _ => Some p
  | [] => None
  end.

(** [error instanceof Error ? error.message : 'Unknown error']. *)
Definition error_message (e : thrown) : string :=
  match e with
  | ErrorObj message => message
  | NonError _ => "Unknown error"
  end.

Open Scope brain_scope.

Definition process (this : AIBrain) (request : AIBrainRequest)
  : M AIBrainResponse :=
  startTime <- Date_now ;;
  try_catch
    (match selectProvider this request with
     | None => throw (ErrorObj "No suitable AI provider available")
     | Some p =>
         result <-
           match requestType request with
           | RequestType.chat =>
               messages <- prop (input request) "messages" ;;
               options <- prop (input request) "options" ;;
               await_call p (call_chat messages options)
           | RequestType.analysis =>
               await_call p (call_analyze (input request) (specialization request))
           | RequestType.prediction =>
               await_call p (call_predict (input request))
           | RequestType.education =>
               query <- prop (input request) "query" ;;
               await_call p (call_educate query)
           | RequestType.emotion =>
               d <- prop (input request) "data" ;;
               t <- prop (input request) "type" ;;
               await_call p (call_processEmotion d t)
           | other =>
               throw (ErrorObj ("Unsupported request type: "
                                  ++ RequestType.to_string other)%string)
           end ;;
         now <- Date_now ;;
         ret {| success := true;
                data := Some result;
                error := None;
                provider := name p;
                model := "default";
                responseTime := now - startTime |}
     end)
    (fun e =>
       now <- Date_now ;;
       ret {| success := false;
              data := None;
              error := Some (error_message e);
              provider := "unknown";
              model := "unknown";
              responseTime := now - startTime |}).

Close Scope brain_scope.

End AIBrain.

(** ** The in-memory clinic store *)

Module MemStorage.
Import JS.

Record Clinic : Type := {
  id : string;
  name : string;
  address : string;
  latitude : string;
  longitude : string;
  type : string;
  rating : option Z;
  hours : option string;
  phone : option string;
  website : option string
}.

Record ClinicSearchResult : Type := {
  clinic : Clinic;
  distance : float
}.

(** The store: [clinics] is a [Map] from ids to clinics. *)
Record MemStorage : Type := {
  clinics : list (string * Clinic)
}.

(** [createClinic]; [newId] is the identifier [randomUUID()] returns. *)
Definition createClinic (this : MemStorage) (newId : string) (c : Clinic)
  : MemStorage * Clinic :=
  let created :=
    {| id := newId; name := name c; address := address c;
       latitude := latitude c; longitude := longitude c; type := type c;
       rating := rating c; hours := hours c; phone := phone c;
       website := website c |} in
  ({| clinics := Map_set (clinics this) newId created |}, created).

Definition getClinics (this : MemStorage) : list Clinic :=
  Map_values (clinics this).

Definition searchClinics (this : MemStorage) (query : string)
  (type_ : option string) : list Clinic :=
  filter
    (fun c =>
       let matchesQuery :=
         includes (toLowerCase (name c)) (toLowerCase query)
         || includes (toLowerCase (address c)) (toLowerCase query) in
       let matchesType :=
         negb (truthy_string type_)
         || match type_ with
            | Some t => String.eqb (type c) t
            | None => false
            end in
       matchesQuery && matchesType)
    (Map_values (clinics this)).

Section Location.
Context {rt : Runtime}.
Local Open Scope float_scope.

(** The haversine formula, with the Earth's radius in miles. *)
Definition calculateDistance (lat1 lon1 lat2 lon2 : float) : float :=
  let R := 3959 in
  let dLat := (lat2 - lat1) * Math_PI / 180 in
  let dLon := (lon2 - lon1) * Math_PI / 180 in
  let a := Math_sin (dLat / 2) * Math_sin (dLat / 2) +
           Math_cos (lat1 * Math_PI / 180) * Math_cos (lat2 * Math_PI / 180) *
           Math_sin (dLon / 2) * Math_sin (dLon / 2) in
  let c := 2 * Math_atan2 (sqrt a) (sqrt (1 - a)) in
  R * c.

Definition getClinicsByLocation (this : MemStorage)
  (latitude_ longitude_ radius : float) : list ClinicSearchResult :=
  Array_sort (fun a b => distance a - distance b)
    (filter (fun result => distance result <=? radius)
       (map (fun c =>
               {| clinic := c;
                  distance :=
                    calculateDistance latitude_ longitude_
                      (parseFloat (latitude c)) (parseFloat (longitude c)) |})
          (Map_values (clinics this)))).

End Location.

End MemStorage.

(** ** POST /api/clinics/search *)

Module Routes.
Import JS MemStorage.

(** The request body after validation by the schema ([radius] has its
    default filled in). *)
Record SearchBody : Type := {
  location : option string;
  body_latitude : option float;
  body_longitude : option float;
  radius : float;
  body_type : option string;
  query : option string
}.

Inductive Branch : Type :=
| GeocodeLocation
| UseCoordinates
| TextSearch
| AllClinics.

(** The chain of guards that selects how the results are computed. *)
Definition search_branch (b : SearchBody) : Branch :=
  if truthy_string (location b)
     && (negb (truthy_number (body_latitude b))
         || negb (truthy_number (body_longitude b)))
  then GeocodeLocation
  else if truthy_number (body_latitude b) && truthy_number (body_longitude b)
  then UseCoordinates
  else if truthy_string (query b)
  then TextSearch
  else AllClinics.

Definition from_option {A : Type} (o : option A) (d : A) : A :=
  match o with
  | Some a => a
  | None => d
  end.

Section Handler.
Context {rt : Runtime}.

(** [mapsService.geocodeAddress]: the coordinates of an address, or [null]
    (it catches its own errors). *)
Variable geocodeAddress : string -> option (float * float).

Definition at_distance_0 (cs : list Clinic) : list ClinicSearchResult :=
  map (fun c => {| clinic := c; distance := 0%float |}) cs.

(** The array the handler sends back with status 200. *)
Definition clinics_search (storage : MemStorage) (b : SearchBody)
  : list ClinicSearchResult :=
  let results :=
    match search_branch b with
    | GeocodeLocation =>
        match geocodeAddress (from_option (location b) "") with
        | Some (lat, lon) => getClinicsByLocation storage lat lon (radius b)
        | None => []
        end
    | UseCoordinates =>
        getClinicsByLocation storage
          (from_option (body_latitude b) 0%float)
          (from_option (body_longitude b) 0%float) (radius b)
    | TextSearch =>
        at_distance_0
          (searchClinics storage (from_option (query b) "") (body_type b))
    | AllClinics => at_distance_0 (getClinics storage)
    end in
  match body_type b with
  | Some t =>
      if truthy_string (Some t)
      then filter (fun result => String.eqb (type (clinic result)) t) results
      else results
  | None => results
  end.

End Handler.

End Routes.

(** ** Definitions used by the statements and the proofs *)

Module Binary64.

(** A key that orders the numbers other than [NaN] the way [SFcompare]
    does, lexicographically: class and sign, then exponent, then mantissa. *)
Definition rank (x : spec_float) : Z * Z * Z :=
  match x with
  | S754_zero _ => (0, 0, 0)
  | S754_nan => (0, 0, 0)
  | S754_infinity false => (2, 0, 0)
  | S754_infinity true => (-2, 0, 0)
  | S754_finite false m e => (1, e, Z.pos m)
  | S754_finite true m e => (-1, - e, Z.neg m)
  end%Z.

Definition lex3 (a b : Z * Z * Z) : comparison :=
  let '(a1, a2, a3) := a in
  let '(b1, b2, b3) := b in
  match (a1 ?= b1)%Z with
  | Eq => match (a2 ?= b2)%Z with
          | Eq => (a3 ?= b3)%Z
          | c => c
          end
  | c => c
  end.

(** The signed mantissa of a finite number once its exponent is lowered to
    [ez], as [SFadd] and [SFsub] align their operands. *)
Definition aligned (s : bool) (m : positive) (e ez : Z) : Z :=
  cond_Zopp s (Z.pos (fst (shl_align m e ez))).

(** The rank of a primitive float. *)
Definition frank (x : float) : Z * Z * Z := rank (Prim2SF x).

(** A number that is zero, or finite of magnitude below [2 ^ bound]. *)
Definition not_too_large (x : spec_float) (bound : Z) : Prop :=
  match x with
  | S754_zero _ => True
  | S754_finite _ m e => (Z.pos (digits2_pos m) + e <= bound)%Z
  | _ => False
  end.

End Binary64.

Module Spec.
Import JS AIBrain.







(** The provider call a request leads to: the method of its request type and
    the arguments read from its input, or what evaluating them throws. *)
Definition issued_call (request : AIBrainRequest) : thrown + method_call :=
  match requestType request with
  | RequestType.chat =>
      match get (input request) "messages" with
      | inl e => inl e
      | inr messages =>
          match get (input request) "options" with
          | inl e => inl e
          | inr options => inr (call_chat messages options)
          end
      end
  | RequestType.analysis => inr (call_analyze (input request) (specialization request))
  | RequestType.prediction => inr (call_predict (input request))
  | RequestType.education =>
      match get (input request) "query" with
      | inl e => inl e
      | inr q => inr (call_educate q)
      end
  | RequestType.emotion =>
      match get (input request) "data" with
      | inl e => inl e
      | inr d =>
          match get (input request) "type" with
          | inl e => inl e
          | inr t => inr (call_processEmotion d t)
          end
      end
  | other =>
      inl (ErrorObj ("Unsupported request type: " ++ RequestType.to_string other)%string)
  end.

(** The world after the two readings of the clock [process] takes, without
    and with a provider call. *)
Definition after_reads (w : world) : world :=
  {| clock := clock w; reads := S (S (reads w)); calls := calls w |}.

Definition after_call (w : world) (entry : string * method_call) : world :=
  {| clock := clock w; reads := S (S (reads w));
     calls := calls w ++ [entry] |}.

(** The failure envelope [process] builds in its [catch]. *)
Definition failure (message : string) (elapsed : Z) : AIBrainResponse :=
  {| success := false; data := None; error := Some message;
     provider := "unknown"; model := "unknown"; responseTime := elapsed |}.

(** The time [process] measures in a world: the second reading of the clock
    minus the first. *)
Definition elapsed (w : world) : Z :=
  (clock w (S (reads w)) - clock w (reads w))%Z.

(** Two requests that differ at most in their [fallback] flag. *)
Definition same_except_fallback (r1 r2 : AIBrainRequest) : Prop :=
  userId r1 = userId r2
  /\ requestType r1 = requestType r2
  /\ specialization r1 = specialization r2
  /\ input r1 = input r2
  /\ req_priority r1 = req_priority r2.

(** The comparator of [selectProvider], and the providers whose priority
    is a number. *)
Definition by_priority (a b : IAIProvider) : float :=
  (priority b - priority a)%float.

Definition has_priority (p : IAIProvider) : Prop :=
  is_nan (priority p) = false.

End Spec.

Module SearchSpec.
Import JS MemStorage Routes.




(** The body of a request with its coordinates removed. *)
Definition without_coordinates (b : SearchBody) : SearchBody :=
  {| location := location b; body_latitude := None; body_longitude := None;
     radius := radius b; body_type := body_type b; query := query b |}.

(** A coordinate that is given and equal to zero ([0] or [-0]). *)
Definition zero_coordinate (n : option float) : Prop :=
  exists x, n = Some x /\ PrimFloat.eqb x 0 = true.

(** A point of the globe: a latitude between -90 and 90 degrees and a
    longitude between -180 and 180 degrees. *)
Definition is_point (lat lon : float) : Prop :=
  PrimFloat.leb (abs lat) 90 = true /\ PrimFloat.leb (abs lon) 180 = true.

Definition has_distance (r : ClinicSearchResult) : Prop :=
  is_nan (distance r) = false.

(** The comparator of [getClinicsByLocation]. *)
Definition by_distance (a b : ClinicSearchResult) : float :=
  (distance a - distance b)%float.

Section WithRuntime.
Context {rt : Runtime}.
Local Open Scope float_scope.

(** The distance [getClinicsByLocation] computes for a clinic, and the
    result it builds. *)
Definition distance_from (lat lon : float) (c : Clinic) : float :=
  calculateDistance lat lon (parseFloat (latitude c)) (parseFloat (longitude c)).

Definition locate (lat lon : float) (c : Clinic) : ClinicSearchResult :=
  {| clinic := c; distance := distance_from lat lon c |}.

(** The quantity [a] of the haversine formula. *)
Definition haversine (lat1 lon1 lat2 lon2 : float) : float :=
  let dLat := (lat2 - lat1) * Math_PI / 180 in
  let dLon := (lon2 - lon1) * Math_PI / 180 in
  Math_sin (dLat / 2) * Math_sin (dLat / 2) +
  Math_cos (lat1 * Math_PI / 180) * Math_cos (lat2 * Math_PI / 180) *
  Math_sin (dLon / 2) * Math_sin (dLon / 2).

(** What the proofs ask of the runtime's approximations.  ECMAScript fixes
    [Math.sin(NaN)], [Math.sin(+0)], [Math.atan2(NaN, x)] and
    [Math.atan2(+0, x)] for positive [x]; a cosine lies between -1 and 1;
    and the implementations in use (fdlibm and its ports) compute an odd
    sine. *)
Definition sin_odd : Prop := forall t, Math_sin (- t) = - Math_sin t.
Definition sin_zero : Prop := Math_sin 0 = 0.
Definition sin_nan : Prop := Math_sin nan = nan.
Definition cos_bounded : Prop :=
  forall t, is_finite t = true -> (abs (Math_cos t) <=? 1) = true.
Definition atan2_zero : Prop := Math_atan2 0 1 = 0.
Definition atan2_nan : Prop := forall x, Math_atan2 nan x = nan.

End WithRuntime.

End SearchSpec.

(** ** Concrete data for the examples *)

Module Samples.
Import JS AIBrain MemStorage Routes.

(** A small runtime: the small-angle approximations [sin x = x],
    [cos x = 1] and [atan2 y x = y / x], and a [parseFloat] for decimal
    literals without exponent. *)
Definition digit_value (c : ascii) : option float :=
  match c with
  | "0"%char => Some 0%float
  | "1"%char => Some 1%float
  | "2"%char => Some 2%float
  | "3"%char => Some 3%float
  | "4"%char => Some 4%float
  | "5"%char => Some 5%float
  | "6"%char => Some 6%float
  | "7"%char => Some 7%float
  | "8"%char => Some 8%float
  | "9"%char => Some 9%float
  | _ => None
  end.

(** Reads digits: the number read so far, the power of ten it is scaled by,
    whether a digit was seen, and the rest of the text. *)
Fixpoint read_digits (s : string) (acc scale : float) (seen : bool)
  : float * float * bool * string :=
  match s with
  | EmptyString => (acc, scale, seen, s)
  | String c s' =>
      match digit_value c with
      | Some d => read_digits s' (acc * 10 + d)%float (scale * 10)%float true
      | None => (acc, scale, seen, s)
      end
  end.

Definition read_unsigned (s : string) : float :=
  let '(int_part, _, seen1, rest) := read_digits s 0%float 1%float false in
  match rest with
  | String "."%char frac =>
      let '(num, scale, seen2, _) := read_digits frac int_part 1%float false in
      if seen1 || seen2 then (num / scale)%float else nan
  | _ => if seen1 then int_part else nan
  end.

Definition sample_parseFloat (s : string) : float :=
  match s with
  | String "-"%char s' => (- read_unsigned s')%float
  | _ => read_unsigned s
  end.

Definition sample_runtime : Runtime :=
  {| Math_sin := fun x => x;
     Math_cos := fun _ => 1%float;
     Math_atan2 := fun y x => (y / x)%float;
     parseFloat := sample_parseFloat |}.

(** Providers that answer every call with a fixed outcome. *)
Definition constant_provider (n : string) (active : bool) (prio : float)
  (outcome : settled value) : IAIProvider :=
  {| AIBrain.name := n; isActive := active; priority := prio;
     rateLimit := 100%float;
     chat := fun _ _ => outcome;
     analyze := fun _ _ => outcome;
     predict := fun _ => outcome;
     educate := fun _ => outcome;
     processEmotion := fun _ _ => outcome |}.

Definition provider_a : IAIProvider :=
  constant_provider "a" true 5%float (inr (Str "ok")).

Definition provider_b : IAIProvider :=
  constant_provider "b" false 9%float (inr (Str "ok")).

Definition failing_provider : IAIProvider :=
  constant_provider "down" true 7%float (inl (ErrorObj "upstream timeout")).

Definition empty_brain : AIBrain := {| providers := [] |}.

Definition brain_ab : AIBrain :=
  registerProvider (registerProvider empty_brain "a" provider_a) "b" provider_b.

Definition brain_inactive : AIBrain :=
  registerProvider empty_brain "b" provider_b.

Definition brain_failing : AIBrain :=
  registerProvider (registerProvider empty_brain "down" failing_provider)
    "a" provider_a.

Definition symptoms_request (fb : option bool) : AIBrainRequest :=
  {| userId := None; requestType := RequestType.analysis; specialization := "symptoms";
     input := Obj [("symptoms", Str "headache")];
     req_priority := None; fallback := fb |}.

Definition world0 : world :=
  {| clock := fun n => (1000 + 25 * Z.of_nat n)%Z; reads := 0; calls := [] |}.

Definition make_clinic (i n a lat lon t : string) : Clinic :=
  {| id := i; MemStorage.name := n; address := a; latitude := lat;
     longitude := lon; type := t; rating := None; hours := None;
     phone := None; website := None |}.

Definition city_medical : Clinic :=
  make_clinic "c1" "City Medical Center" "123 Main Street, Downtown"
    "40.7128" "-74.0060" "general".

Definition quickcare : Clinic :=
  make_clinic "c2" "QuickCare Urgent Care" "456 Oak Avenue, Midtown"
    "40.7589" "-73.9851" "urgent".

Definition uncharted : Clinic :=
  make_clinic "c3" "Harbor Clinic" "Pier 9" "north" "-73.9934" "general".

Definition sample_storage : MemStorage :=
  {| clinics := [("c1", city_medical); ("c2", quickcare); ("c3", uncharted)] |}.

Definition equator_body : SearchBody :=
  {| location := None; body_latitude := Some 0%float;
     body_longitude := Some 32.5%float; radius := 10%float;
     body_type := None; query := Some "clinic" |}.

End Samples.

(** ** More of the runtime: maps, truthiness, numbers *)

Module JSMore.
Import JS.

(** [Map.prototype.get]. *)
Fixpoint Map_get {V : Type} (m : list (string * V)) (k : string) : option V :=
  match m with
  | [] => None
  | (k', v) :: rest => if String.eqb k' k then Some v else Map_get rest k
  end.

(** [Map.prototype.has]. *)
Definition Map_has {V : Type} (m : list (string * V)) (k : string) : bool :=
  match Map_get m k with
  | Some _ => true
  | None => false
  end.

(** [Map.prototype.delete]: whether the key was there, and the map without
    it. *)
Definition Map_delete {V : Type} (m : list (string * V)) (k : string)
  : bool * list (string * V) :=
  (Map_has m k, filter (fun entry => negb (String.eqb (fst entry) k)) m).

(** A map holds one entry for a key. *)
Definition Map_ok {V : Type} (m : list (string * V)) : Prop :=
  NoDup (map fst m).

(** Truthiness of a value of type [any]. *)
Definition truthy (v : value) : bool :=
  match v with
  | Undefined => false
  | Null => false
  | Boolean b => b
  | Num x => negb (PrimFloat.eqb x 0 || PrimFloat.is_nan x)
  | Str s => negb (String.eqb s "")
  | Obj _ => true
  | Arr _ => true
  end.

(** [a || b]. *)
Definition or_else (a b : value) : value :=
  if truthy a then a else b.

(** [Math.min] and [Math.max] of two numbers: [NaN] if one of them is, and
    [-0] below [+0]. *)
Definition Math_min (x y : float) : float :=
  if PrimFloat.is_nan x || PrimFloat.is_nan y then nan
  else if PrimFloat.ltb x y then x
  else if PrimFloat.ltb y x then y
  else if PrimFloat.get_sign x then x else y.

Definition Math_max (x y : float) : float :=
  if PrimFloat.is_nan x || PrimFloat.is_nan y then nan
  else if PrimFloat.ltb x y then y
  else if PrimFloat.ltb y x then x
  else if PrimFloat.get_sign x then y else x.

(** The conversions to a number that need a parser or the methods of an
    object. *)
Class Conversions : Type := {
  StringToNumber : string -> float;
  ObjectToNumber : value -> float
}.

(** [ToNumber]. *)
Definition ToNumber {cv : Conversions} (v : value) : float :=
  match v with
  | Undefined => nan
  | Null => 0%float
  | Boolean true => 1%float
  | Boolean false => 0%float
  | Num x => x
  | Str s => StringToNumber s
  | Obj _ => ObjectToNumber v
  | Arr _ => ObjectToNumber v
  end.

End JSMore.

(** ** The other tables of the in-memory store

    Each method of [MemStorage] works on one of the maps of the class; the
    methods are grouped here by the map they work on.  An identifier that
    [randomUUID()] returns and a time that [new Date()] reads are arguments. *)

Module Users.
Import JS JSMore.

Record User : Type := {
  id : string;
  username : string;
  password : string
}.

Record InsertUser : Type := {
  insert_username : string;
  insert_password : string
}.

Definition getUser (users : list (string * User)) (id_ : string) : option User :=
  Map_get users id_.

Definition getUserByUsername (users : list (string * User)) (username_ : string)
  : option User :=
  find (fun user => String.eqb (username user) username_) (Map_values users).

Definition createUser (users : list (string * User)) (newId : string)
  (insertUser : InsertUser) : list (string * User) * User :=
  let user :=
    {| id := newId; username := insert_username insertUser;
       password := insert_password insertUser |} in
  (Map_set users newId user, user).

End Users.

Module HealthLogs.
Import JS JSMore.

(** A [Date] is its time value, [getTime()]. *)
Record HealthLog : Type := {
  id : string;
  userId : option string;
  type : string;
  date : float;
  description : string;
  severity : option float;
  metadata : value;
  createdAt : option float
}.

Record InsertHealthLog : Type := {
  insert_userId : option string;
  insert_type : string;
  insert_date : float;
  insert_description : string;
  insert_severity : option float;
  insert_metadata : value
}.

(** [s || null] for an optional string. *)
Definition or_null (s : option string) : option string :=
  if truthy_string s then s else None.

(** [log.userId === userId]. *)
Definition same_user (stored : option string) (userId_ : string) : bool :=
  match stored with
  | Some u => String.eqb u userId_
  | None => false
  end.

Definition getHealthLogs (healthLogs : list (string * HealthLog))
  (userId_ : string) : list HealthLog :=
  Array_sort (fun a b => (date b - date a)%float)
    (filter (fun log => same_user (userId log) userId_)
       (Map_values healthLogs)).

Definition getHealthLogsByType (healthLogs : list (string * HealthLog))
  (userId_ type_ : string) : list HealthLog :=
  Array_sort (fun a b => (date b - date a)%float)
    (filter (fun log => same_user (userId log) userId_
                        && String.eqb (type log) type_)
       (Map_values healthLogs)).

Definition createHealthLog (healthLogs : list (string * HealthLog))
  (newId : string) (now : float) (insertLog : InsertHealthLog)
  : list (string * HealthLog) * HealthLog :=
  let log :=
    {| id := newId;
       userId := or_null (insert_userId insertLog);
       type := insert_type insertLog;
       date := insert_date insertLog;
       description := insert_description insertLog;
       severity := insert_severity insertLog;
       metadata := insert_metadata insertLog;
       createdAt := Some now |} in
  (Map_set healthLogs newId log, log).

Definition deleteHealthLog (healthLogs : list (string * HealthLog))
  (id_ : string) : bool * list (string * HealthLog) :=
  Map_delete healthLogs id_.

End HealthLogs.

Module ChatSessions.
Import JS JSMore.

Record ChatSession : Type := {
  id : string;
  userId : option string;
  messages : value;
  createdAt : option float;
  updatedAt : option float
}.

Record InsertChatSession : Type := {
  insert_userId : option string;
  insert_messages : value
}.

Definition getChatSession (chatSessions : list (string * ChatSession))
  (id_ : string) : option ChatSession :=
  Map_get chatSessions id_.

(** [new Date(s.updatedAt || s.createdAt).getTime()]; [new Date(null)] is
    the epoch. *)
Definition last_change (s : ChatSession) : float :=
  match updatedAt s with
  | Some t => t
  | None =>
      match createdAt s with
      | Some t => t
      | None => 0%float
      end
  end.

Definition getChatSessions (chatSessions : list (string * ChatSession))
  (userId_ : string) : list ChatSession :=
  Array_sort (fun a b => (last_change b - last_change a)%float)
    (filter (fun session => HealthLogs.same_user (userId session) userId_)
       (Map_values chatSessions)).

(** The two times are the two [new Date()] of the method. *)
Definition createChatSession (chatSessions : list (string * ChatSession))
  (newId : string) (created updated : float) (insertSession : InsertChatSession)
  : list (string * ChatSession) * ChatSession :=
  let session :=
    {| id := newId;
       userId := HealthLogs.or_null (insert_userId insertSession);
       messages := insert_messages insertSession;
       createdAt := Some created;
       updatedAt := Some updated |} in
  (Map_set chatSessions newId session, session).

Definition updateChatSession (chatSessions : list (string * ChatSession))
  (id_ : string) (messages_ : value) (now : float)
  : list (string * ChatSession) * option ChatSession :=
  match Map_get chatSessions id_ with
  | None => (chatSessions, None)
  | Some session =>
      let updatedSession :=
        {| id := id session;
           userId := userId session;
           messages := messages_;
           createdAt := createdAt session;
           updatedAt := Some now |} in
      (Map_set chatSessions id_ updatedSession, Some updatedSession)
  end.

End ChatSessions.

(** ** The health-specific methods of the dispatcher *)

Module AIBrainMethods.
Import JS AIBrain.

(** The request the methods build: an object literal with a request type, a
    specialization and an input, and no other property. *)
Definition method_request (t : RequestType.t) (specialization_ : string)
  (input_ : value) : AIBrainRequest :=
  {| userId := None; requestType := t; specialization := specialization_;
     input := input_; req_priority := None; fallback := None |}.

Definition analyzeSymptoms (this : AIBrain.AIBrain) (symptoms patientInfo : value)
  : M AIBrainResponse :=
  process this
    (method_request RequestType.analysis "symptoms"
       (Obj [("symptoms", symptoms); ("patientInfo", patientInfo)])).

Definition analyzeNutrition (this : AIBrain.AIBrain) (foodData goals : value)
  : M AIBrainResponse :=
  process this
    (method_request RequestType.analysis "nutrition"
       (Obj [("foodData", foodData); ("goals", goals)])).

Definition assessMentalHealth (this : AIBrain.AIBrain)
  (responses assessmentType : value) : M AIBrainResponse :=
  process this
    (method_request RequestType.analysis "mental_health"
       (Obj [("responses", responses); ("assessmentType", assessmentType)])).

Definition createFitnessPlan (this : AIBrain.AIBrain) (userProfile goals : value)
  : M AIBrainResponse :=
  process this
    (method_request RequestType.analysis "fitness"
       (Obj [("userProfile", userProfile); ("goals", goals)])).

Definition predictDiseaseTrends (this : AIBrain.AIBrain) (data_ region : value)
  : M AIBrainResponse :=
  process this
    (method_request RequestType.prediction "disease_trends"
       (Obj [("data", data_); ("region", region)])).

Definition analyzeEmotions (this : AIBrain.AIBrain) (inputData inputType : value)
  : M AIBrainResponse :=
  process this
    (method_request RequestType.emotion "emotion_detection"
       (Obj [("data", inputData); ("type", inputType)])).

Definition educationalQuery (this : AIBrain.AIBrain) (query level : value)
  : M AIBrainResponse :=
  process this
    (method_request RequestType.education "health_education"
       (Obj [("query", query); ("level", level)])).

End AIBrainMethods.

(** ** The symptom and chat service

    The reply of the completion API is an argument: what evaluating
    [response.choices[0].message.content] gives, a string or [null], or what
    the call or the evaluation throws. *)

Module AIService.
Import JS JSMore AIBrain.

Record SymptomAnalysisResult : Type := {
  condition : value;
  confidence : float;
  description : value;
  recommendations : value;
  urgency : value
}.

Record ChatMessage : Type := {
  id : string;
  role : string;
  content : string;
  timestamp : string
}.

Definition and_then {A B : Type} (x : thrown + A) (k : A -> thrown + B)
  : thrown + B :=
  match x with
  | inl e => inl e
  | inr a => k a
  end.

(** [Array.isArray(v)]. *)
Definition isArray (v : value) : bool :=
  match v with
  | Arr _ => true
  | _ => false
  end.

(** [['low', 'medium', 'high'].includes(v)]. *)
Definition is_urgency (v : value) : bool :=
  match v with
  | Str s => String.eqb s "low" || String.eqb s "medium" || String.eqb s "high"
  | _ => false
  end.

(** [content || fallback] for a string or [null]. *)
Definition content_or (content_ : option string) (fallback_ : string) : string :=
  match content_ with
  | Some s => if String.eqb s "" then fallback_ else s
  | None => fallback_
  end.

Section Service.
Context {cv : Conversions}.

(** [JSON.parse]: the value of a text, or the [SyntaxError] it throws. *)
Variable JSON_parse : string -> thrown + value.

(** The object [analyzeSymptoms] returns, from the parsed reply. *)
Definition symptom_result (result : value) : thrown + SymptomAnalysisResult :=
  and_then (get result "condition") (fun condition_ =>
  and_then (get result "confidence") (fun confidence_ =>
  and_then (get result "description") (fun description_ =>
  and_then (get result "recommendations") (fun recommendations_ =>
  and_then (get result "urgency") (fun urgency_ =>
  inr {| condition := or_else condition_ (Str "Unable to determine");
         confidence :=
           Math_max 0 (Math_min 100 (ToNumber (or_else confidence_ (Num 0))));
         description := or_else description_ (Str "Unable to provide analysis");
         recommendations :=
           if isArray recommendations_ then recommendations_ else Arr [];
         urgency :=
           if is_urgency urgency_ then urgency_ else Str "medium" |}))))).

Definition analyzeSymptoms (reply : thrown + option string)
  : thrown + SymptomAnalysisResult :=
  match and_then reply (fun content_ =>
        and_then (JSON_parse (content_or content_ "{}")) symptom_result) with
  | inl _ =>
      inl (ErrorObj "Failed to analyze symptoms. Please try again later.")
  | inr r => inr r
  end.

End Service.

Definition getChatResponse (reply : thrown + option string) : thrown + string :=
  match reply with
  | inl _ => inl (ErrorObj "Failed to get AI response. Please try again later.")
  | inr content_ =>
      inr (content_or content_
             "I apologize, but I'm having trouble processing your message right now. Please try again.")
  end.

End AIService.

(** ** The routes of the health logs and of the chat *)

Module LogRoutes.
Import JS JSMore HealthLogs.

Inductive Response : Type :=
| Json (status : Z) (logs : list HealthLog)
| Error (status : Z) (error : string)
| NoContent (status : Z).

(** GET /api/health-logs; [userId] and [type] are query parameters, each
    absent or given once. *)
Definition get_health_logs (healthLogs : list (string * HealthLog))
  (userId_ type_ : option string) : Response :=
  if negb (truthy_string userId_) then Error 400 "User ID is required"
  else
    let user := Routes.from_option userId_ "" in
    Json 200
      (if truthy_string type_
       then getHealthLogsByType healthLogs user (Routes.from_option type_ "")
       else getHealthLogs healthLogs user).

(** DELETE /api/health-logs/:id. *)
Definition delete_health_log (healthLogs : list (string * HealthLog))
  (id_ : string) : Response * list (string * HealthLog) :=
  let '(success, remaining) := deleteHealthLog healthLogs id_ in
  if negb success then (Error 404 "Health log not found", remaining)
  else (NoContent 204, remaining).

End LogRoutes.

Module ChatRoutes.
Import JS JSMore AIService ChatSessions.

(** A message as the object the session stores. *)
Definition message_value (m : ChatMessage) : value :=
  Obj [("id", Str (AIService.id m)); ("role", Str (role m));
       ("content", Str (content m)); ("timestamp", Str (timestamp m))].

Inductive Response : Type :=
| Json (message : ChatMessage) (sessionId : string)
| Error (status : Z) (error : string).

(** POST /api/chat/message, once the body is validated.  [userId] and
    [aiId] are the two identifiers [randomUUID()] returns, [userTime] and
    [aiTime] the two timestamps, [now] the time [updateChatSession] reads,
    and [complete] the reply of the completion API to a conversation. *)
Definition post_chat_message
  (complete : list ChatMessage -> thrown + option string)
  (chatSessions : list (string * ChatSession))
  (userId_ aiId userTime aiTime : string) (now : float)
  (sessionId message : string) (messages_ : list ChatMessage)
  : Response * list (string * ChatSession) :=
  let userMessage :=
    {| AIService.id := userId_; role := "user"; content := message;
       timestamp := userTime |} in
  let conversationMessages := messages_ ++ [userMessage] in
  match getChatResponse (complete conversationMessages) with
  | inl _ => (Error 500 "Failed to process chat message", chatSessions)
  | inr aiResponse =>
      let aiMessage :=
        {| AIService.id := aiId; role := "assistant"; content := aiResponse;
           timestamp := aiTime |} in
      let updatedMessages := conversationMessages ++ [aiMessage] in
      let '(stored, _) :=
        updateChatSession chatSessions sessionId
          (Arr (map message_value updatedMessages)) now in
      (Json aiMessage sessionId, stored)
  end.

End ChatRoutes.

(** ** Definitions used by the statements about the other tables *)

Module StoreSpec.
Import JS JSMore.

(** A map whose entries are stored under their own identifier, as every
    [create] method stores them. *)
Definition keyed_by {V : Type} (id_of : V -> string) (m : list (string * V))
  : Prop :=
  forall k v, In (k, v) m -> id_of v = k.

(** A log whose date is a time value, not that of an invalid [Date]. *)
Definition dated (log : HealthLogs.HealthLog) : Prop :=
  is_nan (HealthLogs.date log) = false.

(** The logs of a user have dates. *)
Definition dated_logs (healthLogs : list (string * HealthLogs.HealthLog))
  (userId_ : string) : Prop :=
  forall log, In log (Map_values healthLogs) ->
              HealthLogs.userId log = Some userId_ -> dated log.

(** The logs of a user, in the order of the store. *)
Definition logs_of (healthLogs : list (string * HealthLogs.HealthLog))
  (userId_ : string) : list HealthLogs.HealthLog :=
  filter (fun log => HealthLogs.same_user (HealthLogs.userId log) userId_)
    (Map_values healthLogs).

(** The later of two dates comes first or they are equal. *)
Definition not_older (a b : HealthLogs.HealthLog) : Prop :=
  PrimFloat.leb (HealthLogs.date b) (HealthLogs.date a) = true.

End StoreSpec.

(** ** More concrete data *)

Module StoreSamples.
Import JS JSMore.

Definition alice : Users.User :=
  {| Users.id := "u1"; Users.username := "alice"; Users.password := "pw1" |}.

Definition sample_users : list (string * Users.User) := [("u1", alice)].

Definition second_alice : Users.InsertUser :=
  {| Users.insert_username := "alice"; Users.insert_password := "pw2" |}.

Definition make_log (i u t : string) (d : float) : HealthLogs.HealthLog :=
  {| HealthLogs.id := i; HealthLogs.userId := Some u; HealthLogs.type := t;
     HealthLogs.date := d; HealthLogs.description := "";
     HealthLogs.severity := None; HealthLogs.metadata := Null;
     HealthLogs.createdAt := Some d |}.

Definition log1 : HealthLogs.HealthLog := make_log "l1" "u1" "symptom" 1000%float.
Definition log2 : HealthLogs.HealthLog := make_log "l2" "u1" "mood" 3000%float.
Definition log3 : HealthLogs.HealthLog := make_log "l3" "u2" "symptom" 2000%float.
Definition log4 : HealthLogs.HealthLog := make_log "l4" "u1" "symptom" 2000%float.

Definition sample_logs : list (string * HealthLogs.HealthLog) :=
  [("l1", log1); ("l2", log2); ("l3", log3); ("l4", log4)].

Definition anonymous_log : HealthLogs.InsertHealthLog :=
  {| HealthLogs.insert_userId := Some ""; HealthLogs.insert_type := "mood";
     HealthLogs.insert_date := 4000%float; HealthLogs.insert_description := "";
     HealthLogs.insert_severity := None; HealthLogs.insert_metadata := Null |}.

Definition make_session (i u : string) (created : float) (updated : option float)
  : ChatSessions.ChatSession :=
  {| ChatSessions.id := i; ChatSessions.userId := Some u;
     ChatSessions.messages := Arr [];
     ChatSessions.createdAt := Some created;
     ChatSessions.updatedAt := updated |}.

Definition session1 : ChatSessions.ChatSession :=
  make_session "s1" "u1" 100%float None.
Definition session2 : ChatSessions.ChatSession :=
  make_session "s2" "u1" 200%float (Some 300%float).

Definition sample_sessions : list (string * ChatSessions.ChatSession) :=
  [("s1", session1); ("s2", session2)].

Definition harbor_insert : MemStorage.Clinic :=
  Samples.make_clinic "draft" "Harbor Pharmacy" "Pier 11" "40.70" "-74.01" "pharmacy".

End StoreSamples.

(** ** Definitions used by the statements about the dispatcher *)

Module BrainSpec.
Import JS JSMore AIBrain Spec.

(** The envelope [process] builds when the provider has answered. *)
Definition answered (p : IAIProvider) (v : value) (elapsed : Z) : AIBrainResponse :=
  {| success := true; data := Some v; error := None;
     provider := AIBrain.name p; model := "default"; responseTime := elapsed |}.

(** What [process] comes to once a provider is selected and a call is
    issued: the envelope of the outcome of the call, two readings of the
    clock and that one call. *)
Definition dispatched (p : IAIProvider) (c : method_call) (w : world)
  : settled AIBrainResponse * world :=
  (inr match perform p c with
       | inl e => failure (error_message e) (elapsed w)
       | inr v => answered p v (elapsed w)
       end,
   after_call w (AIBrain.name p, c)).

(** The request types that the interface declares and [process] has no case
    for. *)
Definition undispatched (t : RequestType.t) : bool :=
  match t with
  | RequestType.nutrition | RequestType.fitness | RequestType.mental_health => true
  | _ => false
  end.

(** The parts of a request [process] reads: the type and the input, and the
    specialization of an analysis. *)
Definition same_as_read (r1 r2 : AIBrainRequest) : Prop :=
  requestType r1 = requestType r2
  /\ input r1 = input r2
  /\ (requestType r1 = RequestType.analysis ->
      specialization r1 = specialization r2).

(** The well-formed envelopes. *)
Definition envelope_ok (this : AIBrain.AIBrain) (r : AIBrainResponse) : Prop :=
  if success r
  then error r = None /\ data r <> None /\ model r = "default"
       /\ exists p, In p (Map_values (providers this)) /\ isActive p = true
                    /\ provider r = AIBrain.name p
  else data r = None /\ error r <> None
       /\ provider r = "unknown" /\ model r = "unknown".

(** The active providers have priorities that are numbers. *)
Definition priorities_ok (this : AIBrain.AIBrain) : Prop :=
  forall p, In p (Map_values (providers this)) -> isActive p = true ->
            has_priority p.

End BrainSpec.

Module BrainSamples.
Import JS AIBrain Samples.

Definition provider_c : IAIProvider :=
  constant_provider "c" true 8%float (inr (Str "fine")).

Definition echo_provider : IAIProvider :=
  {| AIBrain.name := "echo"; isActive := true; priority := 1%float;
     rateLimit := 100%float;
     chat := fun messages _ => inr messages;
     analyze := fun i _ => inr i;
     predict := fun d => inr d;
     educate := fun q => inr q;
     processEmotion := fun i _ => inr i |}.

Definition brain_echo : AIBrain.AIBrain :=
  registerProvider empty_brain "echo" echo_provider.

Definition typed_request (t : RequestType.t) (i : value) : AIBrainRequest :=
  {| userId := Some "u1"; requestType := t; specialization := "general";
     input := i; req_priority := Some 1%float; fallback := None |}.

End BrainSamples.

(** ** Definitions used by the statements about the services and routes *)

Module ServiceSpec.
Import JS JSMore AIService.

(** A number between 0 and 100. *)
Definition percentage (x : float) : Prop :=
  PrimFloat.leb 0 x = true /\ PrimFloat.leb x 100 = true.

(** A value whose conversion to a number needs no parser and no method of
    an object: anything but a non-empty string, an object or an array. *)
Definition plain (v : value) : bool :=
  match v with
  | Str s => String.eqb s ""
  | Obj _ => false
  | Arr _ => false
  | _ => true
  end.

(** The result of a symptom analysis has its fields filled in. *)
Definition filled_in (r : SymptomAnalysisResult) : Prop :=
  truthy (condition r) = true
  /\ truthy (description r) = true
  /\ isArray (recommendations r) = true
  /\ is_urgency (urgency r) = true
  /\ (is_nan (confidence r) = true \/ percentage (confidence r)).


(** The type asked for in a query: a log fits when no type or the empty one
    is given, or when it has the type. *)
Definition fits_type (type_ : option string) (log : HealthLogs.HealthLog) : Prop :=
  truthy_string type_ = true -> type_ = Some (HealthLogs.type log).

End ServiceSpec.

Module ServiceSamples.
Import JS JSMore AIService.

(** Conversions for the examples: decimal literals, and [NaN] for every
    object. *)
Definition sample_conversions : Conversions :=
  {| StringToNumber := Samples.sample_parseFloat;
     ObjectToNumber := fun _ => nan |}.

(** A parser that knows two texts, and the parse of a reply that gives its
    confidence in words. *)
Definition sample_parse (text : string) : thrown + value :=
  if String.eqb text "{}" then inr (Obj [])
  else if String.eqb text "null" then inr Null
  else inl (ErrorObj "Unexpected token").

Definition wordy_parse (text : string) : thrown + value :=
  inr (Obj [("condition", Str "Migraine"); ("confidence", Str "high")]).

Definition greeting : ChatMessage :=
  {| AIService.id := "m1"; role := "user"; content := "hello";
     timestamp := "2025-01-01T00:00:00.000Z" |}.

(** A completion API that is down, and one that answers with no content. *)
Definition api_down (conversation : list ChatMessage) : thrown + option string :=
  inl (ErrorObj "connect ECONNREFUSED").

Definition api_silent (conversation : list ChatMessage) : thrown + option string :=
  inr None.

End ServiceSamples.

Module SearchSamples.
Import JS MemStorage Routes.

(** A geocoder that knows no address, and one that puts every address at
    the same place. *)
Definition no_geocoder (address_ : string) : option (float * float) := None.

Definition fixed_geocoder (address_ : string) : option (float * float) :=
  Some (40.5%float, (-74)%float).

Definition urgent_body : SearchBody :=
  {| location := None; body_latitude := None; body_longitude := None;
     radius := 10%float; body_type := Some "urgent"; query := None |}.

Definition nowhere_body : SearchBody :=
  {| location := Some "Atlantis"; body_latitude := None;
     body_longitude := None; radius := 10%float; body_type := None;
     query := Some "clinic" |}.

Definition downtown_body : SearchBody :=
  {| location := Some "Atlantis"; body_latitude := Some 40.5%float;
     body_longitude := Some (-74)%float; radius := 5%float;
     body_type := None; query := Some "harbor" |}.

Definition downtown_coordinates : SearchBody :=
  {| location := None; body_latitude := Some 40.5%float;
     body_longitude := Some (-74)%float; radius := 5%float;
     body_type := None; query := None |}.

End SearchSamples.

(** * Facts about binary64 arithmetic *)

Module Binary64Facts.
Import Binary64.
Local Open Scope Z_scope.

(** ** Sizes of mantissas and shifts *)

Lemma digits2_pos_size m : digits2_pos m = Pos.size m.
Proof. induction m; simpl; congruence. Qed.

Lemma digits2_bounds m :
  2 ^ (Z.pos (digits2_pos m) - 1) <= Z.pos m < 2 ^ Z.pos (digits2_pos m).
Proof.
  rewrite digits2_pos_size. split.
  - assert (H := Pos.size_le m).
    apply (Pos2Z.pos_le_pos) in H. rewrite Pos2Z.inj_pow in H.
    replace (Z.pos (Pos.size m)) with (Z.succ (Z.pos (Pos.size m) - 1)) in H by lia.
    rewrite Z.pow_succ_r in H by lia. lia.
  - assert (H := Pos.size_gt m).
    apply (Pos2Z.pos_lt_pos) in H. rewrite Pos2Z.inj_pow in H. exact H.
Qed.

Lemma digits2_le m d : Z.pos m < 2 ^ d -> Z.pos (digits2_pos m) <= d.
Proof.
  intros H. destruct (digits2_bounds m) as [L _].
  destruct (Z.le_gt_cases (Z.pos (digits2_pos m)) d) as [|G]; [assumption|].
  assert (2 ^ d <= 2 ^ (Z.pos (digits2_pos m) - 1)).
  { apply Z.pow_le_mono_r; lia. }
  lia.
Qed.

Lemma Zdigits2_le_pow a d : 0 <= a < 2 ^ d -> 0 <= d -> Zdigits2 a <= d.
Proof.
  intros [H0 H] Hd. destruct a as [|p|p]; simpl; try lia. apply digits2_le. exact H.
Qed.

Lemma Zdigits2_bound a : 0 <= a -> a < 2 ^ Zdigits2 a.
Proof.
  intros H. destruct a as [|p|p]; try lia.
  - simpl. lia.
  - simpl. apply digits2_bounds.
Qed.

Lemma Zdigits2_nonneg a : 0 <= Zdigits2 a.
Proof. destruct a; simpl; lia. Qed.

Lemma Zdigits2_succ a b : 0 <= a -> 0 <= b <= a + 1 -> Zdigits2 b <= Zdigits2 a + 1.
Proof.
  intros Ha Hb. assert (H := @Zdigits2_bound a Ha). assert (N := Zdigits2_nonneg a).
  apply Zdigits2_le_pow; [|lia].
  rewrite Z.pow_add_r by lia. change (2 ^ 1) with 2. lia.
Qed.

Lemma digits2_mul m1 m2 :
  Zdigits2 (Z.pos (m1 * m2)) <= Z.pos (digits2_pos m1) + Z.pos (digits2_pos m2).
Proof.
  apply Zdigits2_le_pow; [|lia]. split; [lia|].
  destruct (digits2_bounds m1) as [_ U1]. destruct (digits2_bounds m2) as [_ U2].
  rewrite Pos2Z.inj_mul, Z.pow_add_r by lia. nia.
Qed.

Lemma shr_1_m mrs : 0 <= shr_m mrs -> shr_m (shr_1 mrs) = shr_m mrs / 2.
Proof.
  destruct mrs as [m r s]. simpl. intros H.
  destruct m as [|p|p]; try lia; [reflexivity|].
  destruct p; simpl shr_m.
  - rewrite Pos2Z.inj_xI. apply Z.div_unique with 1; lia.
  - rewrite Pos2Z.inj_xO. apply Z.div_unique with 0; lia.
  - reflexivity.
Qed.

Lemma iter_shr_1_m p : forall mrs,
  0 <= shr_m mrs -> shr_m (iter_pos shr_1 p mrs) = shr_m mrs / 2 ^ Z.pos p.
Proof.
  assert (Hnn : forall q mrs, 0 <= shr_m mrs -> 0 <= shr_m mrs / 2 ^ Z.pos q).
  { intros. apply Z.div_pos; [assumption|]. apply Z.pow_pos_nonneg; lia. }
  induction p as [p IH|p IH|]; intros mrs H; simpl iter_pos.
  - assert (H1 : 0 <= shr_m (shr_1 mrs)).
    { rewrite shr_1_m by assumption. apply Z.div_pos; lia. }
    rewrite IH, IH, shr_1_m; try assumption.
    + rewrite !Z.div_div by (try apply Z.pow_pos_nonneg; lia).
      f_equal. replace (Z.pos p~1) with (1 + Z.pos p + Z.pos p) by lia.
      rewrite (Z.pow_add_r 2 (1 + Z.pos p) (Z.pos p)) by lia.
      rewrite (Z.pow_add_r 2 1 (Z.pos p)) by lia. lia.
    + rewrite IH by assumption. apply Hnn. assumption.
  - rewrite IH, IH; try assumption.
    + rewrite !Z.div_div by (try apply Z.pow_pos_nonneg; lia).
      f_equal. replace (Z.pos p~0) with (Z.pos p + Z.pos p) by lia.
      rewrite (Z.pow_add_r 2 (Z.pos p) (Z.pos p)) by lia. lia.
    + rewrite IH by assumption. apply Hnn. assumption.
  - rewrite shr_1_m by assumption. reflexivity.
Qed.

Lemma Zdigits2_div_pow m n :
  0 <= m -> 0 < n -> Zdigits2 (m / 2 ^ n) <= Z.max (Zdigits2 m - n) 0.
Proof.
  intros Hm Hn.
  assert (Hb := Zdigits2_bound m Hm). assert (Hd := Zdigits2_nonneg m).
  assert (Hp : 0 < 2 ^ n) by (apply Z.pow_pos_nonneg; lia).
  destruct (Z.le_gt_cases n (Zdigits2 m)) as [L|G].
  - apply Zdigits2_le_pow; [|lia]. split; [apply Z.div_pos; lia|].
    rewrite Z.max_l by lia.
    apply Z.div_lt_upper_bound; [exact Hp|].
    rewrite <- Z.pow_add_r by lia. replace (n + (Zdigits2 m - n)) with (Zdigits2 m) by lia.
    exact Hb.
  - rewrite Z.div_small; [simpl; lia|]. split; [exact Hm|].
    eapply Z.lt_le_trans; [exact Hb|]. apply Z.pow_le_mono_r; lia.
Qed.

Lemma iter_xO m d : Z.pos (Pos.iter xO m d) = Z.pos m * 2 ^ Z.pos d.
Proof.
  induction d as [|d IH] using Pos.peano_ind.
  - cbn [Pos.iter]. rewrite Pos2Z.inj_xO. change (2 ^ 1) with 2. lia.
  - rewrite Pos.iter_succ, Pos2Z.inj_xO, IH, Pos2Z.inj_succ, Z.pow_succ_r by lia. lia.
Qed.

Lemma shl_align_fst m e e' :
  e' <= e -> Z.pos (fst (shl_align m e e')) = Z.pos m * 2 ^ (e - e').
Proof.
  intros H. unfold shl_align.
  destruct (e' - e) as [|d|d] eqn:E; try lia; cbn [fst].
  - replace (e - e') with 0 by lia. lia.
  - rewrite iter_xO. f_equal. f_equal. lia.
Qed.

Lemma shl_align_snd m e e' :
  -1074 <= e -> -1074 <= e' -> -1074 <= snd (shl_align m e e').
Proof. intros. unfold shl_align. destruct (e' - e); assumption. Qed.

(** ** Rounding *)

Lemma fexp_eq k : fexp prec emax k = Z.max (k - 53) (-1074).
Proof. reflexivity. Qed.

(** What [shr_fexp] does to a mantissa that is not negative: the mantissa does
    not grow, and the exponent moves up to the canonical one. *)
Lemma shr_fexp_bounds m e l :
  0 <= m ->
  0 <= shr_m (fst (shr_fexp prec emax m e l)) <= m
  /\ snd (shr_fexp prec emax m e l) = Z.max e (Z.max (Zdigits2 m + e - 53) (-1074)).
Proof.
  intros Hm. unfold shr_fexp. rewrite fexp_eq.
  assert (Hrec : shr_m (shr_record_of_loc m l) = m).
  { destruct l as [|[]]; reflexivity. }
  unfold shr.
  destruct (Z.max (Zdigits2 m + e - 53) (-1074) - e) as [|q|q] eqn:En;
    cbn [fst snd]; try (rewrite Hrec; split; lia).
  rewrite iter_shr_1_m by (rewrite Hrec; lia). rewrite Hrec.
  assert (Hpow : 0 < 2 ^ Z.pos q) by (apply Z.pow_pos_nonneg; lia).
  split; [split|lia].
  - apply Z.div_pos; assumption.
  - apply Z.div_le_upper_bound; [assumption|]. nia.
Qed.

(** With an exponent that is at least [emin], a positive mantissa stays
    positive: nothing underflows to zero. *)
Lemma shr_fexp_pos m e l :
  0 < m -> -1074 <= e -> 0 < shr_m (fst (shr_fexp prec emax m e l)).
Proof.
  intros Hm He. unfold shr_fexp. rewrite fexp_eq.
  assert (Hrec : shr_m (shr_record_of_loc m l) = m).
  { destruct l as [|[]]; reflexivity. }
  destruct m as [|p|p]; try lia. cbn [Zdigits2].
  set (d := Z.pos (digits2_pos p)).
  unfold shr.
  destruct (Z.max (d + e - 53) (-1074) - e) as [|q|q] eqn:En;
    cbn [fst snd]; try (rewrite Hrec; lia).
  rewrite iter_shr_1_m by (rewrite Hrec; lia). rewrite Hrec.
  assert (Hq : Z.pos q = d - 53) by lia.
  destruct (digits2_bounds p) as [Lo Hi]. fold d in Lo, Hi.
  apply Z.div_str_pos. split; [apply Z.pow_pos_nonneg; lia|].
  rewrite Hq. etransitivity; [|exact Lo].
  apply Z.pow_le_mono_r; lia.
Qed.

Lemma shr_fexp_mag m e l :
  0 <= m ->
  Zdigits2 (shr_m (fst (shr_fexp prec emax m e l))) + snd (shr_fexp prec emax m e l)
  <= Z.max (Zdigits2 m + e) (snd (shr_fexp prec emax m e l)).
Proof.
  intros Hm. unfold shr_fexp. rewrite fexp_eq.
  assert (Hrec : shr_m (shr_record_of_loc m l) = m).
  { destruct l as [|[]]; reflexivity. }
  unfold shr.
  destruct (Z.max (Zdigits2 m + e - 53) (-1074) - e) as [|q|q] eqn:En;
    cbn [fst snd]; try (rewrite Hrec; lia).
  rewrite iter_shr_1_m by (rewrite Hrec; lia). rewrite Hrec.
  assert (H := Zdigits2_div_pow m (Z.pos q) Hm ltac:(lia)). lia.
Qed.

Lemma round_nearest_even_bounds m l :
  m <= round_nearest_even m l <= m + 1.
Proof.
  unfold round_nearest_even. destruct l as [|[]]; try lia.
  destruct (Z.even m); lia.
Qed.

(** Rounding a positive mantissa with an exponent of at least [emin] gives a
    number of the sign asked for, never zero and never [NaN]. *)
Lemma binary_round_aux_sign s m e l :
  0 < m -> -1074 <= e ->
  (exists m' e', binary_round_aux prec emax s m e l = S754_finite s m' e')
  \/ binary_round_aux prec emax s m e l = S754_infinity s.
Proof.
  intros Hm He. unfold binary_round_aux.
  assert (P1 := @shr_fexp_pos m e l Hm He).
  assert (B1 := @shr_fexp_bounds m e l (Z.lt_le_incl _ _ Hm)).
  destruct (shr_fexp prec emax m e l) as [mrs1 e1]. cbn [fst snd] in *.
  assert (R := round_nearest_even_bounds (shr_m mrs1) (loc_of_shr_record mrs1)).
  set (m1 := round_nearest_even _ _) in *.
  assert (P2 := @shr_fexp_pos m1 e1 loc_Exact ltac:(lia) ltac:(lia)).
  destruct (shr_fexp prec emax m1 e1 loc_Exact) as [mrs2 e2]. cbn [fst] in P2.
  destruct (shr_m mrs2) as [|p|p]; try lia.
  destruct (e2 <=? emax - prec); eauto.
Qed.

Lemma binary_round_sign s m e :
  -1074 <= e ->
  (exists m' e', binary_round prec emax s m e = S754_finite s m' e')
  \/ binary_round prec emax s m e = S754_infinity s.
Proof.
  intros He. unfold binary_round.
  assert (H := @shl_align_snd m e (fexp prec emax (Z.pos (digits2_pos m) + e)) He).
  destruct (shl_align m e _) as [mz ez]. cbn [snd] in H.
  apply binary_round_aux_sign; [lia|]. apply H. rewrite fexp_eq. lia.
Qed.

(** Rounding [m * 2^e] gives zero or a finite number when [e] is at most the
    largest exponent and the magnitude [Zdigits2 m + e] at most 1023; the
    magnitude grows by one at most. *)
Lemma binary_round_aux_finite s m e l :
  0 <= m -> e <= 971 -> Zdigits2 m + e <= 1023 ->
  binary_round_aux prec emax s m e l = S754_zero s
  \/ exists m' e',
       binary_round_aux prec emax s m e l = S754_finite s m' e'
       /\ Z.pos (digits2_pos m') + e' <= Z.max (Zdigits2 m + e + 1) (-1073).
Proof.
  intros Hm He Hd. unfold binary_round_aux.
  assert (B1 := shr_fexp_bounds m e l Hm).
  assert (M1 := shr_fexp_mag m e l Hm).
  destruct (shr_fexp prec emax m e l) as [mrs1 e1]. cbn [fst snd] in *.
  assert (R := round_nearest_even_bounds (shr_m mrs1) (loc_of_shr_record mrs1)).
  set (m1 := round_nearest_even _ _) in *.
  assert (D1 : Zdigits2 m1 <= Zdigits2 (shr_m mrs1) + 1).
  { apply Zdigits2_succ; lia. }
  assert (B2 := shr_fexp_bounds m1 e1 loc_Exact ltac:(lia)).
  assert (M2 := shr_fexp_mag m1 e1 loc_Exact ltac:(lia)).
  destruct (shr_fexp prec emax m1 e1 loc_Exact) as [mrs2 e2]. cbn [fst snd] in *.
  assert (N := Zdigits2_nonneg m).
  destruct (shr_m mrs2) as [|p|p] eqn:E2; try lia; auto.
  right. replace (e2 <=? emax - prec) with true.
  - exists p, e2. split; [reflexivity|]. cbn [Zdigits2] in M2. lia.
  - symmetry. apply Z.leb_le. change (emax - prec) with 971. lia.
Qed.

(** ** Valid numbers and their order *)

(** A finite number that is valid in binary64: its exponent is at least
    [emin], its mantissa has at most 53 digits, and exactly 53 above [emin]. *)
Lemma bounded_canonical m e :
  bounded prec emax m e = true ->
  -1074 <= e <= 971
  /\ Z.pos (digits2_pos m) <= 53
  /\ (-1074 < e -> Z.pos (digits2_pos m) = 53).
Proof.
  unfold bounded, canonical_mantissa. rewrite andb_true_iff, Z.eqb_eq, Z.leb_le, fexp_eq.
  change (emax - prec) with 971. lia.
Qed.

Lemma canonical_lt mx ex my ey :
  bounded prec emax mx ex = true -> bounded prec emax my ey = true ->
  ex < ey -> Z.pos mx < Z.pos my * 2 ^ (ey - ex).
Proof.
  intros Hx Hy L.
  destruct (bounded_canonical _ _ Hx) as (Ex & Dx & _).
  destruct (bounded_canonical _ _ Hy) as (Ey & _ & Dy).
  assert (Dy' := Dy ltac:(lia)).
  destruct (digits2_bounds mx) as [_ Ux]. destruct (digits2_bounds my) as [Ly _].
  rewrite Dy' in Ly. change (2 ^ (53 - 1)) with 4503599627370496 in Ly.
  assert (Z.pos mx < 2 ^ 53).
  { eapply Z.lt_le_trans; [exact Ux|]. apply Z.pow_le_mono_r; lia. }
  change (2 ^ 53) with 9007199254740992 in H.
  assert (2 ^ 1 <= 2 ^ (ey - ex)) by (apply Z.pow_le_mono_r; lia).
  change (2 ^ 1) with 2 in H0. nia.
Qed.

(** Comparison of two valid finite numbers is comparison of their mantissas
    once aligned on the smaller exponent. *)
Lemma SFcompare_aligned sx mx ex sy my ey :
  bounded prec emax mx ex = true -> bounded prec emax my ey = true ->
  SFcompare (S754_finite sx mx ex) (S754_finite sy my ey)
  = Some (aligned sx mx ex (Z.min ex ey) ?= aligned sy my ey (Z.min ex ey)).
Proof.
  intros Hx Hy. unfold aligned.
  rewrite !shl_align_fst by lia.
  assert (Px : 0 < Z.pos mx * 2 ^ (ex - Z.min ex ey)).
  { apply Z.mul_pos_pos; [lia|]. apply Z.pow_pos_nonneg; lia. }
  assert (Py : 0 < Z.pos my * 2 ^ (ey - Z.min ex ey)).
  { apply Z.mul_pos_pos; [lia|]. apply Z.pow_pos_nonneg; lia. }
  unfold SFcompare. f_equal.
  destruct (Z.compare_spec ex ey) as [E|L|G].
  - subst ey. rewrite Z.min_id, Z.sub_diag in *. change (2 ^ 0) with 1.
    rewrite !Z.mul_1_r.
    destruct sx, sy; reflexivity.
  - assert (C := canonical_lt _ _ _ _ Hx Hy L).
    rewrite Z.min_l in * by lia. rewrite Z.sub_diag in *. change (2 ^ 0) with 1 in *.
    rewrite Z.mul_1_r in *.
    destruct sx, sy; cbn [cond_Zopp]; symmetry;
      first [apply Z.compare_lt_iff | apply Z.compare_gt_iff]; lia.
  - assert (C := canonical_lt _ _ _ _ Hy Hx G).
    rewrite Z.min_r in * by lia. rewrite Z.sub_diag in *. change (2 ^ 0) with 1 in *.
    rewrite Z.mul_1_r in *.
    destruct sx, sy; cbn [cond_Zopp]; symmetry;
      first [apply Z.compare_lt_iff | apply Z.compare_gt_iff]; lia.
Qed.

Lemma SFcompare_rank x y :
  x <> S754_nan -> y <> S754_nan ->
  SFcompare x y = Some (lex3 (rank x) (rank y)).
Proof.
  intros Hx Hy.
  destruct x as [sx|sx| |sx mx ex], y as [sy|sy| |sy my ey]; try congruence;
    try (destruct sx; reflexivity); try (destruct sy; reflexivity);
    try (destruct sx, sy; reflexivity).
  destruct sx, sy; try reflexivity; unfold SFcompare, rank, lex3.
  change (-1 ?= -1)%Z with Eq. cbv iota.
  rewrite Z.compare_opp.
  destruct (Z.compare_spec ey ex) as [E|L|G].
  - subst. rewrite Z.compare_refl.
    change (Z.neg mx ?= Z.neg my)%Z with (CompOpp (mx ?= my)%positive).
    reflexivity.
  - rewrite (proj2 (Z.compare_gt_iff ex ey)) by lia. reflexivity.
  - rewrite (proj2 (Z.compare_lt_iff ex ey)) by lia. reflexivity.
Qed.

Lemma lex3_refl a : lex3 a a = Eq.
Proof. destruct a as [[a1 a2] a3]. unfold lex3. rewrite !Z.compare_refl. reflexivity. Qed.

Lemma lex3_flip a b : lex3 b a = CompOpp (lex3 a b).
Proof.
  destruct a as [[a1 a2] a3], b as [[b1 b2] b3]. unfold lex3.
  rewrite (Z.compare_antisym a1 b1), (Z.compare_antisym a2 b2), (Z.compare_antisym a3 b3).
  destruct (a1 ?= b1)%Z, (a2 ?= b2)%Z, (a3 ?= b3)%Z; reflexivity.
Qed.

Ltac lex3_cases :=
  unfold lex3;
  repeat match goal with
         | |- context [(?a ?= ?b)%Z] => destruct (Z.compare_spec a b); try lia; try congruence
         | H : context [(?a ?= ?b)%Z] |- _ => destruct (Z.compare_spec a b); try lia; try congruence
         end.

Lemma lex3_lt_trans a b c : lex3 a b = Lt -> lex3 b c = Lt -> lex3 a c = Lt.
Proof.
  destruct a as [[a1 a2] a3], b as [[b1 b2] b3], c as [[c1 c2] c3]. lex3_cases.
Qed.

Lemma lex3_not_lt_trans a b c : lex3 a b <> Lt -> lex3 b c <> Lt -> lex3 a c <> Lt.
Proof.
  destruct a as [[a1 a2] a3], b as [[b1 b2] b3], c as [[c1 c2] c3]. lex3_cases.
Qed.

Lemma lex3_lt_eq a b c : lex3 a b = Lt -> lex3 a c = Eq -> lex3 b c = Eq -> False.
Proof.
  destruct a as [[a1 a2] a3], b as [[b1 b2] b3], c as [[c1 c2] c3]. lex3_cases.
Qed.

(** ** The sign of a difference *)

(** The sign of a difference decides the order of its operands: [0 < x - y]
    exactly when [y < x].  Binary64 has subnormal numbers, so the difference
    of two different numbers never rounds to zero. *)
Lemma SFsub_sign x y :
  valid_binary x = true -> valid_binary y = true ->
  x <> S754_nan -> y <> S754_nan ->
  SFltb (S754_zero false) (SF64sub x y) = SFltb y x.
Proof.
  intros Vx Vy Nx Ny.
  destruct x as [sx|sx| |sx mx ex], y as [sy|sy| |sy my ey]; try congruence;
    try (destruct sx, sy; reflexivity);
    try (destruct sx; reflexivity); try (destruct sy; reflexivity).
  simpl in Vx, Vy. unfold SFltb at 2.
  rewrite (SFcompare_aligned sy _ _ sx _ _ Vy Vx).
  unfold SF64sub, SFsub. fold (aligned sx mx ex (Z.min ex ey)).
  fold (aligned sy my ey (Z.min ex ey)). rewrite (Z.min_comm ey ex).
  set (X := aligned sx mx ex _). set (Y := aligned sy my ey _).
  destruct (bounded_canonical _ _ Vx) as (Ex & _). destruct (bounded_canonical _ _ Vy) as (Ey & _).
  assert (Hz : -1074 <= Z.min ex ey) by lia.
  destruct (Z.compare_spec Y X) as [E|L|G].
  - replace (X - Y) with 0 by lia. reflexivity.
  - destruct (X - Y) as [|d|d] eqn:D; try lia. cbn [binary_normalize].
    destruct (binary_round_sign false d _ Hz) as [(m' & e' & ->)| ->]; reflexivity.
  - destruct (X - Y) as [|d|d] eqn:D; try lia. cbn [binary_normalize].
    destruct (binary_round_sign true d _ Hz) as [(m' & e' & ->)| ->]; reflexivity.
Qed.

(** ** Products and quotients that do not overflow *)

Lemma SFmul_not_too_large x y bx by_ :
  valid_binary x = true -> valid_binary y = true ->
  not_too_large x bx -> not_too_large y by_ ->
  bx + by_ <= 1023 -> -1074 <= bx + by_ ->
  not_too_large (SF64mul x y) (bx + by_ + 1).
Proof.
  intros Vx Vy Hx Hy Hb Hlow.
  destruct x as [sx|sx| |sx mx ex], y as [sy|sy| |sy my ey]; cbn [not_too_large] in Hx, Hy;
    try contradiction; try exact I.
  unfold SF64mul, SFmul. simpl in Vx, Vy.
  destruct (bounded_canonical _ _ Vx) as (Ex & Dx & Nx).
  destruct (bounded_canonical _ _ Vy) as (Ey & Dy & Ny).
  assert (Dm := digits2_mul mx my).
  destruct (binary_round_aux_finite (xorb sx sy) (Z.pos (mx * my)) (ex + ey) loc_Exact)
    as [-> | (m' & e' & -> & Hm)]; try lia; [exact I|].
  cbn [not_too_large]. lia.
Qed.

Lemma SFdiv_not_too_large x y bx ly :
  valid_binary x = true -> valid_binary y = true ->
  not_too_large x bx ->
  match y with
  | S754_finite _ my ey => ly <= ey
  | _ => False
  end ->
  bx - ly <= 1023 -> -1074 <= bx - ly ->
  not_too_large (SF64div x y) (bx - ly + 1).
Proof.
  intros Vx Vy Hx Hy Hb Hlow.
  destruct x as [sx|sx| |sx mx ex], y as [sy|sy| |sy my ey]; cbn [not_too_large] in Hx, Hy;
    try contradiction; try exact I.
  unfold SF64div, SFdiv, SFdiv_core_binary. simpl in Vx, Vy.
  destruct (bounded_canonical _ _ Vx) as (Ex & Dx & Nx).
  destruct (bounded_canonical _ _ Vy) as (Ey & Dy & Ny).
  cbn [Zdigits2]. rewrite fexp_eq.
  set (d1 := Z.pos (digits2_pos mx)) in *. set (d2 := Z.pos (digits2_pos my)) in *.
  set (e' := Z.min _ (ex - ey)).
  set (s := ex - ey - e').
  assert (Hs : 0 <= s) by (unfold s, e'; lia).
  set (m' := match s with Z.pos _ => Z.shiftl (Z.pos mx) s | 0 => Z.pos mx | Z.neg _ => 0 end).
  assert (Hm' : m' = Z.pos mx * 2 ^ s).
  { unfold m'. destruct s as [|p|p] eqn:S; try lia.
    apply Z.shiftl_mul_pow2. lia. }
  assert (Hdiv : Z.div_eucl m' (Z.pos my) = (m' / Z.pos my, m' mod Z.pos my)).
  { unfold Z.div, Z.modulo. destruct (Z.div_eucl m' (Z.pos my)); reflexivity. }
  rewrite Hdiv.
  assert (Hp : 0 < 2 ^ s) by (apply Z.pow_pos_nonneg; lia).
  assert (Hq0 : 0 <= m' / Z.pos my) by (apply Z.div_pos; nia).
  assert (Hq1 : m' / Z.pos my <= m').
  { apply Z.div_le_upper_bound; nia. }
  assert (Hdq : Zdigits2 (m' / Z.pos my) <= d1 + s).
  { apply Zdigits2_le_pow; [|lia]. split; [exact Hq0|].
    destruct (digits2_bounds mx) as [_ U]. fold d1 in U.
    rewrite Z.pow_add_r by lia. nia. }
  destruct (binary_round_aux_finite (xorb sx sy) (m' / Z.pos my) e'
              (new_location (Z.pos my) (m' mod Z.pos my)))
    as [-> | (m2 & e2 & -> & Hm2)]; try (unfold s, e' in *; lia); [exact I|].
  cbn [not_too_large]. unfold s, e' in *. lia.
Qed.

Local Open Scope float_scope.

(** ** Negation commutes with rounding *)

Lemma SFopp_involutive x : SFopp (SFopp x) = x.
Proof. destruct x; simpl; rewrite ?negb_involutive; reflexivity. Qed.

Lemma opp_involutive (x : float) : - - x = x.
Proof. apply Prim2SF_inj. rewrite !opp_spec. apply SFopp_involutive. Qed.

Lemma binary_round_aux_opp s m e l :
  binary_round_aux prec emax (negb s) m e l
  = SFopp (binary_round_aux prec emax s m e l).
Proof.
  unfold binary_round_aux.
  destruct (shr_fexp prec emax m e l) as [mrs' e'].
  destruct (shr_fexp prec emax _ e' loc_Exact) as [mrs'' e''].
  destruct (shr_m mrs''); try reflexivity.
  destruct (Z.leb e'' (emax - prec)); reflexivity.
Qed.

Lemma binary_round_opp s m e :
  binary_round prec emax (negb s) m e = SFopp (binary_round prec emax s m e).
Proof.
  unfold binary_round.
  destruct (shl_align m e _) as [mz ez]. apply binary_round_aux_opp.
Qed.

Lemma binary_normalize_opp m e :
  m <> 0%Z ->
  binary_normalize prec emax (- m) e false
  = SFopp (binary_normalize prec emax m e false).
Proof.
  destruct m; simpl; intros H; try congruence.
  - apply (binary_round_opp false).
  - apply (binary_round_opp true).
Qed.

Lemma SFsub_swap x y :
  SF64sub y x = SFopp (SF64sub x y)
  \/ (SF64sub y x = S754_zero false /\ SF64sub x y = S754_zero false).
Proof.
  destruct x as [sx|sx| |sx mx ex], y as [sy|sy| |sy my ey];
    try (destruct sx, sy; simpl; auto; fail);
    try (destruct sx; simpl; auto; fail);
    try (destruct sy; simpl; auto; fail);
    try (simpl; auto; fail).
  unfold SF64sub, SFsub. rewrite (Z.min_comm ey ex).
  set (a := cond_Zopp sx _). set (b := cond_Zopp sy _).
  destruct (Z.eq_dec (a - b) 0) as [E|N].
  - right. replace (b - a)%Z with 0%Z by lia. rewrite E. auto.
  - left. replace (b - a)%Z with (- (a - b))%Z by lia.
    apply binary_normalize_opp; assumption.
Qed.

Lemma sub_swap (x y : float) : y - x = - (x - y) \/ (y - x = 0 /\ x - y = 0).
Proof.
  destruct (SFsub_swap (Prim2SF x) (Prim2SF y)) as [H|[H1 H2]].
  - left. apply Prim2SF_inj. rewrite opp_spec, !sub_spec. exact H.
  - right. split; apply Prim2SF_inj; rewrite sub_spec; assumption.
Qed.

Lemma SFmul_opp_l x y : SF64mul (SFopp x) y = SFopp (SF64mul x y).
Proof.
  destruct x as [sx|sx| |sx mx ex], y as [sy|sy| |sy my ey]; simpl;
    try reflexivity; try (destruct sx, sy; reflexivity).
  rewrite <- binary_round_aux_opp. destruct sx, sy; reflexivity.
Qed.

Lemma SFmul_comm x y : SF64mul x y = SF64mul y x.
Proof.
  destruct x as [sx|sx| |sx mx ex], y as [sy|sy| |sy my ey]; simpl;
    try reflexivity; try (destruct sx, sy; reflexivity).
  rewrite Pos.mul_comm, Z.add_comm, xorb_comm. reflexivity.
Qed.

Lemma mul_comm (x y : float) : x * y = y * x.
Proof. apply Prim2SF_inj. rewrite !mul_spec. apply SFmul_comm. Qed.

Lemma mul_opp_l (x y : float) : (- x) * y = - (x * y).
Proof. apply Prim2SF_inj. rewrite opp_spec, !mul_spec, opp_spec. apply SFmul_opp_l. Qed.

Lemma mul_opp_r (x y : float) : x * (- y) = - (x * y).
Proof. rewrite mul_comm, mul_opp_l, mul_comm. reflexivity. Qed.

Lemma mul_opp_opp (x y : float) : (- x) * (- y) = x * y.
Proof. rewrite mul_opp_l, mul_opp_r. apply opp_involutive. Qed.

Lemma SFdiv_opp_l x y : SF64div (SFopp x) y = SFopp (SF64div x y).
Proof.
  destruct x as [sx|sx| |sx mx ex], y as [sy|sy| |sy my ey]; simpl;
    try reflexivity; try (destruct sx, sy; reflexivity).
  destruct (SFdiv_core_binary prec emax (Z.pos mx) ex (Z.pos my) ey) as [[mz ez] lz].
  rewrite <- binary_round_aux_opp. destruct sx, sy; reflexivity.
Qed.

Lemma div_opp_l (x y : float) : (- x) / y = - (x / y).
Proof. apply Prim2SF_inj. rewrite opp_spec, !div_spec, opp_spec. apply SFdiv_opp_l. Qed.

(** ** Primitive floats: [NaN] and comparisons *)

Lemma is_nan_Prim2SF x : is_nan x = true <-> Prim2SF x = S754_nan.
Proof.
  unfold is_nan. rewrite eqb_spec. unfold SFeqb.
  destruct (Prim2SF x) as [s|s| |s m e] eqn:E.
  1,2,4: rewrite SFcompare_rank, lex3_refl by discriminate; simpl; split; discriminate.
  simpl. tauto.
Qed.

Lemma not_nan_Prim2SF x : is_nan x = false -> Prim2SF x <> S754_nan.
Proof.
  intros H E. apply is_nan_Prim2SF in E. congruence.
Qed.

Lemma is_nan_eq x : is_nan x = true -> x = nan.
Proof.
  intros H. apply Prim2SF_inj. apply is_nan_Prim2SF in H. rewrite H. reflexivity.
Qed.

(** Comparisons of numbers other than [NaN], read on their ranks. *)
Lemma ltb_rank x y :
  is_nan x = false -> is_nan y = false ->
  (x <? y) = match lex3 (frank x) (frank y) with Lt => true | _ => false end.
Proof.
  intros Hx Hy. rewrite ltb_spec. unfold SFltb.
  rewrite SFcompare_rank by (apply not_nan_Prim2SF; assumption). reflexivity.
Qed.

Lemma leb_rank x y :
  is_nan x = false -> is_nan y = false ->
  (x <=? y) = match lex3 (frank x) (frank y) with Gt => false | _ => true end.
Proof.
  intros Hx Hy. rewrite leb_spec. unfold SFleb.
  rewrite SFcompare_rank by (apply not_nan_Prim2SF; assumption).
  destruct (lex3 _ _); reflexivity.
Qed.

Lemma eqb_rank x y :
  is_nan x = false -> is_nan y = false ->
  (x =? y) = match lex3 (frank x) (frank y) with Eq => true | _ => false end.
Proof.
  intros Hx Hy. rewrite eqb_spec. unfold SFeqb.
  rewrite SFcompare_rank by (apply not_nan_Prim2SF; assumption). reflexivity.
Qed.

Lemma leb_not_nan x y : (x <=? y) = true -> is_nan x = false /\ is_nan y = false.
Proof.
  rewrite leb_spec. unfold SFleb. intros H.
  split; apply not_true_is_false; intros N; apply is_nan_Prim2SF in N;
    rewrite N in H; [|destruct (Prim2SF x) as [[]|[]| |[]]]; discriminate.
Qed.

Lemma eqb_not_nan x y : (x =? y) = true -> is_nan x = false /\ is_nan y = false.
Proof.
  rewrite eqb_spec. unfold SFeqb. intros H.
  split; apply not_true_is_false; intros N; apply is_nan_Prim2SF in N;
    rewrite N in H; [|destruct (Prim2SF x) as [[]|[]| |[]]]; discriminate.
Qed.

Lemma ltb_not_nan x y : (x <? y) = true -> is_nan x = false /\ is_nan y = false.
Proof.
  rewrite ltb_spec. unfold SFltb. intros H.
  split; apply not_true_is_false; intros N; apply is_nan_Prim2SF in N;
    rewrite N in H; [|destruct (Prim2SF x) as [[]|[]| |[]]]; discriminate.
Qed.

(** [0 < x - y] exactly when [y < x], for numbers other than [NaN]. *)
Lemma sub_sign x y :
  is_nan x = false -> is_nan y = false -> (0 <? x - y) = (y <? x).
Proof.
  intros Hx Hy. rewrite !ltb_spec, sub_spec.
  change (Prim2SF 0) with (S754_zero false).
  apply SFsub_sign; auto using Prim2SF_valid, not_nan_Prim2SF.
Qed.

Lemma ltb_asym x y : (x <? y) = true -> (y <? x) = false.
Proof.
  intros H. destruct (ltb_not_nan _ _ H) as [Nx Ny].
  rewrite ltb_rank in * by assumption. rewrite (lex3_flip (frank x) (frank y)).
  destruct (lex3 (frank x) (frank y)); simpl; congruence.
Qed.

Lemma ltb_trans x y z : (x <? y) = true -> (y <? z) = true -> (x <? z) = true.
Proof.
  intros H1 H2.
  destruct (ltb_not_nan _ _ H1) as [Nx Ny]. destruct (ltb_not_nan _ _ H2) as [_ Nz].
  rewrite ltb_rank in * by assumption.
  destruct (lex3 (frank x) (frank y)) eqn:E1; try discriminate.
  destruct (lex3 (frank y) (frank z)) eqn:E2; try discriminate.
  rewrite (lex3_lt_trans _ _ _ E1 E2). reflexivity.
Qed.

Lemma ltb_false_trans x y z :
  is_nan x = false -> is_nan y = false -> is_nan z = false ->
  (x <? y) = false -> (y <? z) = false -> (x <? z) = false.
Proof.
  intros Nx Ny Nz. rewrite !ltb_rank by assumption. intros H1 H2.
  assert (A : lex3 (frank x) (frank y) <> Lt) by (destruct (lex3 (frank x) (frank y)); congruence).
  assert (B : lex3 (frank y) (frank z) <> Lt) by (destruct (lex3 (frank y) (frank z)); congruence).
  assert (C := lex3_not_lt_trans _ _ _ A B).
  destruct (lex3 (frank x) (frank z)); congruence.
Qed.

Lemma ltb_false_leb x y :
  is_nan x = false -> is_nan y = false -> (y <? x) = false -> (x <=? y) = true.
Proof.
  intros Nx Ny. rewrite ltb_rank, leb_rank by assumption.
  rewrite (lex3_flip (frank x) (frank y)).
  destruct (lex3 (frank x) (frank y)); simpl; congruence.
Qed.

Lemma ltb_eqb_class x y d :
  (y <? x) = true -> (x =? d) = true -> (y =? d) = true -> False.
Proof.
  intros H1 H2 H3.
  destruct (ltb_not_nan _ _ H1) as [Ny Nx]. destruct (eqb_not_nan _ _ H2) as [_ Nd].
  rewrite ltb_rank in H1 by assumption. rewrite eqb_rank in H2, H3 by assumption.
  destruct (lex3 (frank y) (frank x)) eqn:E1; try discriminate.
  destruct (lex3 (frank x) (frank d)) eqn:E2; try discriminate.
  destruct (lex3 (frank y) (frank d)) eqn:E3; try discriminate.
  exact (lex3_lt_eq _ _ _ E1 E3 E2).
Qed.

(** ** [NaN] is absorbing *)

Lemma mul_nan_l x : nan * x = nan.
Proof. apply Prim2SF_inj. rewrite mul_spec. reflexivity. Qed.

Lemma mul_nan_r x : x * nan = nan.
Proof. rewrite mul_comm. apply mul_nan_l. Qed.

Lemma add_nan_l x : nan + x = nan.
Proof. apply Prim2SF_inj. rewrite add_spec. reflexivity. Qed.

Lemma add_nan_r x : x + nan = nan.
Proof.
  apply Prim2SF_inj. rewrite add_spec. change (Prim2SF nan) with S754_nan.
  destruct (Prim2SF x); reflexivity.
Qed.

Lemma sub_nan_l x : nan - x = nan.
Proof. apply Prim2SF_inj. rewrite sub_spec. reflexivity. Qed.

Lemma div_nan_l x : nan / x = nan.
Proof. apply Prim2SF_inj. rewrite div_spec. reflexivity. Qed.

Lemma leb_nan_l x : (nan <=? x) = false.
Proof. rewrite leb_spec. reflexivity. Qed.

(** ** Finite numbers *)

Lemma is_finite_Prim2SF x :
  is_finite x = true ->
  (exists s, Prim2SF x = S754_zero s) \/ (exists s m e, Prim2SF x = S754_finite s m e).
Proof.
  unfold is_finite, is_infinity. rewrite negb_true_iff, orb_false_iff.
  intros [N I]. apply not_nan_Prim2SF in N.
  rewrite eqb_spec, abs_spec in I.
  destruct (Prim2SF x) as [s|s| |s m e]; eauto; try congruence.
  destruct s; discriminate.
Qed.

Lemma sub_diag x : is_finite x = true -> x - x = 0.
Proof.
  intros H. apply Prim2SF_inj. rewrite sub_spec.
  change (Prim2SF 0) with (S754_zero false).
  destruct (is_finite_Prim2SF x H) as [[s ->]|(s & m & e & ->)].
  - destruct s; reflexivity.
  - unfold SF64sub, SFsub. rewrite Z.sub_diag. reflexivity.
Qed.

(** The square of a number of magnitude at most 1 is a finite number that is
    not negative (it may underflow to zero, it cannot overflow). *)
Lemma square_le_1 c :
  (abs c <=? 1) = true ->
  Prim2SF (c * c) = S754_zero false
  \/ exists m e, Prim2SF (c * c) = S754_finite false m e.
Proof.
  rewrite leb_spec, abs_spec, mul_spec.
  change (Prim2SF 1) with (S754_finite false 4503599627370496 (-52)).
  assert (V := Prim2SF_valid c).
  destruct (Prim2SF c) as [s|s| |s m e]; try discriminate.
  - intros _. left. destruct s; reflexivity.
  - unfold SFleb, SFabs, SFcompare. intros H.
    assert (He : (e <= -52)%Z).
    { destruct (Z.compare_spec e (-52)); lia. }
    clear H. simpl in V.
    destruct (bounded_canonical _ _ V) as (_ & D & _).
    unfold SF64mul, SFmul. rewrite xorb_nilpotent.
    assert (Dm := digits2_mul m m).
    destruct (binary_round_aux_finite false (Z.pos (m * m)) (e + e) loc_Exact)
      as [-> | (m' & e' & -> & _)]; try lia; eauto.
Qed.

Lemma mul_zero_r_nonneg x :
  (Prim2SF x = S754_zero false \/ exists m e, Prim2SF x = S754_finite false m e) ->
  x * 0 = 0.
Proof.
  intros H. apply Prim2SF_inj. rewrite mul_spec.
  change (Prim2SF 0) with (S754_zero false).
  destruct H as [->|(m & e & ->)]; reflexivity.
Qed.

Lemma not_too_large_is_finite x b :
  not_too_large (Prim2SF x) b -> is_finite x = true.
Proof.
  intros H. unfold is_finite, is_infinity.
  rewrite negb_true_iff, orb_false_iff. split.
  - apply not_true_is_false. intros N. apply is_nan_Prim2SF in N.
    rewrite N in H. exact H.
  - rewrite eqb_spec, abs_spec.
    destruct (Prim2SF x) as [s|s| |s m e]; try contradiction; reflexivity.
Qed.

Lemma abs_leb_not_too_large x b mb eb :
  Prim2SF b = S754_finite false mb eb ->
  (abs x <=? b) = true ->
  not_too_large (Prim2SF x) (53 + eb).
Proof.
  intros Hb. rewrite leb_spec, abs_spec, Hb.
  assert (V := Prim2SF_valid x).
  destruct (Prim2SF x) as [s|s| |s m e]; try discriminate; [intros; exact I|].
  unfold SFleb, SFabs, SFcompare. intros H. cbn [not_too_large].
  simpl in V. destruct (bounded_canonical _ _ V) as (_ & D & _).
  destruct (Z.compare_spec e eb); lia.
Qed.

Lemma abs_leb_is_finite x b mb eb :
  Prim2SF b = S754_finite false mb eb -> (abs x <=? b) = true -> is_finite x = true.
Proof.
  intros Hb H. eapply not_too_large_is_finite, abs_leb_not_too_large; eassumption.
Qed.

(** A latitude between -90 and 90 degrees is a finite number of radians. *)
Lemma radians_finite lat :
  (abs lat <=? 90) = true -> is_finite (lat * JS.Math_PI / 180) = true.
Proof.
  intros H. apply (abs_leb_not_too_large lat 90 6333186975989760 (-46) eq_refl) in H.
  apply (not_too_large_is_finite _ (53 + -46 + 2 + 1 - -45 + 1)).
  rewrite div_spec. apply SFdiv_not_too_large; try apply Prim2SF_valid; try lia.
  - rewrite mul_spec. apply SFmul_not_too_large; try apply Prim2SF_valid; try lia.
    + exact H.
    + vm_compute. discriminate.
  - vm_compute. discriminate.
Qed.

End Binary64Facts.

(** * Facts about [Array.prototype.sort] *)

Module SortFacts.
Import JS.

Section SortTheory.
Variables (A : Type) (comparefn : A -> A -> float).
Variable ok : A -> Prop.

Local Abbreviation gb := (goes_behind comparefn).
Local Abbreviation sort := (Array_sort comparefn).
Local Abbreviation ins := (sort_insert comparefn).

Lemma sort_insert_perm x l : Permutation (ins x l) (x :: l).
Proof.
  induction l as [|y l IH]; simpl.
  - apply Permutation_refl.
  - destruct (gb x y).
    + rewrite IH. apply perm_swap.
    + apply Permutation_refl.
Qed.

Lemma Array_sort_perm l : Permutation (sort l) l.
Proof.
  induction l as [|x l IH]; simpl.
  - apply perm_nil.
  - rewrite sort_insert_perm. apply perm_skip. exact IH.
Qed.

Lemma Array_sort_In a l : In a (sort l) <-> In a l.
Proof.
  split; apply Permutation_in;
    [apply Array_sort_perm | apply Permutation_sym, Array_sort_perm].
Qed.

Lemma Array_sort_Forall (P : A -> Prop) l : Forall P l -> Forall P (sort l).
Proof.
  intros H. eapply Permutation_Forall; [|exact H].
  apply Permutation_sym, Array_sort_perm.
Qed.

Lemma Array_sort_nil l : sort l = [] -> l = [].
Proof.
  intros H. apply Permutation_nil. rewrite <- H. apply Array_sort_perm.
Qed.

(** Stability: within a class [c] that the comparator never separates, the
    sort keeps the order of the array. *)
Lemma sort_insert_filter (c : A -> bool) x l :
  (forall y, In y l -> gb x y = true -> c x = true -> c y = true -> False) ->
  filter c (ins x l) = filter c (x :: l).
Proof.
  induction l as [|y l IH]; intros H; [reflexivity|].
  simpl ins. destruct (gb x y) eqn:G; [|reflexivity].
  cbn [filter]. rewrite IH by (intros z Hz; apply H; right; exact Hz).
  cbn [filter].
  destruct (c x) eqn:Cx, (c y) eqn:Cy; try reflexivity.
  exfalso. apply (H y); auto. left. reflexivity.
Qed.

Lemma Array_sort_filter (c : A -> bool) l :
  (forall x y, In x l -> In y l -> gb x y = true -> c x = true -> c y = true -> False) ->
  filter c (sort l) = filter c l.
Proof.
  induction l as [|x l IH]; intros H; [reflexivity|].
  simpl sort. rewrite sort_insert_filter.
  - cbn [filter]. rewrite IH; [reflexivity|].
    intros a b Ha Hb. apply H; right; assumption.
  - intros y Hy. apply H; [left; reflexivity|right].
    apply Array_sort_In. exact Hy.
Qed.

(** The comparator orders the elements that satisfy [ok]. *)
Hypothesis gb_asym : forall x y, ok x -> ok y -> gb x y = true -> gb y x = false.
Hypothesis gb_trans :
  forall x y z, ok x -> ok y -> ok z -> gb x y = true -> gb y z = true -> gb x z = true.
Hypothesis gb_false_trans :
  forall x y z, ok x -> ok y -> ok z -> gb x y = false -> gb y z = false -> gb x z = false.

Local Abbreviation in_order := (fun a b => gb a b = false).

Lemma sort_insert_sorted x l :
  ok x -> Forall ok l ->
  StronglySorted in_order l -> StronglySorted in_order (ins x l).
Proof.
  intros Hx. induction l as [|y l IH]; intros Hok Hs; simpl.
  - constructor; constructor.
  - inversion Hok as [|? ? Hy Hl]; subst. inversion Hs as [|? ? Hs' Hall]; subst.
    destruct (gb x y) eqn:G.
    + constructor; [apply IH; assumption|].
      eapply Permutation_Forall; [apply Permutation_sym, sort_insert_perm|].
      constructor; [|exact Hall]. apply gb_asym; assumption.
    + constructor; [exact Hs|]. constructor; [exact G|].
      rewrite Forall_forall in *. intros z Hz.
      apply (gb_false_trans x y z); auto.
Qed.

Lemma Array_sort_sorted l : Forall ok l -> StronglySorted in_order (sort l).
Proof.
  induction l as [|x l IH]; intros H; simpl.
  - constructor.
  - inversion H; subst. apply sort_insert_sorted; auto.
    apply Array_sort_Forall. assumption.
Qed.

(** The first element of the sorted array: everything before it in the array
    goes behind it, and it goes behind nothing that follows it. *)
Lemma Array_sort_head l p rest :
  Forall ok l -> sort l = p :: rest ->
  exists before after,
    l = before ++ p :: after
    /\ (forall q, In q before -> gb q p = true)
    /\ (forall q, In q after -> gb p q = false).
Proof.
  revert p rest. induction l as [|x l IH]; intros p rest Hok E; [discriminate|].
  inversion Hok as [|? ? Hx Hl]; subst. simpl in E.
  destruct (sort l) as [|y r] eqn:S.
  - apply Array_sort_nil in S. subst l. simpl in E. injection E as <- <-.
    exists [], []. repeat split; intros q [].
  - destruct (IH y r Hl eq_refl) as (l1 & l2 & El & H1 & H2).
    assert (Hy : ok y).
    { rewrite Forall_forall in Hl. apply Hl. rewrite El. apply in_elt. }
    simpl in E. destruct (gb x y) eqn:G; injection E as <- <-.
    + exists (x :: l1), l2. rewrite El. repeat split; auto.
      intros q [<-|Hq]; auto.
    + exists [], l. repeat split; [intros q []|].
      intros q Hq. rewrite El in Hq.
      assert (Hq' : ok q).
      { rewrite Forall_forall in Hl. apply Hl. rewrite El. exact Hq. }
      apply in_app_or in Hq. destruct Hq as [Hq|[<-|Hq]]; auto.
      * destruct (gb x q) eqn:Gq; [|reflexivity].
        rewrite (gb_trans x q y) in G; auto.
      * apply (gb_false_trans x y q); auto.
Qed.

Local Abbreviation same := (compare_equal comparefn).

Lemma gb_irrefl x : ok x -> gb x x = false.
Proof.
  intros Hx. destruct (gb x x) eqn:G; [|reflexivity].
  rewrite (gb_asym x x Hx Hx G) in G. discriminate.
Qed.

(** Two arrays with the same elements, both sorted, that list every class
    of equal elements in the same order are the same array. *)
Lemma sorted_stable_unique l1 : forall l2,
  Forall ok l1 -> Permutation l1 l2 ->
  StronglySorted in_order l1 -> StronglySorted in_order l2 ->
  (forall x, ok x -> filter (same x) l1 = filter (same x) l2) ->
  l1 = l2.
Proof.
  induction l1 as [|a t1 IH]; intros l2 Hok Hp S1 S2 Hf.
  - apply Permutation_nil in Hp. congruence.
  - destruct l2 as [|b t2].
    { apply Permutation_sym, Permutation_nil in Hp. discriminate. }
    inversion Hok as [|? ? Ha Ht]; subst.
    inversion S1 as [|? ? S1' A1]; subst. inversion S2 as [|? ? S2' A2]; subst.
    rewrite Forall_forall in A1, A2.
    assert (Gab : gb a b = false).
    { assert (Hin : In b (a :: t1)).
      { apply (Permutation_in b (Permutation_sym Hp)). left. reflexivity. }
      destruct Hin as [<-|Hin]; [apply gb_irrefl; exact Ha|apply A1; exact Hin]. }
    assert (Gba : gb b a = false).
    { assert (Hin : In a (b :: t2)).
      { apply (Permutation_in a Hp). left. reflexivity. }
      destruct Hin as [<-|Hin]; [apply gb_irrefl; exact Ha|apply A2; exact Hin]. }
    assert (Saa : same a a = true).
    { unfold compare_equal. rewrite (gb_irrefl a Ha). reflexivity. }
    assert (Sab : same a b = true).
    { unfold compare_equal. rewrite Gab, Gba. reflexivity. }
    assert (E := Hf a Ha). cbn [filter] in E. rewrite Saa, Sab in E.
    injection E as <- _.
    f_equal. apply IH; auto.
    + apply (Permutation_cons_inv Hp).
    + intros x Hx. assert (E := Hf x Hx). cbn [filter] in E.
      destruct (same x a); [injection E as E|]; exact E.
Qed.

(** The sorted array is the only permutation of the input that is sorted
    and stable: any stable sort returns the array [Array_sort] returns. *)
Lemma Array_sort_unique l sorted :
  Forall ok l -> Permutation sorted l ->
  StronglySorted in_order sorted ->
  (forall x, ok x -> filter (same x) sorted = filter (same x) l) ->
  sorted = sort l.
Proof.
  intros Hok Hp Hs Hf. apply sorted_stable_unique.
  - apply (Permutation_Forall (Permutation_sym Hp) Hok).
  - rewrite Hp. apply Permutation_sym, Array_sort_perm.
  - exact Hs.
  - apply Array_sort_sorted. exact Hok.
  - intros x Hx. rewrite Hf by exact Hx. symmetry. apply Array_sort_filter.
    rewrite Forall_forall in Hok. unfold compare_equal.
    intros a b Ha Hb G Ca Cb.
    apply andb_true_iff in Ca, Cb. destruct Ca as [_ Ca], Cb as [Cb _].
    apply negb_true_iff in Ca, Cb.
    rewrite (gb_false_trans a x b) in G; auto. discriminate.
Qed.

End SortTheory.

End SortFacts.

(** * Facts about strings *)

Module StringFacts.
Import JS Spec.
Local Open Scope string_scope.


Lemma includes_unfold s q :
  includes s q
  = if String.prefix q s then true
    else match s with
         | EmptyString => false
         | String _ s' => includes s' q
         end.
Proof. destruct s; reflexivity. Qed.









End StringFacts.

(** * Facts about the dispatcher *)

Module AIBrainFacts.
Import JS Binary64Facts SortFacts AIBrain Spec.

(** [Map.prototype.set] with a key that is not in the map appends. *)
Lemma Map_set_fresh {V : Type} (m : list (string * V)) k v :
  ~ In k (map fst m) -> Map_set m k v = m ++ [(k, v)].
Proof.
  induction m as [|[k' v'] m IH]; intros H; simpl; [reflexivity|].
  destruct (String.eqb_spec k' k) as [->|N].
  - exfalso. apply H. left. reflexivity.
  - rewrite IH; [reflexivity|]. intros Hin. apply H. right. exact Hin.
Qed.

(** Providers registered one after the other under different names are
    iterated in the order of their registration. *)
Lemma registerProvider_order regs : forall this,
  NoDup (map fst (providers this) ++ map fst regs) ->
  Map_values
    (providers (fold_left (fun b r => registerProvider b (fst r) (snd r)) regs this))
  = Map_values (providers this) ++ map snd regs.
Proof.
  induction regs as [|[n p] regs IH]; intros this H; simpl.
  - rewrite app_nil_r. reflexivity.
  - rewrite IH.
    + unfold registerProvider. cbn [providers fst snd].
      rewrite Map_set_fresh.
      * unfold Map_values. rewrite map_app, <- app_assoc. reflexivity.
      * intros Hin. apply NoDup_remove_2 in H. apply H.
        apply in_or_app. left. exact Hin.
    + unfold registerProvider. cbn [providers fst snd].
      rewrite Map_set_fresh.
      * rewrite map_app, <- app_assoc. exact H.
      * intros Hin. apply NoDup_remove_2 in H. apply H.
        apply in_or_app. left. exact Hin.
Qed.

Lemma filter_split {A : Type} (f : A -> bool) (l : list A) : forall l1 p l2,
  filter f l = l1 ++ p :: l2 ->
  exists before after,
    l = before ++ p :: after /\ filter f before = l1 /\ filter f after = l2
    /\ f p = true.
Proof.
  induction l as [|x l IH]; intros l1 p l2 E; simpl in E.
  - destruct l1; discriminate.
  - destruct (f x) eqn:Fx.
    + destruct l1 as [|y l1]; simpl in E; injection E as -> E.
      * exists [], l. simpl. auto.
      * destruct (IH _ _ _ E) as (b & a & -> & <- & <- & Fp).
        exists (y :: b), a. simpl. rewrite Fx. auto.
    + destruct (IH _ _ _ E) as (b & a & -> & <- & <- & Fp).
      exists (x :: b), a. simpl. rewrite Fx. auto.
Qed.

Lemma by_priority_behind a b :
  has_priority a -> has_priority b ->
  goes_behind by_priority a b = (priority a <? priority b)%float.
Proof. intros Ha Hb. apply sub_sign; assumption. Qed.

Lemma by_priority_asym x y :
  has_priority x -> has_priority y ->
  goes_behind by_priority x y = true -> goes_behind by_priority y x = false.
Proof.
  intros Hx Hy. rewrite !by_priority_behind by assumption. apply ltb_asym.
Qed.

Lemma by_priority_trans x y z :
  has_priority x -> has_priority y -> has_priority z ->
  goes_behind by_priority x y = true -> goes_behind by_priority y z = true ->
  goes_behind by_priority x z = true.
Proof.
  intros Hx Hy Hz. rewrite !by_priority_behind by assumption. apply ltb_trans.
Qed.

Lemma by_priority_false_trans x y z :
  has_priority x -> has_priority y -> has_priority z ->
  goes_behind by_priority x y = false -> goes_behind by_priority y z = false ->
  goes_behind by_priority x z = false.
Proof.
  intros Hx Hy Hz. rewrite !by_priority_behind by assumption.
  apply ltb_false_trans; assumption.
Qed.

(** Whatever stable algorithm sorts the active providers, it returns the
    array of the model. *)
Lemma sort_by_priority_unique active sorted :
  Forall has_priority active -> Permutation sorted active ->
  StronglySorted (fun a b => goes_behind by_priority a b = false) sorted ->
  (forall x, has_priority x ->
     filter (compare_equal by_priority x) sorted
     = filter (compare_equal by_priority x) active) ->
  sorted = Array_sort by_priority active.
Proof.
  apply (Array_sort_unique _ by_priority has_priority);
    [exact by_priority_asym | exact by_priority_false_trans].
Qed.

Lemma selectProvider_head (this : AIBrain.AIBrain) request :
  selectProvider this request
  = hd_error (Array_sort by_priority
                (filter (fun p => isActive p) (Map_values (providers this)))).
Proof.
  unfold selectProvider. fold by_priority.
  destruct (Array_sort _ _); reflexivity.
Qed.

Lemma process_run this request w :
  process this request w =
  match selectProvider this request with
  | None =>
      (inr (failure "No suitable AI provider available" (elapsed w)), after_reads w)
  | Some p =>
      match issued_call request with
      | inl e => (inr (failure (error_message e) (elapsed w)), after_reads w)
      | inr c =>
          match perform p c with
          | inl e =>
              (inr (failure (error_message e) (elapsed w)),
               after_call w (AIBrain.name p, c))
          | inr v =>
              (inr {| success := true; data := Some v; error := None;
                      provider := AIBrain.name p; model := "default";
                      responseTime := elapsed w |},
               after_call w (AIBrain.name p, c))
          end
      end
  end.
Proof.
  unfold process, bind, try_catch, Date_now, throw, ret, await_call, prop,
    issued_call, failure, elapsed, after_reads, after_call.
  destruct (selectProvider this request) as [p|]; [|reflexivity].
  destruct (requestType request); cbn [perform]; try reflexivity.
  - destruct (get (input request) "messages"); [reflexivity|].
    destruct (get (input request) "options"); [reflexivity|].
    cbn. destruct (chat p v v0); reflexivity.
  - cbn. destruct (analyze p _ _); reflexivity.
  - cbn. destruct (predict p _); reflexivity.
  - destruct (get (input request) "query"); [reflexivity|].
    cbn. destruct (educate p v); reflexivity.
  - destruct (get (input request) "data"); [reflexivity|].
    destruct (get (input request) "type"); [reflexivity|].
    cbn. destruct (processEmotion p v v0); reflexivity.
Qed.

End AIBrainFacts.

(** * Facts about the clinic search *)

Module MemStorageFacts.
Import JS Binary64Facts SortFacts MemStorage SearchSpec.
Section Location.
Context {rt : Runtime}.
Local Open Scope float_scope.

Lemma by_distance_behind a b :
  has_distance a -> has_distance b ->
  goes_behind by_distance a b = (distance b <? distance a).
Proof. intros Ha Hb. apply sub_sign; assumption. Qed.

Lemma by_distance_asym x y :
  has_distance x -> has_distance y ->
  goes_behind by_distance x y = true -> goes_behind by_distance y x = false.
Proof.
  intros Hx Hy. rewrite !by_distance_behind by assumption. apply ltb_asym.
Qed.

Lemma by_distance_false_trans x y z :
  has_distance x -> has_distance y -> has_distance z ->
  goes_behind by_distance x y = false -> goes_behind by_distance y z = false ->
  goes_behind by_distance x z = false.
Proof.
  intros Hx Hy Hz. rewrite !by_distance_behind by assumption.
  intros H1 H2. apply (ltb_false_trans _ (distance y)); assumption.
Qed.

(** Whatever stable algorithm sorts the results within the radius, it
    returns the array of the model. *)
Lemma sort_by_distance_unique near sorted :
  Forall has_distance near -> Permutation sorted near ->
  StronglySorted (fun a b => goes_behind by_distance a b = false) sorted ->
  (forall x, has_distance x ->
     filter (compare_equal by_distance x) sorted
     = filter (compare_equal by_distance x) near) ->
  sorted = Array_sort by_distance near.
Proof.
  apply (Array_sort_unique _ by_distance has_distance);
    [exact by_distance_asym | exact by_distance_false_trans].
Qed.

Lemma getClinicsByLocation_eq this lat lon radius :
  getClinicsByLocation this lat lon radius
  = Array_sort by_distance
      (filter (fun r => distance r <=? radius)
         (map (locate lat lon) (getClinics this))).
Proof. reflexivity. Qed.

Lemma within_radius_has_distance lat lon radius (cs : list Clinic) :
  Forall has_distance
    (filter (fun r => distance r <=? radius) (map (locate lat lon) cs)).
Proof.
  apply Forall_forall. intros r Hr. apply filter_In in Hr. destruct Hr as [_ Hr].
  apply leb_not_nan in Hr. apply Hr.
Qed.

Lemma filter_twice {A : Type} (f g : A -> bool) (l : list A) :
  filter f (filter g l) = filter (fun x => f x && g x) l.
Proof.
  induction l as [|x l IH]; [reflexivity|]. cbn [filter].
  destruct (g x); cbn [filter]; rewrite IH, ?andb_true_r, ?andb_false_r;
    reflexivity.
Qed.

Lemma filter_map_locate (f : float -> bool) lat lon (cs : list Clinic) :
  map clinic (filter (fun r => f (distance r)) (map (locate lat lon) cs))
  = filter (fun c => f (distance_from lat lon c)) cs.
Proof.
  induction cs as [|c cs IH]; [reflexivity|].
  cbn [map filter]. cbn [locate distance].
  destruct (f (distance_from lat lon c)); cbn [map]; rewrite IH; reflexivity.
Qed.

(** The results are the located clinics of the store that pass the filter. *)
Lemma getClinicsByLocation_In this lat lon radius r :
  In r (getClinicsByLocation this lat lon radius) <->
  (exists c, In c (getClinics this) /\ r = locate lat lon c)
  /\ (distance r <=? radius) = true.
Proof.
  rewrite getClinicsByLocation_eq, Array_sort_In, filter_In, in_map_iff.
  split; intros [(c & H1 & H2) Hd]; (split; [exists c|exact Hd]); auto.
Qed.

Lemma calculateDistance_eq lat1 lon1 lat2 lon2 :
  calculateDistance lat1 lon1 lat2 lon2
  = 3959 * (2 * Math_atan2 (sqrt (haversine lat1 lon1 lat2 lon2))
                  (sqrt (1 - haversine lat1 lon1 lat2 lon2))).
Proof. reflexivity. Qed.

(** The square of the sine of half an angle difference does not depend on
    the order of the two angles. *)
Lemma sin_half_swap (x y : float) :
  (forall t, Math_sin (- t) = - Math_sin t) ->
  Math_sin ((y - x) * Math_PI / 180 / 2) = - Math_sin ((x - y) * Math_PI / 180 / 2)
  \/ Math_sin ((y - x) * Math_PI / 180 / 2) = Math_sin ((x - y) * Math_PI / 180 / 2).
Proof.
  intros Hodd. destruct (sub_swap x y) as [E|[E1 E2]].
  - left. rewrite E, mul_opp_l, !div_opp_l. apply Hodd.
  - right. rewrite E1, E2. reflexivity.
Qed.

Lemma haversine_sym lat1 lon1 lat2 lon2 :
  (forall t, Math_sin (- t) = - Math_sin t) ->
  haversine lat1 lon1 lat2 lon2 = haversine lat2 lon2 lat1 lon1.
Proof.
  intros Hodd. unfold haversine.
  rewrite (mul_comm (Math_cos (lat1 * Math_PI / 180))).
  set (cc := Math_cos (lat2 * Math_PI / 180) * Math_cos (lat1 * Math_PI / 180)).
  destruct (sin_half_swap lat1 lat2 Hodd) as [-> | ->];
    destruct (sin_half_swap lon1 lon2 Hodd) as [-> | ->];
    rewrite ?mul_opp_opp, ?mul_opp_r, ?mul_opp_l, ?opp_involutive; reflexivity.
Qed.

Lemma haversine_same lat lon :
  Math_sin 0 = 0 ->
  (abs (Math_cos (lat * Math_PI / 180)) <=? 1) = true ->
  is_finite lat = true -> is_finite lon = true ->
  haversine lat lon lat lon = 0.
Proof.
  intros H0 Hc Flat Flon. unfold haversine.
  rewrite !sub_diag by assumption.
  change (0 * Math_PI / 180 / 2) with 0. rewrite H0.
  rewrite (mul_zero_r_nonneg _ (square_le_1 _ Hc)). reflexivity.
Qed.

Lemma haversine_nan lat lon lat2 lon2 :
  Math_sin nan = nan ->
  is_nan lat2 = true \/ is_nan lon2 = true ->
  haversine lat lon lat2 lon2 = nan.
Proof.
  intros Hs [H|H]; apply is_nan_eq in H; subst; unfold haversine.
  - rewrite sub_nan_l, mul_nan_l, !div_nan_l, Hs, mul_nan_l. apply add_nan_l.
  - rewrite sub_nan_l, mul_nan_l, !div_nan_l, Hs, !mul_nan_r. apply add_nan_r.
Qed.

End Location.

End MemStorageFacts.

(** * Facts about maps *)

Module MapFacts.
Import JS JSMore.

Section Maps.
Context {V : Type}.
Implicit Types (m : list (string * V)) (k : string) (v : V).

Lemma Map_get_set_same m k v : Map_get (Map_set m k v) k = Some v.
Proof.
  induction m as [|[k' v'] m IH]; simpl.
  - rewrite String.eqb_refl. reflexivity.
  - destruct (String.eqb_spec k' k) as [->|N]; simpl.
    + rewrite String.eqb_refl. reflexivity.
    + destruct (String.eqb_spec k' k); [contradiction|exact IH].
Qed.

Lemma Map_get_set_other m k v k' :
  k' <> k -> Map_get (Map_set m k v) k' = Map_get m k'.
Proof.
  intros N. induction m as [|[k0 v0] m IH]; simpl.
  - destruct (String.eqb_spec k k'); [congruence|reflexivity].
  - destruct (String.eqb_spec k0 k) as [->|N0]; simpl.
    + destruct (String.eqb_spec k k'); [congruence|reflexivity].
    + destruct (String.eqb_spec k0 k'); [reflexivity|exact IH].
Qed.

Lemma Map_get_In m k v : Map_get m k = Some v -> In (k, v) m.
Proof.
  induction m as [|[k' v'] m IH]; simpl; [discriminate|].
  destruct (String.eqb_spec k' k) as [->|N]; intros H.
  - injection H as ->. left. reflexivity.
  - right. apply IH. exact H.
Qed.

Lemma Map_get_None m k : Map_get m k = None <-> ~ In k (map fst m).
Proof.
  induction m as [|[k' v'] m IH]; simpl; [tauto|].
  destruct (String.eqb_spec k' k) as [->|N].
  - split; [discriminate|]. intros H. exfalso. apply H. left. reflexivity.
  - rewrite IH. tauto.
Qed.

Lemma In_Map_get m k v : Map_ok m -> In (k, v) m -> Map_get m k = Some v.
Proof.
  unfold Map_ok. induction m as [|[k' v'] m IH]; simpl; intros Hok H; [contradiction|].
  inversion Hok as [|? ? Hn Hok']; subst.
  destruct H as [H|H].
  - injection H as -> ->. rewrite String.eqb_refl. reflexivity.
  - destruct (String.eqb_spec k' k) as [->|N]; [|apply IH; assumption].
    exfalso. apply Hn. apply (in_map fst) in H. exact H.
Qed.

(** [set] with a key of the map changes the value in place. *)
Lemma Map_set_present m k v old :
  Map_get m k = Some old ->
  exists before after,
    m = before ++ (k, old) :: after
    /\ Map_set m k v = before ++ (k, v) :: after
    /\ ~ In k (map fst before).
Proof.
  induction m as [|[k' v'] m IH]; simpl; [discriminate|].
  destruct (String.eqb_spec k' k) as [->|N]; intros H.
  - injection H as ->. exists [], m. simpl. auto.
  - destruct (IH H) as (b & a & -> & E & Hb).
    exists ((k', v') :: b), a. simpl. rewrite E. repeat split.
    intros [Hk|Hk]; [congruence|contradiction].
Qed.

Lemma Map_set_keys m k v :
  map fst (Map_set m k v)
  = if Map_has m k then map fst m else map fst m ++ [k].
Proof.
  unfold Map_has. induction m as [|[k' v'] m IH]; simpl; [reflexivity|].
  destruct (String.eqb_spec k' k) as [->|N]; simpl; [reflexivity|].
  rewrite IH. destruct (Map_get m k); reflexivity.
Qed.

Lemma Map_set_ok m k v : Map_ok m -> Map_ok (Map_set m k v).
Proof.
  unfold Map_ok. rewrite Map_set_keys. unfold Map_has.
  destruct (Map_get m k) eqn:G; [auto|].
  intros H. apply Map_get_None in G.
  apply NoDup_app; [exact H|repeat constructor; intros []|].
  intros x Hx [<-|[]]. contradiction.
Qed.

Lemma Map_delete_get m k : Map_get (snd (Map_delete m k)) k = None.
Proof.
  apply Map_get_None. unfold Map_delete. cbn [snd]. intros H.
  apply in_map_iff in H. destruct H as ([k' v'] & E & H). simpl in E. subst k'.
  apply filter_In in H. destruct H as [_ H]. simpl in H.
  rewrite String.eqb_refl in H. discriminate.
Qed.

Lemma Map_delete_get_other m k k' :
  k' <> k -> Map_get (snd (Map_delete m k)) k' = Map_get m k'.
Proof.
  intros N. unfold Map_delete. cbn [snd].
  induction m as [|[k0 v0] m IH]; simpl; [reflexivity|].
  destruct (String.eqb_spec k0 k) as [->|N0]; simpl.
  - destruct (String.eqb_spec k k'); [congruence|exact IH].
  - destruct (String.eqb_spec k0 k'); [reflexivity|exact IH].
Qed.

Lemma Map_delete_absent m k : Map_has m k = false -> snd (Map_delete m k) = m.
Proof.
  unfold Map_has, Map_delete. cbn [snd].
  destruct (Map_get m k) eqn:G; [discriminate|]. intros _.
  apply Map_get_None in G.
  induction m as [|[k0 v0] m IH]; simpl; [reflexivity|].
  destruct (String.eqb_spec k0 k) as [->|N0]; simpl.
  - exfalso. apply G. left. reflexivity.
  - f_equal. apply IH. intros H. apply G. right. exact H.
Qed.

Lemma Map_delete_ok m k : Map_ok m -> Map_ok (snd (Map_delete m k)).
Proof.
  unfold Map_ok, Map_delete. cbn [snd].
  induction m as [|[k0 v0] m IH]; simpl; intros H; [exact H|].
  inversion H as [|? ? Hn H']; subst.
  destruct (String.eqb k0 k); simpl; [auto|].
  constructor; [|auto]. intros Hin. apply Hn.
  apply in_map_iff in Hin. destruct Hin as (e & E & Hin).
  apply filter_In in Hin. apply in_map_iff. exists e. tauto.
Qed.

End Maps.

End MapFacts.

(** * More facts about sorting *)

Module SortMore.
Import JS Binary64Facts SortFacts.

Section Order.
Variables (A : Type) (comparefn : A -> A -> float).
Variable ok : A -> Prop.

Local Abbreviation gb := (goes_behind comparefn).
Local Abbreviation sort := (Array_sort comparefn).
Local Abbreviation ins := (sort_insert comparefn).
Local Abbreviation in_order := (fun a b => gb a b = false).

Hypothesis gb_asym : forall x y, ok x -> ok y -> gb x y = true -> gb y x = false.
Hypothesis gb_trans :
  forall x y z, ok x -> ok y -> ok z -> gb x y = true -> gb y z = true -> gb x z = true.
Hypothesis gb_false_trans :
  forall x y z, ok x -> ok y -> ok z -> gb x y = false -> gb y z = false -> gb x z = false.

Lemma sort_insert_front x l :
  (forall z, In z l -> gb x z = false) -> ins x l = x :: l.
Proof.
  destruct l as [|y l]; intros H; simpl; [reflexivity|].
  rewrite (H y) by (left; reflexivity). reflexivity.
Qed.

(** Filtering a sorted array and inserting, or inserting and filtering. *)
Lemma sort_insert_filter_comm (p : A -> bool) x l :
  ok x -> Forall ok l -> StronglySorted in_order l ->
  filter p (ins x l) = if p x then ins x (filter p l) else filter p l.
Proof.
  intros Hx. induction l as [|y l IH]; intros Hok Hs.
  - simpl. destruct (p x); reflexivity.
  - inversion Hok as [|? ? Hy Hl]; subst. inversion Hs as [|? ? Hs' Hall]; subst.
    simpl ins. destruct (gb x y) eqn:G.
    + cbn [filter]. rewrite (IH Hl Hs').
      destruct (p x), (p y); try reflexivity.
      simpl ins. rewrite G. reflexivity.
    + assert (Hfront : forall z, In z (filter p (y :: l)) -> gb x z = false).
      { intros z Hz. apply filter_In in Hz. destruct Hz as [[<-|Hz] _]; [exact G|].
        rewrite Forall_forall in Hall, Hl.
        apply (gb_false_trans x y z); auto. }
      cbn [filter] in *. destruct (p x); [|reflexivity].
      rewrite sort_insert_front by exact Hfront. reflexivity.
Qed.

(** Sorting commutes with filtering. *)
Lemma Array_sort_filter_comm (p : A -> bool) l :
  Forall ok l -> filter p (sort l) = sort (filter p l).
Proof.
  induction l as [|x l IH]; intros Hok; [reflexivity|].
  inversion Hok as [|? ? Hx Hl]; subst. simpl sort.
  rewrite sort_insert_filter_comm.
  - rewrite (IH Hl). cbn [filter]. destruct (p x); reflexivity.
  - exact Hx.
  - apply Array_sort_Forall. exact Hl.
  - apply (Array_sort_sorted _ comparefn ok); assumption.
Qed.

Lemma hd_sort_insert x l :
  hd_error (ins x l)
  = match hd_error l with
    | None => Some x
    | Some y => if gb x y then Some y else Some x
    end.
Proof. destruct l as [|y l]; simpl; [reflexivity|]. destruct (gb x y); reflexivity. Qed.

Lemma hd_sort_In l p : hd_error (sort l) = Some p -> In p l.
Proof.
  intros H. apply (Array_sort_In _ comparefn). destruct (sort l); [discriminate|].
  injection H as ->. left. reflexivity.
Qed.

(** The first element after one more element is put at the end of the
    array: the new element if the old first one goes behind it, else the old
    first one. *)
Lemma hd_sort_app_last l p :
  Forall ok l -> ok p ->
  hd_error (sort (l ++ [p]))
  = match hd_error (sort l) with
    | None => Some p
    | Some q => if gb q p then Some p else Some q
    end.
Proof.
  intros Hok Hp. induction l as [|x l IH]; [reflexivity|].
  inversion Hok as [|? ? Hx Hl]; subst.
  cbn [app]. simpl sort. rewrite !hd_sort_insert, (IH Hl).
  destruct (hd_error (sort l)) as [q|] eqn:Hq.
  - assert (Oq : ok q).
    { rewrite Forall_forall in Hl. apply Hl. apply hd_sort_In. exact Hq. }
    destruct (gb q p) eqn:Gqp, (gb x q) eqn:Gxq; rewrite ?Gqp; try reflexivity.
    + rewrite (gb_trans x q p); auto.
    + rewrite (gb_false_trans x q p); auto.
  - reflexivity.
Qed.

End Order.

(** ** Sorting by a number, the larger first *)

Section Descending.
Variables (A : Type) (key : A -> float).

Local Abbreviation desc := (fun a b : A => (key b - key a)%float).
Local Abbreviation numeric := (fun a : A => is_nan (key a) = false).

Lemma desc_behind a b :
  numeric a -> numeric b -> goes_behind desc a b = (key a <? key b)%float.
Proof. intros Ha Hb. apply sub_sign; assumption. Qed.

Lemma desc_asym x y :
  numeric x -> numeric y ->
  goes_behind desc x y = true -> goes_behind desc y x = false.
Proof. intros Hx Hy. rewrite !desc_behind by assumption. apply ltb_asym. Qed.

Lemma desc_trans x y z :
  numeric x -> numeric y -> numeric z ->
  goes_behind desc x y = true -> goes_behind desc y z = true ->
  goes_behind desc x z = true.
Proof. intros Hx Hy Hz. rewrite !desc_behind by assumption. apply ltb_trans. Qed.

Lemma desc_false_trans x y z :
  numeric x -> numeric y -> numeric z ->
  goes_behind desc x y = false -> goes_behind desc y z = false ->
  goes_behind desc x z = false.
Proof.
  intros Hx Hy Hz. rewrite !desc_behind by assumption.
  apply ltb_false_trans; assumption.
Qed.

Lemma desc_sorted l :
  Forall numeric l ->
  StronglySorted (fun a b => (key b <=? key a)%float = true) (Array_sort desc l).
Proof.
  intros Hok.
  assert (Hs := Array_sort_sorted _ desc numeric desc_asym desc_false_trans l Hok).
  assert (Hok' := Array_sort_Forall _ desc numeric l Hok).
  induction Hs as [|a s Hs IH Hall]; constructor.
  - apply IH. inversion Hok'; assumption.
  - inversion Hok' as [|? ? Ha Hl]; subst.
    rewrite Forall_forall in *. intros b Hb.
    apply ltb_false_leb; [exact (Hl b Hb)|exact Ha|].
    rewrite <- desc_behind by auto. apply Hall. exact Hb.
Qed.

Lemma desc_stable l d :
  Forall numeric l ->
  filter (fun a => (key a =? d)%float) (Array_sort desc l)
  = filter (fun a => (key a =? d)%float) l.
Proof.
  intros Hok. apply Array_sort_filter. rewrite Forall_forall in Hok.
  intros x y Hx Hy. rewrite desc_behind by auto.
  intros H Cx Cy. exact (ltb_eqb_class _ _ _ H Cy Cx).
Qed.

Lemma desc_filter_comm (p : A -> bool) l :
  Forall numeric l ->
  filter p (Array_sort desc l) = Array_sort desc (filter p l).
Proof.
  apply (Array_sort_filter_comm _ desc numeric desc_asym desc_false_trans).
Qed.

End Descending.

End SortMore.

(** * Facts about the tables of the store *)

Module StoreFacts.
Import JS JSMore MapFacts StoreSpec Binary64Facts SortFacts SortMore.

Lemma Map_values_set_fresh {V : Type} (m : list (string * V)) k v :
  ~ In k (map fst m) -> Map_values (Map_set m k v) = Map_values m ++ [v].
Proof.
  intros H. rewrite AIBrainFacts.Map_set_fresh by exact H.
  unfold Map_values. rewrite map_app. reflexivity.
Qed.

Lemma In_Map_values_get {V : Type} (m : list (string * V)) v :
  Map_ok m -> In v (Map_values m) -> exists k, Map_get m k = Some v.
Proof.
  intros Hok H. apply in_map_iff in H. destruct H as ([k v'] & E & H).
  simpl in E. subst v'. exists k. apply In_Map_get; assumption.
Qed.

Lemma Map_get_values {V : Type} (m : list (string * V)) k v :
  Map_get m k = Some v -> In v (Map_values m).
Proof.
  intros H. apply Map_get_In in H. apply in_map_iff. exists (k, v). auto.
Qed.

(** The values of a map after [set]: the new value, and the values that
    were stored under the other keys. *)
Lemma In_Map_values_set {V : Type} (m : list (string * V)) k v x :
  Map_ok m -> In x (Map_values (Map_set m k v)) ->
  x = v \/ exists k', k' <> k /\ Map_get m k' = Some x.
Proof.
  intros Hok H.
  destruct (In_Map_values_get _ _ (Map_set_ok _ _ _ Hok) H) as (k' & G).
  destruct (String.eqb_spec k' k) as [->|N].
  - rewrite Map_get_set_same in G. injection G as <-. left. reflexivity.
  - rewrite Map_get_set_other in G by exact N. right. exists k'. auto.
Qed.

(** The values of a map after [delete], when the entries are stored under
    their identifiers. *)
Lemma Map_values_delete {V : Type} (id_of : V -> string) (m : list (string * V)) k :
  keyed_by id_of m ->
  Map_values (snd (Map_delete m k))
  = filter (fun v => negb (String.eqb (id_of v) k)) (Map_values m).
Proof.
  unfold Map_delete, Map_values. cbn [snd].
  induction m as [|[k0 v0] m IH]; intros Hk; [reflexivity|].
  assert (E : id_of v0 = k0) by (apply Hk; left; reflexivity).
  assert (Hk' : keyed_by id_of m) by (intros k' v' H; apply Hk; right; exact H).
  cbn [filter map fst snd]. rewrite E.
  destruct (String.eqb k0 k); cbn [negb map snd]; rewrite (IH Hk'); reflexivity.
Qed.

Lemma filter_comm {A : Type} (f g : A -> bool) (l : list A) :
  filter f (filter g l) = filter g (filter f l).
Proof.
  rewrite !MemStorageFacts.filter_twice. apply filter_ext.
  intros a. apply andb_comm.
Qed.

Lemma same_user_eq stored u :
  HealthLogs.same_user stored u = true <-> stored = Some u.
Proof.
  destruct stored as [s|]; simpl; [|split; discriminate].
  destruct (String.eqb_spec s u) as [->|N]; split; congruence.
Qed.

Lemma logs_of_dated healthLogs u :
  dated_logs healthLogs u -> Forall dated (logs_of healthLogs u).
Proof.
  intros H. apply Forall_forall. intros log Hin.
  apply filter_In in Hin. destruct Hin as [Hin Hu].
  apply H; [exact Hin|]. apply same_user_eq. exact Hu.
Qed.

Lemma getHealthLogs_eq healthLogs u :
  HealthLogs.getHealthLogs healthLogs u
  = Array_sort (fun a b => (HealthLogs.date b - HealthLogs.date a)%float)
      (logs_of healthLogs u).
Proof. reflexivity. Qed.

Lemma getHealthLogs_In healthLogs u log :
  In log (HealthLogs.getHealthLogs healthLogs u)
  <-> In log (Map_values healthLogs) /\ HealthLogs.userId log = Some u.
Proof.
  rewrite getHealthLogs_eq, Array_sort_In. unfold logs_of.
  rewrite filter_In, same_user_eq. reflexivity.
Qed.

Lemma ltb_irrefl x : (x <? x)%float = false.
Proof.
  destruct (x <? x)%float eqn:E; [|reflexivity].
  rewrite (ltb_asym _ _ E) in E. discriminate.
Qed.

End StoreFacts.

(** * More facts about the dispatcher *)

Module BrainFacts.
Import JS JSMore MapFacts Binary64Facts SortFacts SortMore.
Import AIBrain Spec AIBrainFacts BrainSpec.

Lemma selectProvider_any this r1 r2 :
  selectProvider this r1 = selectProvider this r2.
Proof. reflexivity. Qed.

Lemma selectProvider_In this request p :
  selectProvider this request = Some p ->
  In p (Map_values (providers this)) /\ isActive p = true.
Proof.
  rewrite selectProvider_head. intros H. apply hd_sort_In in H.
  apply filter_In in H. exact H.
Qed.

Lemma process_dispatched this request w p c :
  selectProvider this request = Some p ->
  issued_call request = inr c ->
  process this request w = dispatched p c w.
Proof.
  intros Hs Hc. rewrite process_run, Hs, Hc. unfold dispatched, answered.
  destruct (perform p c); reflexivity.
Qed.

Lemma process_not_dispatched this request w p e :
  selectProvider this request = Some p ->
  issued_call request = inl e ->
  process this request w
  = (inr (failure (error_message e) (elapsed w)), after_reads w).
Proof. intros Hs Hc. rewrite process_run, Hs, Hc. reflexivity. Qed.

Lemma active_has_priority this :
  priorities_ok this ->
  Forall has_priority (filter (fun p => isActive p) (Map_values (providers this))).
Proof.
  intros H. apply Forall_forall. intros p Hp. apply filter_In in Hp.
  destruct Hp. apply H; assumption.
Qed.

End BrainFacts.

(** * Facts about the services and the routes *)

Module ServiceFacts.
Import JS JSMore Binary64Facts StringFacts MapFacts StoreFacts.
Import AIService ServiceSpec.
Local Open Scope float_scope.

Lemma ltb_leb x y : (x <? y) = true -> (x <=? y) = true.
Proof.
  intros H. destruct (ltb_not_nan _ _ H) as [Hx Hy].
  apply ltb_false_leb; [exact Hx|exact Hy|]. apply ltb_asym. exact H.
Qed.

(** [Math.max(0, Math.min(100, z))] of a number. *)
Lemma clamp_percentage z :
  is_nan z = false -> percentage (Math_max 0 (Math_min 100 z)).
Proof.
  intros Hz. unfold Math_min. rewrite Hz. cbn [is_nan orb].
  change (is_nan 100) with false. cbn [orb].
  assert (Hm : exists m, (if 100 <? z then 100
                          else if z <? 100 then z
                          else if get_sign 100 then 100 else z) = m
                         /\ is_nan m = false /\ (m <=? 100) = true).
  { destruct (100 <? z) eqn:E1.
    - exists 100. repeat split.
    - exists z. split.
      + destruct (z <? 100); reflexivity.
      + split; [exact Hz|]. apply ltb_false_leb; [exact Hz|reflexivity|exact E1]. }
  destruct Hm as (m & -> & Hm & Hle).
  unfold Math_max. rewrite Hm. change (is_nan 0) with false. cbn [orb].
  destruct (0 <? m) eqn:E2.
  - split; [apply ltb_leb; exact E2|exact Hle].
  - change (get_sign 0) with false.
    destruct (m <? 0); split; reflexivity.
Qed.

Lemma clamp_nan z : is_nan z = true -> Math_max 0 (Math_min 100 z) = nan.
Proof.
  intros Hz. unfold Math_min. rewrite Hz, orb_true_r. reflexivity.
Qed.

Lemma clamp_filled z :
  is_nan (Math_max 0 (Math_min 100 z)) = true
  \/ percentage (Math_max 0 (Math_min 100 z)).
Proof.
  destruct (is_nan z) eqn:Hz.
  - left. rewrite clamp_nan by exact Hz. reflexivity.
  - right. apply clamp_percentage. exact Hz.
Qed.

(** The number a plain value converts to is not [NaN] once [|| 0] has
    replaced the falsy ones. *)
Lemma plain_number {cv : Conversions} (c : value) :
  plain c = true -> is_nan (ToNumber (or_else c (Num 0))) = false.
Proof.
  unfold or_else. destruct c as [| |b|x|s|fs|es]; cbn; try reflexivity;
    try discriminate.
  - destruct b; reflexivity.
  - intros _. destruct (x =? 0) eqn:E0; cbn; [reflexivity|].
    destruct (is_nan x) eqn:En; cbn; [reflexivity|exact En].
  - intros H. rewrite H. reflexivity.
Qed.

Lemma or_else_truthy a b : truthy b = true -> truthy (or_else a b) = true.
Proof. intros H. unfold or_else. destruct (truthy a) eqn:E; [exact E|exact H]. Qed.


Lemma includes_empty s : includes s "" = true.
Proof. rewrite includes_unfold. destruct s; reflexivity. Qed.

Lemma delete_health_log_eq healthLogs id_ :
  LogRoutes.delete_health_log healthLogs id_
  = (if Map_has healthLogs id_
     then LogRoutes.NoContent 204
     else LogRoutes.Error 404 "Health log not found",
     snd (Map_delete healthLogs id_)).
Proof.
  unfold LogRoutes.delete_health_log, HealthLogs.deleteHealthLog, Map_delete.
  destruct (Map_has healthLogs id_); reflexivity.
Qed.

Lemma toLowerCase_empty : toLowerCase "" = ""%string.
Proof. reflexivity. Qed.

End ServiceFacts.

(** * More facts about the clinic search *)

Module SearchFacts.
Import JS JSMore StringFacts ServiceFacts MemStorage Routes.

Lemma filter_all {A : Type} (f : A -> bool) (l : list A) :
  (forall x, In x l -> f x = true) -> filter f l = l.
Proof.
  induction l as [|x l IH]; intros H; [reflexivity|]. cbn [filter].
  rewrite (H x) by (left; reflexivity). rewrite IH; [reflexivity|].
  intros y Hy. apply H. right. exact Hy.
Qed.

Lemma filter_at_distance_0 (f : Clinic -> bool) (cs : list Clinic) :
  filter (fun result => f (clinic result)) (at_distance_0 cs)
  = at_distance_0 (filter f cs).
Proof.
  unfold at_distance_0. induction cs as [|c cs IH]; [reflexivity|].
  cbn [map filter clinic]. destruct (f c); cbn [map]; rewrite IH; reflexivity.
Qed.

(** A search for the empty text is a search by type alone. *)
Lemma searchClinics_empty_query this type_ :
  searchClinics this "" type_
  = filter (fun c => negb (truthy_string type_)
                     || match type_ with
                        | Some t => String.eqb (type c) t
                        | None => false
                        end)
      (getClinics this).
Proof.
  unfold searchClinics, getClinics. apply filter_ext. intros c.
  rewrite toLowerCase_empty, includes_empty. reflexivity.
Qed.

Lemma searchClinics_type this query_ t c :
  t <> "" -> In c (searchClinics this query_ (Some t)) -> type c = t.
Proof.
  intros N H. apply filter_In in H. destruct H as [_ H].
  apply andb_true_iff in H. destruct H as [_ H].
  cbn [truthy_string] in H. destruct (String.eqb_spec t ""); [contradiction|].
  cbn [negb orb] in H. apply String.eqb_eq. exact H.
Qed.

Lemma falsy_string_text (s : option string) :
  truthy_string s = false -> from_option s "" = "".
Proof.
  destruct s as [s|]; [|reflexivity]. cbn.
  destruct (String.eqb_spec s ""); [auto|discriminate].
Qed.

End SearchFacts.

(** * The properties of the specification *)

Import JS Binary64Facts SortFacts StringFacts.
Import AIBrain Spec AIBrainFacts.
Import MemStorage Routes SearchSpec MemStorageFacts.
Import Samples.

(** ** Provider selection and dispatch *)

(** C1. Among the registered providers whose [isActive] is set (their
    priorities being numbers), [selectProvider] returns [null] exactly when
    there is none, and otherwise the provider [p] such that every active
    provider registered before [p] has a strictly lower priority and every
    active provider registered after [p] has a priority that is not higher:
    the highest priority wins, the first registered wins a tie, and an
    inactive provider is never returned whatever its priority. *)
Theorem selectProvider_highest_priority (this : AIBrain.AIBrain) request :
  (forall p, In p (Map_values (providers this)) -> isActive p = true ->
             is_nan (priority p) = false) ->
  (selectProvider this request = None <->
   forall p, In p (Map_values (providers this)) -> isActive p = false)
  /\ (forall p, selectProvider this request = Some p ->
      exists before after,
        Map_values (providers this) = before ++ p :: after
        /\ isActive p = true
        /\ (forall q, In q before -> isActive q = true ->
                      (priority q <? priority p)%float = true)
        /\ (forall q, In q after -> isActive q = true ->
                      (priority q <=? priority p)%float = true)).
Proof.
  intros Hnum. rewrite selectProvider_head.
  set (values := Map_values (providers this)) in *.
  set (active := filter (fun p => isActive p) values).
  assert (Hok : Forall has_priority active).
  { apply Forall_forall. intros p Hp. apply filter_In in Hp. destruct Hp.
    apply Hnum; assumption. }
  split.
  - split.
    + intros E p Hp. apply not_true_is_false. intros Ha.
      assert (Hs : Array_sort by_priority active = []).
      { destruct (Array_sort by_priority active); [reflexivity|discriminate]. }
      apply Array_sort_nil in Hs.
      assert (Hin : In p active) by (apply filter_In; auto).
      rewrite Hs in Hin. exact Hin.
    + intros Hall.
      assert (Hs : active = []).
      { destruct active as [|p l] eqn:E; [reflexivity|].
        assert (Hin : In p (filter (fun p => isActive p) values)).
        { fold active. rewrite E. left. reflexivity. }
        apply filter_In in Hin. destruct Hin as [Hin Ha].
        rewrite (Hall p Hin) in Ha. discriminate. }
      rewrite Hs. reflexivity.
  - intros p E.
    destruct (Array_sort by_priority active) as [|p' rest] eqn:S; [discriminate|].
    injection E as ->.
    destruct (Array_sort_head _ by_priority has_priority by_priority_trans
                by_priority_false_trans active p rest Hok S)
      as (l1 & l2 & El & H1 & H2).
    destruct (filter_split _ _ _ _ _ El) as (b & a & Ev & <- & <- & Ap).
    exists b, a. split; [exact Ev|]. split; [exact Ap|].
    assert (Hp : has_priority p).
    { apply Hnum; [|exact Ap]. rewrite Ev. apply in_elt. }
    split; intros q Hq Aq.
    * assert (Hq' : has_priority q).
      { apply Hnum; [|exact Aq]. rewrite Ev. apply in_or_app. left. exact Hq. }
      rewrite <- by_priority_behind by assumption.
      apply H1. apply filter_In. auto.
    * assert (Hq' : has_priority q).
      { apply Hnum; [|exact Aq]. rewrite Ev. apply in_or_app. right. right. exact Hq. }
      apply ltb_false_leb; try assumption.
      rewrite <- by_priority_behind by assumption.
      apply H2. apply filter_In. auto.
Qed.

Lemma selectProvider_highest_priority_witness :
  (forall p, In p (Map_values (providers brain_ab)) -> isActive p = true ->
             is_nan (priority p) = false)
  /\ selectProvider brain_ab (symptoms_request None) = Some provider_a
  /\ exists before after,
       Map_values (providers brain_ab) = before ++ provider_a :: after
       /\ isActive provider_a = true
       /\ (forall q, In q before -> isActive q = true ->
                     (priority q <? priority provider_a)%float = true)
       /\ (forall q, In q after -> isActive q = true ->
                     (priority q <=? priority provider_a)%float = true).
Proof.
  assert (H : forall p, In p (Map_values (providers brain_ab)) ->
                        isActive p = true -> is_nan (priority p) = false).
  { intros p [<-|[<-|[]]] _; reflexivity. }
  split; [exact H|]. split; [reflexivity|].
  apply (proj2 (selectProvider_highest_priority brain_ab (symptoms_request None) H)).
  reflexivity.
Defined.

(** C2, as the code has it.  When no registered provider is active,
    [process] neither throws nor rejects: for every request it resolves to
    the failure envelope, with [success = false], the provider and the model
    [unknown], and the error message [No suitable AI provider available];
    no provider is called. *)
Theorem process_without_active_provider (this : AIBrain.AIBrain) request w :
  (forall p, In p (Map_values (providers this)) -> isActive p = false) ->
  process this request w
  = (inr (failure "No suitable AI provider available" (elapsed w)),
     after_reads w).
Proof.
  intros H. rewrite process_run.
  replace (selectProvider this request) with (@None IAIProvider); [reflexivity|].
  symmetry. unfold selectProvider.
  replace (filter (fun p => isActive p) (Map_values (providers this)))
    with (@nil IAIProvider); [reflexivity|].
  symmetry. induction (Map_values (providers this)) as [|p l IH]; [reflexivity|].
  simpl. rewrite (H p) by (left; reflexivity).
  apply IH. intros q Hq. apply H. right. exact Hq.
Qed.

Lemma process_without_active_provider_witness :
  (forall p, In p (Map_values (providers brain_inactive)) -> isActive p = false)
  /\ process brain_inactive (symptoms_request None) world0
     = (inr (failure "No suitable AI provider available" 25), after_reads world0).
Proof.
  assert (H : forall p, In p (Map_values (providers brain_inactive)) ->
                        isActive p = false).
  { intros p [<-|[]]. reflexivity. }
  split; [exact H|].
  exact (process_without_active_provider brain_inactive (symptoms_request None) world0 H).
Defined.

(** C2 as stated fails: with no active provider the error of the envelope
    is the message of the thrown [Error], not the text [NoProviderAvailable]. *)
Lemma process_error_is_not_NoProviderAvailable :
  (forall p, In p (Map_values (providers brain_inactive)) -> isActive p = false)
  /\ exists r w',
       process brain_inactive (symptoms_request None) world0 = (inr r, w')
       /\ success r = false
       /\ error r = Some "No suitable AI provider available"
       /\ error r <> Some "NoProviderAvailable".
Proof.
  split.
  - intros p [<-|[]]. reflexivity.
  - eexists. eexists. split; [reflexivity|]. cbn.
    repeat split. discriminate.
Qed.

(** C8. When the call [process] issues to the selected provider rejects,
    [process] resolves to the failure envelope with the captured message
    ([error.message] for an [Error]), and the calls it made are exactly that
    one call to that one provider: no other provider, no second attempt. *)
Theorem process_single_attempt (this : AIBrain.AIBrain) request w p c e :
  selectProvider this request = Some p ->
  issued_call request = inr c ->
  perform p c = inl e ->
  process this request w
  = (inr (failure (error_message e) (elapsed w)), after_call w (AIBrain.name p, c))
  /\ calls (snd (process this request w)) = calls w ++ [(AIBrain.name p, c)]
  /\ (forall message, e = ErrorObj message ->
        error (failure (error_message e) (elapsed w)) = Some message).
Proof.
  intros Hs Hc He. rewrite process_run, Hs, Hc, He.
  repeat split. intros message ->. reflexivity.
Qed.

Lemma process_single_attempt_witness :
  selectProvider brain_failing (symptoms_request None) = Some failing_provider
  /\ issued_call (symptoms_request None)
     = inr (call_analyze (Obj [("symptoms", Str "headache")]) "symptoms")
  /\ perform failing_provider
       (call_analyze (Obj [("symptoms", Str "headache")]) "symptoms")
     = inl (ErrorObj "upstream timeout")
  /\ process brain_failing (symptoms_request None) world0
     = (inr (failure "upstream timeout" 25),
        after_call world0
          ("down", call_analyze (Obj [("symptoms", Str "headache")]) "symptoms")).
Proof.
  split; [reflexivity|]. split; [reflexivity|]. split; [reflexivity|].
  exact (proj1 (process_single_attempt brain_failing (symptoms_request None) world0
                  failing_provider
                  (call_analyze (Obj [("symptoms", Str "headache")]) "symptoms")
                  (ErrorObj "upstream timeout") eq_refl eq_refl eq_refl)).
Defined.

(** C9. Two requests that differ at most in their [fallback] flag lead, in
    the same world, to the same response (the measured time included) and to
    the same provider calls: the flag is never read. *)
Theorem process_ignores_fallback (this : AIBrain.AIBrain) r1 r2 w :
  same_except_fallback r1 r2 ->
  process this r1 w = process this r2 w.
Proof.
  intros (Hu & Ht & Hsp & Hi & Hp).
  rewrite !process_run. unfold selectProvider, issued_call.
  rewrite Ht, Hsp, Hi. reflexivity.
Qed.

Lemma process_ignores_fallback_witness :
  same_except_fallback (symptoms_request (Some true)) (symptoms_request None)
  /\ process brain_failing (symptoms_request (Some true)) world0
     = process brain_failing (symptoms_request None) world0.
Proof.
  assert (H : same_except_fallback (symptoms_request (Some true)) (symptoms_request None)).
  { repeat split. }
  split; [exact H|].
  exact (process_ignores_fallback brain_failing _ _ world0 H).
Defined.

(** ** Clinic search *)





Section LocationClaims.
Context {rt : Runtime}.
Local Open Scope float_scope.

(** C3. [calculateDistance] is a function of its four arguments: the
    Earth's radius, 3959 miles, times the angle of the haversine formula.
    With a runtime whose sine is odd, the distance from [a] to [b] is the
    same value as the distance from [b] to [a], for all arguments, so the two
    are [==] whenever they are numbers.  With a runtime whose sine is zero
    at zero, whose cosine lies between -1 and 1 and whose [atan2] is zero at
    (+0, 1), the distance from a point of the globe to itself is [0]. *)
Theorem calculateDistance_symmetric_zero :
  (sin_odd ->
   forall lat1 lon1 lat2 lon2,
     calculateDistance lat1 lon1 lat2 lon2 = calculateDistance lat2 lon2 lat1 lon1
     /\ (is_nan (calculateDistance lat1 lon1 lat2 lon2) = false ->
         (calculateDistance lat1 lon1 lat2 lon2
          =? calculateDistance lat2 lon2 lat1 lon1) = true))
  /\ (sin_zero -> cos_bounded -> atan2_zero ->
      forall lat lon,
        is_point lat lon ->
        calculateDistance lat lon lat lon = 0
        /\ (calculateDistance lat lon lat lon =? 0) = true)
  /\ (forall lat1 lon1 lat2 lon2,
        calculateDistance lat1 lon1 lat2 lon2
        = 3959 * (2 * Math_atan2 (sqrt (haversine lat1 lon1 lat2 lon2))
                        (sqrt (1 - haversine lat1 lon1 lat2 lon2)))).
Proof.
  split; [|split].
  - intros Hodd lat1 lon1 lat2 lon2.
    assert (E : calculateDistance lat1 lon1 lat2 lon2
                = calculateDistance lat2 lon2 lat1 lon1).
    { rewrite !calculateDistance_eq, (haversine_sym lat1 lon1 lat2 lon2 Hodd).
      reflexivity. }
    split; [exact E|]. rewrite <- E. unfold is_nan. apply negb_false_iff.
  - intros H0 Hcos Hatan lat lon [Hlat Hlon].
    assert (E : calculateDistance lat lon lat lon = 0).
    { rewrite calculateDistance_eq, haversine_same.
      - change (sqrt 0) with 0. change (sqrt (1 - 0)) with 1. rewrite Hatan.
        reflexivity.
      - exact H0.
      - apply Hcos. apply radians_finite. exact Hlat.
      - exact (abs_leb_is_finite lat 90 _ _ eq_refl Hlat).
      - exact (abs_leb_is_finite lon 180 _ _ eq_refl Hlon). }
    split; [exact E|]. rewrite E. reflexivity.
  - intros. apply calculateDistance_eq.
Qed.

(** C4. Every result of [getClinicsByLocation] carries the distance
    computed for its clinic, and that distance is at most the radius (with no
    tolerance needed). *)
Theorem getClinicsByLocation_within_radius this lat lon radius :
  Forall (fun r => (distance r <=? radius) = true
                   /\ distance r = distance_from lat lon (clinic r)
                   /\ In (clinic r) (getClinics this))
    (getClinicsByLocation this lat lon radius).
Proof.
  apply Forall_forall. intros r Hr.
  apply getClinicsByLocation_In in Hr. destruct Hr as [(c & Hc & ->) Hd].
  split; [exact Hd|]. split; [reflexivity|exact Hc].
Qed.

(** C5. The results of [getClinicsByLocation] are sorted by distance, each
    one at most the ones after it; and for every distance [d], the clinics of
    the results at distance [d] are the clinics of the store at that distance
    (and within the radius) in the order of the store. *)
Theorem getClinicsByLocation_sorted_stable this lat lon radius :
  StronglySorted (fun r1 r2 => (distance r1 <=? distance r2) = true)
    (getClinicsByLocation this lat lon radius)
  /\ forall d,
       map clinic (filter (fun r => distance r =? d)
                     (getClinicsByLocation this lat lon radius))
       = filter (fun c => (distance_from lat lon c =? d)
                          && (distance_from lat lon c <=? radius))
           (getClinics this).
Proof.
  rewrite getClinicsByLocation_eq.
  set (cs := getClinics this).
  set (near := filter (fun r => distance r <=? radius) (map (locate lat lon) cs)).
  assert (Hok : Forall has_distance near) by apply within_radius_has_distance.
  split.
  - assert (Hs : StronglySorted (fun a b => goes_behind by_distance a b = false)
                   (Array_sort by_distance near)).
    { apply (Array_sort_sorted _ by_distance has_distance);
        [exact by_distance_asym | exact by_distance_false_trans | exact Hok]. }
    assert (Hok' : Forall has_distance (Array_sort by_distance near)).
    { apply Array_sort_Forall. exact Hok. }
    induction Hs as [|a l Hs IH Hall]; constructor.
    + apply IH. inversion Hok'; assumption.
    + inversion Hok' as [|? ? Ha Hl]; subst.
      rewrite Forall_forall in *. intros b Hb.
      apply ltb_false_leb; [exact Ha|exact (Hl b Hb)|].
      rewrite <- by_distance_behind by auto. apply Hall. exact Hb.
  - intros d. rewrite Array_sort_filter.
    + unfold near. rewrite filter_twice.
      apply (filter_map_locate (fun x => (x =? d) && (x <=? radius))).
    + intros x y Hx Hy. rewrite Forall_forall in Hok.
      rewrite by_distance_behind by auto. apply ltb_eqb_class.
Qed.

(** C7. A stored clinic whose latitude or longitude does not parse to a
    number gets the distance [NaN] (the runtime giving [NaN] for the sine of
    [NaN] and for [atan2] of [NaN]); the comparison with the radius fails, and
    the clinic is in no result.  [getClinicsByLocation] is a total function:
    nothing in it can throw. *)
Theorem getClinicsByLocation_skips_malformed this lat lon radius c :
  sin_nan -> atan2_nan ->
  is_nan (parseFloat (latitude c)) = true
  \/ is_nan (parseFloat (longitude c)) = true ->
  distance_from lat lon c = nan
  /\ (distance_from lat lon c <=? radius) = false
  /\ ~ In c (map clinic (getClinicsByLocation this lat lon radius)).
Proof.
  intros Hsin Hatan Hc.
  assert (E : distance_from lat lon c = nan).
  { unfold distance_from. rewrite calculateDistance_eq, haversine_nan by assumption.
    change (sqrt nan) with nan. rewrite Hatan, !mul_nan_r. reflexivity. }
  split; [exact E|]. split; [rewrite E; apply leb_nan_l|].
  intros Hin. apply in_map_iff in Hin. destruct Hin as (r & <- & Hr).
  apply getClinicsByLocation_In in Hr. destruct Hr as [(c' & _ & ->) Hle].
  cbn [locate clinic distance] in *. rewrite E, leb_nan_l in Hle. discriminate.
Qed.

(** ** POST /api/clinics/search *)

Variable geocodeAddress : string -> option (float * float).

(** C10. A body whose latitude or longitude is given as zero never takes
    the branch that searches around the given coordinates: the request goes
    to the geocoding branch when it has a location, else to the text search
    when it has a query, else to the list of all clinics, and gets the very
    response of the same request without coordinates. *)
Theorem search_zero_coordinate_is_no_coordinate storage (b : SearchBody) :
  zero_coordinate (body_latitude b) \/ zero_coordinate (body_longitude b) ->
  search_branch b <> UseCoordinates
  /\ search_branch b
     = (if truthy_string (location b) then GeocodeLocation
        else if truthy_string (query b) then TextSearch
        else AllClinics)
  /\ clinics_search geocodeAddress storage b
     = clinics_search geocodeAddress storage (without_coordinates b).
Proof.
  intros H.
  assert (Z : forall n, zero_coordinate n -> truthy_number n = false).
  { intros n (x & -> & Hx). unfold truthy_number. rewrite Hx. reflexivity. }
  assert (E : search_branch b
              = if truthy_string (location b) then GeocodeLocation
                else if truthy_string (query b) then TextSearch
                else AllClinics).
  { unfold search_branch.
    destruct H as [H|H]; rewrite (Z _ H); simpl;
      rewrite ?andb_false_r, ?orb_true_r, ?andb_true_r;
      destruct (truthy_string (location b)); reflexivity. }
  split; [|split; [exact E|]].
  - rewrite E. destruct (truthy_string (location b)), (truthy_string (query b));
      discriminate.
  - unfold clinics_search. rewrite E.
    replace (search_branch (without_coordinates b))
      with (if truthy_string (location b) then GeocodeLocation
            else if truthy_string (query b) then TextSearch
            else AllClinics).
    + destruct (truthy_string (location b)), (truthy_string (query b)); reflexivity.
    + unfold search_branch, without_coordinates. simpl.
      rewrite andb_true_r. reflexivity.
Qed.

End LocationClaims.

Lemma calculateDistance_symmetric_zero_witness :
  @sin_odd sample_runtime /\ @sin_zero sample_runtime
  /\ @cos_bounded sample_runtime /\ @atan2_zero sample_runtime
  /\ is_point (sample_parseFloat "40.7128") (sample_parseFloat "-74.0060")
  /\ @calculateDistance sample_runtime
       (sample_parseFloat "40.7128") (sample_parseFloat "-74.0060")
       (sample_parseFloat "40.7128") (sample_parseFloat "-74.0060") = 0%float
  /\ @calculateDistance sample_runtime
       (sample_parseFloat "40.7128") (sample_parseFloat "-74.0060")
       (sample_parseFloat "40.7589") (sample_parseFloat "-73.9851")
     = @calculateDistance sample_runtime
         (sample_parseFloat "40.7589") (sample_parseFloat "-73.9851")
         (sample_parseFloat "40.7128") (sample_parseFloat "-74.0060").
Proof.
  assert (H1 : @sin_odd sample_runtime) by (intros t; reflexivity).
  assert (H2 : @sin_zero sample_runtime) by reflexivity.
  assert (H3 : @cos_bounded sample_runtime) by (intros t _; reflexivity).
  assert (H4 : @atan2_zero sample_runtime) by reflexivity.
  assert (P : is_point (sample_parseFloat "40.7128") (sample_parseFloat "-74.0060")).
  { split; reflexivity. }
  destruct (@calculateDistance_symmetric_zero sample_runtime) as (Sym & Zero & _).
  split; [exact H1|]. split; [exact H2|]. split; [exact H3|]. split; [exact H4|].
  split; [exact P|].
  split; [exact (proj1 (Zero H2 H3 H4 _ _ P))|exact (proj1 (Sym H1 _ _ _ _))].
Defined.

Lemma getClinicsByLocation_skips_malformed_witness :
  @sin_nan sample_runtime /\ @atan2_nan sample_runtime
  /\ is_nan (sample_parseFloat (latitude uncharted)) = true
  /\ In uncharted (getClinics sample_storage)
  /\ ~ In uncharted
       (map clinic
          (@getClinicsByLocation sample_runtime sample_storage
             (sample_parseFloat "40.7128") (sample_parseFloat "-74.0060")
             5%float)).
Proof.
  assert (H1 : @sin_nan sample_runtime) by reflexivity.
  assert (H2 : @atan2_nan sample_runtime) by (intros x; apply div_nan_l).
  assert (H3 : is_nan (sample_parseFloat (latitude uncharted)) = true) by reflexivity.
  split; [exact H1|]. split; [exact H2|]. split; [exact H3|].
  split; [right; right; left; reflexivity|].
  apply (@getClinicsByLocation_skips_malformed sample_runtime sample_storage
           (sample_parseFloat "40.7128") (sample_parseFloat "-74.0060") 5%float
           uncharted H1 H2 (or_introl H3)).
Defined.

Lemma search_zero_coordinate_is_no_coordinate_witness :
  (zero_coordinate (body_latitude equator_body)
   \/ zero_coordinate (body_longitude equator_body))
  /\ search_branch equator_body <> UseCoordinates
  /\ search_branch equator_body = TextSearch.
Proof.
  assert (H : zero_coordinate (body_latitude equator_body)
              \/ zero_coordinate (body_longitude equator_body)).
  { left. exists 0%float. split; reflexivity. }
  split; [exact H|].
  destruct (@search_zero_coordinate_is_no_coordinate sample_runtime
              (fun _ => None) sample_storage equator_body H) as (N & E & _).
  split; [exact N|exact E].
Defined.

(** ** The operations on the sample data *)

Example selectProvider_skips_inactive :
  option_map AIBrain.name (selectProvider brain_ab (symptoms_request None))
  = Some "a".
Proof. reflexivity. Qed.

Example selectProvider_prefers_priority :
  option_map AIBrain.name (selectProvider brain_failing (symptoms_request None))
  = Some "down".
Proof. reflexivity. Qed.

Example process_success :
  fst (process brain_ab (symptoms_request None) world0)
  = inr {| success := true; data := Some (Str "ok"); error := None;
           provider := "a"; model := "default"; responseTime := 25 |}.
Proof. reflexivity. Qed.

Example process_unsupported_type :
  fst (process brain_ab
         {| userId := None; requestType := RequestType.nutrition; specialization := "meals";
            input := Null; req_priority := None; fallback := None |} world0)
  = inr (failure "Unsupported request type: nutrition" 25).
Proof. reflexivity. Qed.

Example process_missing_input :
  process brain_ab
    {| userId := None; requestType := RequestType.education; specialization := "health_education";
       input := Undefined; req_priority := None; fallback := None |} world0
  = (inr (failure "Cannot read properties of undefined (reading 'query')" 25),
     after_reads world0).
Proof. reflexivity. Qed.

Example searchClinics_by_name :
  map MemStorage.id (searchClinics sample_storage "MEDICAL" None) = ["c1"].
Proof. reflexivity. Qed.

Example searchClinics_by_type :
  map MemStorage.id (searchClinics sample_storage "c" (Some "general")) = ["c1"; "c3"].
Proof. reflexivity. Qed.

Example searchClinics_empty_type :
  map MemStorage.id (searchClinics sample_storage "c" (Some "")) = ["c1"; "c2"; "c3"].
Proof. reflexivity. Qed.

Example getClinicsByLocation_radius_5 :
  map (fun r => MemStorage.id (clinic r))
    (@getClinicsByLocation sample_runtime sample_storage
       (sample_parseFloat "40.7128") (sample_parseFloat "-74.0060") 5%float)
  = ["c1"; "c2"].
Proof. reflexivity. Qed.

Example getClinicsByLocation_radius_1 :
  map (fun r => (MemStorage.id (clinic r), distance r))
    (@getClinicsByLocation sample_runtime sample_storage
       (sample_parseFloat "40.7128") (sample_parseFloat "-74.0060") 1%float)
  = [("c1", 0%float)].
Proof. reflexivity. Qed.

Example clinics_search_on_the_equator :
  map (fun r => MemStorage.id (clinic r))
    (@clinics_search sample_runtime (fun _ => None) sample_storage equator_body)
  = ["c3"].
Proof. reflexivity. Qed.

(** * Further properties of the code *)

Import JSMore MapFacts SortMore StoreSpec StoreFacts StoreSamples.

(** ** The tables of users, health logs and chat sessions *)

(** X1. After [createUser], [getUser] returns the created user under the
    identifier the user carries, the new one, and under any other identifier
    what it returned before. *)
Theorem createUser_getUser users newId insertUser :
  Users.id (snd (Users.createUser users newId insertUser)) = newId
  /\ Users.getUser (fst (Users.createUser users newId insertUser))
       (Users.id (snd (Users.createUser users newId insertUser)))
     = Some (snd (Users.createUser users newId insertUser))
  /\ (forall id_, id_ <> newId ->
        Users.getUser (fst (Users.createUser users newId insertUser)) id_
        = Users.getUser users id_).
Proof.
  unfold Users.getUser, Users.createUser. cbn [fst snd Users.id].
  split; [reflexivity|]. split.
  - apply Map_get_set_same.
  - intros id_ N. apply Map_get_set_other. exact N.
Qed.

(** X2. [createUser] does not check the user name: with a fresh identifier
    it stores the user whatever the name, and [getUserByUsername] keeps
    returning the user that was created first under a name; the new user is
    returned only for a name no earlier user has. *)
Theorem createUser_keeps_first_username users newId insertUser username_ :
  ~ In newId (map fst users) ->
  Users.getUserByUsername (fst (Users.createUser users newId insertUser)) username_
  = match Users.getUserByUsername users username_ with
    | Some u => Some u
    | None =>
        if String.eqb (Users.insert_username insertUser) username_
        then Some (snd (Users.createUser users newId insertUser))
        else None
    end.
Proof.
  intros Hfresh. unfold Users.getUserByUsername, Users.createUser. cbn [fst snd].
  rewrite Map_values_set_fresh by exact Hfresh.
  induction (Map_values users) as [|u l IH]; [reflexivity|].
  cbn [app find]. destruct (String.eqb (Users.username u) username_); [reflexivity|].
  exact IH.
Qed.

Lemma createUser_keeps_first_username_witness :
  ~ In "u2" (map fst sample_users)
  /\ Users.getUserByUsername
       (fst (Users.createUser sample_users "u2" second_alice)) "alice"
     = Some alice.
Proof.
  assert (H : ~ In "u2" (map fst sample_users)).
  { intros [H|[]]. discriminate. }
  split; [exact H|].
  exact (createUser_keeps_first_username sample_users "u2" second_alice "alice" H).
Defined.

(** X3. [deleteHealthLog] answers [true] exactly when a log is stored under
    the identifier.  Afterwards no log is stored under it, the logs under the
    other identifiers are the same, and deleting it once more answers
    [false] and changes nothing; a delete that answers [false] leaves the
    table as it was. *)
Theorem deleteHealthLog_removes healthLogs id_ :
  (fst (HealthLogs.deleteHealthLog healthLogs id_) = true
   <-> In id_ (map fst healthLogs))
  /\ Map_get (snd (HealthLogs.deleteHealthLog healthLogs id_)) id_ = None
  /\ (forall k, k <> id_ ->
        Map_get (snd (HealthLogs.deleteHealthLog healthLogs id_)) k
        = Map_get healthLogs k)
  /\ HealthLogs.deleteHealthLog
       (snd (HealthLogs.deleteHealthLog healthLogs id_)) id_
     = (false, snd (HealthLogs.deleteHealthLog healthLogs id_))
  /\ (fst (HealthLogs.deleteHealthLog healthLogs id_) = false ->
      snd (HealthLogs.deleteHealthLog healthLogs id_) = healthLogs).
Proof.
  unfold HealthLogs.deleteHealthLog.
  assert (Hgone := Map_delete_get healthLogs id_).
  split; [|split; [exact Hgone|split; [|split]]].
  - unfold Map_delete, Map_has. cbn [fst].
    destruct (Map_get healthLogs id_) eqn:G.
    + split; [intros _|reflexivity].
      apply Map_get_In in G. apply in_map_iff. exists (id_, h). auto.
    + apply Map_get_None in G. split; [discriminate|contradiction].
  - intros k N. apply Map_delete_get_other. exact N.
  - assert (Hhas : Map_has (snd (Map_delete healthLogs id_)) id_ = false).
    { unfold Map_has. rewrite Hgone. reflexivity. }
    unfold Map_delete at 1. rewrite Hhas. f_equal.
    apply (Map_delete_absent _ _ Hhas).
  - apply Map_delete_absent.
Qed.

(** X4. In a table whose logs are stored under their identifiers,
    deleting a log takes it out of the listing of its user and leaves the
    rest of the listing as it was, in the same order. *)
Theorem deleteHealthLog_listing healthLogs id_ userId_ :
  keyed_by HealthLogs.id healthLogs ->
  dated_logs healthLogs userId_ ->
  HealthLogs.getHealthLogs (snd (HealthLogs.deleteHealthLog healthLogs id_)) userId_
  = filter (fun log => negb (String.eqb (HealthLogs.id log) id_))
      (HealthLogs.getHealthLogs healthLogs userId_).
Proof.
  intros Hk Hd. rewrite !getHealthLogs_eq.
  rewrite (desc_filter_comm _ HealthLogs.date) by (apply logs_of_dated; exact Hd).
  unfold logs_of, HealthLogs.deleteHealthLog.
  rewrite (Map_values_delete HealthLogs.id) by exact Hk.
  rewrite filter_comm. reflexivity.
Qed.

Lemma sample_logs_keyed : keyed_by HealthLogs.id sample_logs.
Proof.
  intros k v [H|[H|[H|[H|[]]]]]; injection H as <- <-; reflexivity.
Qed.

Lemma sample_logs_dated u : dated_logs sample_logs u.
Proof.
  intros log [<-|[<-|[<-|[<-|[]]]]] _; reflexivity.
Qed.

Lemma deleteHealthLog_listing_witness :
  keyed_by HealthLogs.id sample_logs
  /\ dated_logs sample_logs "u1"
  /\ HealthLogs.getHealthLogs sample_logs "u1" = [log2; log4; log1]
  /\ HealthLogs.getHealthLogs
       (snd (HealthLogs.deleteHealthLog sample_logs "l4")) "u1"
     = [log2; log1].
Proof.
  split; [exact sample_logs_keyed|]. split; [exact (sample_logs_dated "u1")|].
  split; [reflexivity|].
  exact (deleteHealthLog_listing sample_logs "l4" "u1" sample_logs_keyed
           (sample_logs_dated "u1")).
Defined.

(** X5. [getHealthLogs] returns the stored logs of the user and only
    them, each as often as it is stored, the newest first: no log is followed
    by one with a later date, and logs of the same date keep the order of the
    store. *)
Theorem getHealthLogs_newest_first healthLogs userId_ :
  dated_logs healthLogs userId_ ->
  Permutation (HealthLogs.getHealthLogs healthLogs userId_)
    (logs_of healthLogs userId_)
  /\ (forall log, In log (HealthLogs.getHealthLogs healthLogs userId_)
        <-> In log (Map_values healthLogs)
            /\ HealthLogs.userId log = Some userId_)
  /\ StronglySorted not_older (HealthLogs.getHealthLogs healthLogs userId_)
  /\ (forall d,
        filter (fun log => (HealthLogs.date log =? d)%float)
          (HealthLogs.getHealthLogs healthLogs userId_)
        = filter (fun log => (HealthLogs.date log =? d)%float)
            (logs_of healthLogs userId_)).
Proof.
  intros Hd. assert (Hok := logs_of_dated _ _ Hd).
  split; [apply Array_sort_perm|].
  split; [intros log; apply getHealthLogs_In|].
  split.
  - apply (desc_sorted _ HealthLogs.date). exact Hok.
  - intros d. apply (desc_stable _ HealthLogs.date). exact Hok.
Qed.

Lemma getHealthLogs_newest_first_witness :
  dated_logs sample_logs "u1"
  /\ StronglySorted not_older (HealthLogs.getHealthLogs sample_logs "u1")
  /\ HealthLogs.getHealthLogs sample_logs "u1" = [log2; log4; log1].
Proof.
  split; [exact (sample_logs_dated "u1")|].
  split; [|reflexivity].
  exact (proj1 (proj2 (proj2
           (getHealthLogs_newest_first sample_logs "u1" (sample_logs_dated "u1"))))).
Defined.

(** X6. [getHealthLogsByType] returns the logs of the given type out of
    what [getHealthLogs] returns for the user, in the same order. *)
Theorem getHealthLogsByType_filters healthLogs userId_ type_ :
  dated_logs healthLogs userId_ ->
  HealthLogs.getHealthLogsByType healthLogs userId_ type_
  = filter (fun log => String.eqb (HealthLogs.type log) type_)
      (HealthLogs.getHealthLogs healthLogs userId_).
Proof.
  intros Hd. rewrite getHealthLogs_eq.
  rewrite (desc_filter_comm _ HealthLogs.date) by (apply logs_of_dated; exact Hd).
  unfold logs_of. rewrite filter_twice. unfold HealthLogs.getHealthLogsByType.
  f_equal. apply filter_ext. intros a. apply andb_comm.
Qed.

Lemma getHealthLogsByType_filters_witness :
  dated_logs sample_logs "u1"
  /\ HealthLogs.getHealthLogsByType sample_logs "u1" "symptom" = [log4; log1].
Proof.
  split; [exact (sample_logs_dated "u1")|].
  exact (getHealthLogsByType_filters sample_logs "u1" "symptom"
           (sample_logs_dated "u1")).
Defined.

(** X7. A log created under a fresh identifier comes into the listing of
    the user it names and into no other listing; a log created without a
    user, or with the empty string for one, is stored with [userId] null and
    comes into no listing at all, the one of the empty user name included. *)
Theorem createHealthLog_listing healthLogs newId now insertLog userId_ log :
  ~ In newId (map fst healthLogs) ->
  (In log (HealthLogs.getHealthLogs
             (fst (HealthLogs.createHealthLog healthLogs newId now insertLog))
             userId_)
   <-> In log (HealthLogs.getHealthLogs healthLogs userId_)
       \/ (log = snd (HealthLogs.createHealthLog healthLogs newId now insertLog)
           /\ HealthLogs.insert_userId insertLog = Some userId_
           /\ userId_ <> ""))
  /\ Map_get (fst (HealthLogs.createHealthLog healthLogs newId now insertLog)) newId
     = Some (snd (HealthLogs.createHealthLog healthLogs newId now insertLog))
  /\ (truthy_string (HealthLogs.insert_userId insertLog) = false ->
      HealthLogs.userId
        (snd (HealthLogs.createHealthLog healthLogs newId now insertLog)) = None).
Proof.
  intros Hfresh. unfold HealthLogs.createHealthLog. cbn [fst snd].
  split; [|split].
  - rewrite !getHealthLogs_In, Map_values_set_fresh by exact Hfresh.
    rewrite in_app_iff. cbn [In].
    split.
    + intros [[H|[H|[]]] Hu]; [left; auto|]. right.
      subst log. cbn [HealthLogs.userId] in Hu.
      split; [reflexivity|]. unfold HealthLogs.or_null in Hu.
      destruct (HealthLogs.insert_userId insertLog) as [s|]; simpl in Hu;
        [|discriminate].
      destruct (String.eqb_spec s "") as [E|N]; simpl in Hu; [discriminate|].
      injection Hu as ->. auto.
    + intros [[H Hu]|(-> & Hu & N)]; [auto|].
      split; [right; left; reflexivity|]. cbn [HealthLogs.userId].
      rewrite Hu. unfold HealthLogs.or_null. simpl.
      destruct (String.eqb_spec userId_ ""); [contradiction|reflexivity].
  - apply Map_get_set_same.
  - intros H. cbn [HealthLogs.userId]. unfold HealthLogs.or_null. rewrite H.
    reflexivity.
Qed.

Lemma createHealthLog_listing_witness :
  ~ In "l5" (map fst sample_logs)
  /\ truthy_string (HealthLogs.insert_userId anonymous_log) = false
  /\ HealthLogs.userId
       (snd (HealthLogs.createHealthLog sample_logs "l5" 5000%float anonymous_log))
     = None.
Proof.
  assert (H : ~ In "l5" (map fst sample_logs)).
  { intros [H|[H|[H|[H|[]]]]]; discriminate. }
  split; [exact H|]. split; [reflexivity|].
  exact (proj2 (proj2 (createHealthLog_listing sample_logs "l5" 5000%float
                         anonymous_log "" log1 H)) eq_refl).
Defined.

(** X8. [updateChatSession] answers [undefined] exactly when no session
    is stored under the identifier, and then changes nothing.  Otherwise it
    answers the stored session with the new messages and the time of the
    update, its identifier, user and time of creation unchanged, and
    [getChatSession] returns that session from then on.  It never creates a
    session: the identifiers of the table and their order stay the same, and
    so do the sessions under the other identifiers. *)
Theorem updateChatSession_getChatSession chatSessions id_ messages_ now :
  (snd (ChatSessions.updateChatSession chatSessions id_ messages_ now) = None
   <-> ChatSessions.getChatSession chatSessions id_ = None)
  /\ (snd (ChatSessions.updateChatSession chatSessions id_ messages_ now) = None ->
      fst (ChatSessions.updateChatSession chatSessions id_ messages_ now)
      = chatSessions)
  /\ (forall old, ChatSessions.getChatSession chatSessions id_ = Some old ->
        snd (ChatSessions.updateChatSession chatSessions id_ messages_ now)
        = Some {| ChatSessions.id := ChatSessions.id old;
                  ChatSessions.userId := ChatSessions.userId old;
                  ChatSessions.messages := messages_;
                  ChatSessions.createdAt := ChatSessions.createdAt old;
                  ChatSessions.updatedAt := Some now |})
  /\ (forall k,
        ChatSessions.getChatSession
          (fst (ChatSessions.updateChatSession chatSessions id_ messages_ now)) k
        = if String.eqb k id_
          then snd (ChatSessions.updateChatSession chatSessions id_ messages_ now)
          else ChatSessions.getChatSession chatSessions k)
  /\ map fst (fst (ChatSessions.updateChatSession chatSessions id_ messages_ now))
     = map fst chatSessions.
Proof.
  unfold ChatSessions.updateChatSession, ChatSessions.getChatSession.
  destruct (Map_get chatSessions id_) as [old|] eqn:G; cbn [fst snd].
  - split; [split; discriminate|]. split; [discriminate|].
    split; [intros o E; injection E as <-; reflexivity|]. split.
    + intros k. destruct (String.eqb_spec k id_) as [->|N].
      * apply Map_get_set_same.
      * apply Map_get_set_other. exact N.
    + rewrite Map_set_keys. unfold Map_has. rewrite G. reflexivity.
  - split; [tauto|]. split; [reflexivity|]. split; [discriminate|]. split.
    + intros k. destruct (String.eqb_spec k id_) as [->|N]; [exact G|reflexivity].
    + reflexivity.
Qed.

(** X9. When the clock has moved on since the other sessions of the user
    were changed, the session [updateChatSession] has just updated is the
    first one [getChatSessions] lists for its user. *)
Theorem updateChatSession_listed_first chatSessions id_ messages_ now old userId_ :
  Map_ok chatSessions ->
  ChatSessions.getChatSession chatSessions id_ = Some old ->
  ChatSessions.userId old = Some userId_ ->
  is_nan now = false ->
  (forall k s, Map_get chatSessions k = Some s -> k <> id_ ->
               ChatSessions.userId s = Some userId_ ->
               (ChatSessions.last_change s <? now)%float = true) ->
  hd_error
    (ChatSessions.getChatSessions
       (fst (ChatSessions.updateChatSession chatSessions id_ messages_ now)) userId_)
  = snd (ChatSessions.updateChatSession chatSessions id_ messages_ now).
Proof.
  intros Hok G Hu Hnow Hothers.
  unfold ChatSessions.updateChatSession. unfold ChatSessions.getChatSession in G.
  rewrite G. cbn [fst snd].
  set (upd := {| ChatSessions.id := ChatSessions.id old;
                 ChatSessions.userId := ChatSessions.userId old;
                 ChatSessions.messages := messages_;
                 ChatSessions.createdAt := ChatSessions.createdAt old;
                 ChatSessions.updatedAt := Some now |}).
  unfold ChatSessions.getChatSessions.
  set (l := filter _ _).
  assert (Hupd : In upd l).
  { apply filter_In. split.
    - apply (Map_get_values _ id_). apply Map_get_set_same.
    - apply same_user_eq. exact Hu. }
  assert (Hall : forall x, In x l ->
            x = upd \/ (ChatSessions.last_change x <? now)%float = true).
  { intros x Hx. apply filter_In in Hx. destruct Hx as [Hx Hxu].
    apply same_user_eq in Hxu.
    destruct (In_Map_values_set _ _ _ _ Hok Hx) as [->|(k & N & Gk)].
    - left. reflexivity.
    - right. apply (Hothers k); assumption. }
  assert (Hnum : Forall (fun s => is_nan (ChatSessions.last_change s) = false) l).
  { apply Forall_forall. intros x Hx. destruct (Hall x Hx) as [->|E].
    - exact Hnow.
    - apply ltb_not_nan in E. apply E. }
  destruct (Array_sort _ l) as [|p rest] eqn:S.
  - apply Array_sort_nil in S. rewrite S in Hupd. destruct Hupd.
  - cbn [hd_error].
    destruct (Array_sort_head _ _ _
                (desc_trans _ ChatSessions.last_change)
                (desc_false_trans _ ChatSessions.last_change) l p rest Hnum S)
      as (before & after & El & Hb & Ha).
    assert (Hp : In p l) by (rewrite El; apply in_elt).
    destruct (Hall p Hp) as [->|E]; [reflexivity|exfalso].
    assert (Np : is_nan (ChatSessions.last_change p) = false).
    { apply ltb_not_nan in E. apply E. }
    assert (Nu : is_nan (ChatSessions.last_change upd) = false) by exact Hnow.
    rewrite El in Hupd. apply in_app_or in Hupd.
    destruct Hupd as [Hin|[Ep|Hin]].
    + specialize (Hb upd Hin).
      rewrite (desc_behind _ ChatSessions.last_change) in Hb by assumption.
      change (ChatSessions.last_change upd) with now in Hb.
      rewrite (ltb_asym _ _ E) in Hb. discriminate.
    + rewrite Ep in E. change (ChatSessions.last_change upd) with now in E.
      rewrite ltb_irrefl in E. discriminate.
    + specialize (Ha upd Hin).
      rewrite (desc_behind _ ChatSessions.last_change) in Ha by assumption.
      change (ChatSessions.last_change upd) with now in Ha.
      rewrite E in Ha. discriminate.
Qed.

Lemma sample_sessions_ok : Map_ok sample_sessions.
Proof.
  unfold Map_ok. simpl. repeat constructor; simpl; intuition discriminate.
Qed.

Lemma updateChatSession_listed_first_witness :
  Map_ok sample_sessions
  /\ ChatSessions.getChatSession sample_sessions "s1" = Some session1
  /\ ChatSessions.getChatSessions sample_sessions "u1" = [session2; session1]
  /\ hd_error
       (ChatSessions.getChatSessions
          (fst (ChatSessions.updateChatSession sample_sessions "s1"
                  (Arr [Str "hello"]) 400%float)) "u1")
     = snd (ChatSessions.updateChatSession sample_sessions "s1"
              (Arr [Str "hello"]) 400%float).
Proof.
  split; [exact sample_sessions_ok|]. split; [reflexivity|]. split; [reflexivity|].
  refine (updateChatSession_listed_first sample_sessions "s1" (Arr [Str "hello"])
            400%float session1 "u1" sample_sessions_ok eq_refl eq_refl eq_refl _).
  intros k s G N _. unfold sample_sessions in G. cbn [Map_get] in G.
  destruct (String.eqb_spec "s1" k) as [E|_]; [congruence|].
  destruct (String.eqb_spec "s2" k) as [_|_]; [|discriminate].
  injection G as <-. reflexivity.
Defined.

(** X10. [getChatSessions] returns the stored sessions of the user and
    only them, the most recently changed first; a session that was never
    updated counts with its time of creation. *)
Theorem getChatSessions_latest_first chatSessions userId_ :
  (forall s, In s (Map_values chatSessions) ->
             ChatSessions.userId s = Some userId_ ->
             is_nan (ChatSessions.last_change s) = false) ->
  (forall s, In s (ChatSessions.getChatSessions chatSessions userId_)
     <-> In s (Map_values chatSessions) /\ ChatSessions.userId s = Some userId_)
  /\ StronglySorted
       (fun a b => (ChatSessions.last_change b <=? ChatSessions.last_change a)%float
                   = true)
       (ChatSessions.getChatSessions chatSessions userId_)
  /\ (forall d,
        filter (fun s => (ChatSessions.last_change s =? d)%float)
          (ChatSessions.getChatSessions chatSessions userId_)
        = filter (fun s => (ChatSessions.last_change s =? d)%float)
            (filter (fun s => HealthLogs.same_user (ChatSessions.userId s) userId_)
               (Map_values chatSessions))).
Proof.
  intros Hd. unfold ChatSessions.getChatSessions.
  set (l := filter _ _).
  assert (Hok : Forall (fun s => is_nan (ChatSessions.last_change s) = false) l).
  { apply Forall_forall. intros s Hs. apply filter_In in Hs. destruct Hs as [Hs Hu].
    apply Hd; [exact Hs|]. apply same_user_eq. exact Hu. }
  split; [|split].
  - intros s. rewrite Array_sort_In. unfold l. rewrite filter_In, same_user_eq.
    reflexivity.
  - apply (desc_sorted _ ChatSessions.last_change). exact Hok.
  - intros d. apply (desc_stable _ ChatSessions.last_change). exact Hok.
Qed.

Lemma getChatSessions_latest_first_witness :
  (forall s, In s (Map_values sample_sessions) ->
             ChatSessions.userId s = Some "u1" ->
             is_nan (ChatSessions.last_change s) = false)
  /\ ChatSessions.getChatSessions sample_sessions "u1" = [session2; session1]
  /\ StronglySorted
       (fun a b => (ChatSessions.last_change b <=? ChatSessions.last_change a)%float
                   = true)
       (ChatSessions.getChatSessions sample_sessions "u1").
Proof.
  assert (H : forall s, In s (Map_values sample_sessions) ->
                        ChatSessions.userId s = Some "u1" ->
                        is_nan (ChatSessions.last_change s) = false).
  { intros s [<-|[<-|[]]] _; reflexivity. }
  split; [exact H|]. split; [reflexivity|].
  exact (proj1 (proj2 (getChatSessions_latest_first sample_sessions "u1" H))).
Defined.

(** ** The table of clinics *)

(** X11. [createClinic] with a fresh identifier puts the clinic, under
    that identifier, behind the clinics of the store: [getClinics] lists it
    last, and a text search returns what it returned before, followed by the
    new clinic if it matches. *)
Theorem createClinic_appends this newId c query_ type_ :
  ~ In newId (map fst (clinics this)) ->
  getClinics (fst (createClinic this newId c))
  = getClinics this ++ [snd (createClinic this newId c)]
  /\ MemStorage.id (snd (createClinic this newId c)) = newId
  /\ searchClinics (fst (createClinic this newId c)) query_ type_
     = searchClinics this query_ type_
       ++ searchClinics {| clinics := [(newId, snd (createClinic this newId c))] |}
            query_ type_.
Proof.
  intros Hfresh. unfold getClinics, searchClinics, createClinic. cbn [fst snd clinics].
  rewrite Map_values_set_fresh by exact Hfresh.
  split; [reflexivity|]. split; [reflexivity|].
  rewrite filter_app. reflexivity.
Qed.

Lemma createClinic_appends_witness :
  ~ In "c4" (map fst (clinics sample_storage))
  /\ map MemStorage.id (getClinics (fst (createClinic sample_storage "c4" harbor_insert)))
     = ["c1"; "c2"; "c3"; "c4"].
Proof.
  assert (H : ~ In "c4" (map fst (clinics sample_storage))).
  { intros [H|[H|[H|[]]]]; discriminate. }
  split; [exact H|].
  rewrite (proj1 (createClinic_appends sample_storage "c4" harbor_insert "" None H)).
  reflexivity.
Defined.

(** ** The dispatcher *)

Import BrainSpec BrainFacts BrainSamples.

(** X12. When the provider has answered the call [process] issued,
    [process] resolves to the envelope with [success] set, the answer as
    [data], the name of the selected provider and the model [default], after
    that one call. *)
Theorem process_answer (this : AIBrain.AIBrain) request w p c v :
  selectProvider this request = Some p ->
  issued_call request = inr c ->
  perform p c = inr v ->
  process this request w
  = (inr (answered p v (elapsed w)), after_call w (AIBrain.name p, c))
  /\ calls (snd (process this request w)) = calls w ++ [(AIBrain.name p, c)].
Proof.
  intros Hs Hc Hv. rewrite (process_dispatched _ _ _ _ _ Hs Hc).
  unfold dispatched. rewrite Hv. split; reflexivity.
Qed.

Lemma process_answer_witness :
  selectProvider brain_ab (symptoms_request None) = Some provider_a
  /\ issued_call (symptoms_request None)
     = inr (call_analyze (Obj [("symptoms", Str "headache")]) "symptoms")
  /\ perform provider_a
       (call_analyze (Obj [("symptoms", Str "headache")]) "symptoms")
     = inr (Str "ok")
  /\ process brain_ab (symptoms_request None) world0
     = (inr (answered provider_a (Str "ok") 25),
        after_call world0
          ("a", call_analyze (Obj [("symptoms", Str "headache")]) "symptoms")).
Proof.
  split; [reflexivity|]. split; [reflexivity|]. split; [reflexivity|].
  exact (proj1 (process_answer brain_ab (symptoms_request None) world0 provider_a
                  (call_analyze (Obj [("symptoms", Str "headache")]) "symptoms")
                  (Str "ok") eq_refl eq_refl eq_refl)).
Defined.

(** X13. The request types [nutrition], [fitness] and [mental_health],
    which the interface of the request declares, are served by no provider
    method: for a request of one of them [process] resolves to the failure
    envelope and calls no provider, whatever the registry holds. *)
Theorem process_undispatched_types (this : AIBrain.AIBrain) request w :
  undispatched (requestType request) = true ->
  process this request w
  = (inr (failure
            match selectProvider this request with
            | None => "No suitable AI provider available"
            | Some _ =>
                ("Unsupported request type: "
                 ++ RequestType.to_string (requestType request))%string
            end (elapsed w)),
     after_reads w)
  /\ calls (snd (process this request w)) = calls w.
Proof.
  intros H. rewrite process_run.
  destruct (selectProvider this request) as [p|]; [|split; reflexivity].
  unfold issued_call.
  destruct (requestType request); try discriminate H; split; reflexivity.
Qed.

Lemma process_undispatched_types_witness :
  undispatched (requestType (typed_request RequestType.nutrition (Str "apple"))) = true
  /\ process brain_ab (typed_request RequestType.nutrition (Str "apple")) world0
     = (inr (failure "Unsupported request type: nutrition" 25), after_reads world0).
Proof.
  split; [reflexivity|].
  exact (proj1 (process_undispatched_types brain_ab
                  (typed_request RequestType.nutrition (Str "apple")) world0
                  eq_refl)).
Defined.

(** X14. [process] never rejects and never throws.  Whenever the promise
    it returns settles, which it does once the provider call it awaits has
    settled, whatever the registry, the request and the outcome of that call
    are, it is resolved with a well-formed envelope (a success names an
    active registered provider and carries data and no error, a failure
    carries an error, no data and the provider and model [unknown]); by then
    the clock was read exactly twice, the envelope reports the difference of
    the two readings, and at most one provider, an active one, was called,
    at most once; a success comes from a call. *)
Theorem process_never_rejects (this : AIBrain.AIBrain) request w outcome w' :
  process this request w = (outcome, w') ->
  exists r,
    outcome = inr r
    /\ envelope_ok this r
    /\ responseTime r = elapsed w
    /\ reads w' = S (S (reads w))
    /\ clock w' = clock w
    /\ (calls w' = calls w /\ success r = false
        \/ exists p c,
             In p (Map_values (providers this)) /\ isActive p = true
             /\ calls w' = calls w ++ [(AIBrain.name p, c)]).
Proof.
  rewrite process_run.
  destruct (selectProvider this request) as [p|] eqn:Hs.
  - destruct (selectProvider_In _ _ _ Hs) as [Hin Hact].
    destruct (issued_call request) as [e|c].
    + intros E. injection E as <- <-. eexists. split; [reflexivity|]. cbn.
      repeat split; try discriminate. left. split; reflexivity.
    + destruct (perform p c) as [e|v]; intros E; injection E as <- <-;
        eexists; (split; [reflexivity|]); cbn.
      * repeat split; try discriminate. right. exists p, c. auto.
      * repeat split; try discriminate; [exists p; auto|].
        right. exists p, c. auto.
  - intros E. injection E as <- <-. eexists. split; [reflexivity|]. cbn.
    repeat split; try discriminate. left. split; reflexivity.
Qed.

Lemma process_never_rejects_witness :
  process brain_failing (symptoms_request None) world0
  = (inr (failure "upstream timeout" 25),
     after_call world0
       ("down", call_analyze (Obj [("symptoms", Str "headache")]) "symptoms"))
  /\ envelope_ok brain_failing (failure "upstream timeout" 25)
  /\ responseTime (failure "upstream timeout" 25) = elapsed world0.
Proof.
  split; [reflexivity|].
  destruct (process_never_rejects brain_failing (symptoms_request None) world0
              (inr (failure "upstream timeout" 25))
              (after_call world0
                 ("down",
                  call_analyze (Obj [("symptoms", Str "headache")]) "symptoms"))
              eq_refl)
    as (r & E & Hok & Ht & _).
  injection E as <-. split; [exact Hok|exact Ht].
Defined.

(** X15. [process] reads the type and the input of a request, and the
    specialization of an analysis, and nothing else: two requests that agree
    on these lead to the same response and the same calls, whatever their
    user, their priority, their fallback flag and, for the other types,
    their specialization. *)
Theorem process_reads_only (this : AIBrain.AIBrain) r1 r2 w :
  same_as_read r1 r2 ->
  process this r1 w = process this r2 w.
Proof.
  intros (Ht & Hi & Hsp). rewrite !process_run.
  rewrite (selectProvider_any this r1 r2).
  replace (issued_call r1) with (issued_call r2); [reflexivity|].
  unfold issued_call. rewrite <- Ht, <- Hi.
  destruct (requestType r1); try reflexivity.
  rewrite Hsp; reflexivity.
Qed.

Lemma process_reads_only_witness :
  same_as_read (typed_request RequestType.prediction (Str "flu"))
    (AIBrainMethods.method_request RequestType.prediction "disease_trends" (Str "flu"))
  /\ process brain_ab (typed_request RequestType.prediction (Str "flu")) world0
     = process brain_ab
         (AIBrainMethods.method_request RequestType.prediction "disease_trends"
            (Str "flu")) world0.
Proof.
  assert (H : same_as_read (typed_request RequestType.prediction (Str "flu"))
                (AIBrainMethods.method_request RequestType.prediction
                   "disease_trends" (Str "flu"))).
  { split; [reflexivity|]. split; [reflexivity|]. discriminate. }
  split; [exact H|].
  exact (process_reads_only brain_ab _ _ world0 H).
Defined.

(** X16. A chat, education or emotion request whose input is [undefined]
    or [null] fails before any provider is called; an analysis or a
    prediction request hands such an input to the provider as it is. *)
Theorem process_unreadable_input (this : AIBrain.AIBrain) request w p :
  selectProvider this request = Some p ->
  input request = Undefined \/ input request = Null ->
  match requestType request with
  | RequestType.analysis =>
      process this request w
      = dispatched p (call_analyze (input request) (specialization request)) w
  | RequestType.prediction =>
      process this request w = dispatched p (call_predict (input request)) w
  | _ =>
      calls (snd (process this request w)) = calls w
      /\ exists message,
           fst (process this request w) = inr (failure message (elapsed w))
  end.
Proof.
  intros Hs Hi.
  destruct (requestType request) eqn:Ht;
    try (apply process_dispatched; [exact Hs|unfold issued_call; rewrite Ht; reflexivity]);
    rewrite process_run, Hs; unfold issued_call; rewrite Ht;
    destruct Hi as [Hi|Hi]; rewrite ?Hi; cbn;
    (split; [reflexivity|eexists; reflexivity]).
Qed.

Lemma process_unreadable_input_witness :
  selectProvider brain_ab (typed_request RequestType.chat Null) = Some provider_a
  /\ (input (typed_request RequestType.chat Null) = Undefined
      \/ input (typed_request RequestType.chat Null) = Null)
  /\ calls (snd (process brain_ab (typed_request RequestType.chat Null) world0)) = [].
Proof.
  split; [reflexivity|]. split; [right; reflexivity|].
  exact (proj1 (process_unreadable_input brain_ab (typed_request RequestType.chat Null)
                  world0 provider_a eq_refl (or_intror eq_refl))).
Defined.

(** X17. With a provider selected, each health-specific method comes to
    one call of it: the four analyses call [analyze] with the object of
    their two arguments and the specialization [symptoms], [nutrition],
    [mental_health] or [fitness]; [predictDiseaseTrends] calls [predict] with
    the object of the data and the region; [analyzeEmotions] calls
    [processEmotion] with its two arguments; [educationalQuery] calls
    [educate] with the query alone.  None of them fails before the call. *)
Theorem health_methods_dispatch (this : AIBrain.AIBrain) p w :
  (forall request, selectProvider this request = Some p) ->
  (forall symptoms patientInfo,
     AIBrainMethods.analyzeSymptoms this symptoms patientInfo w
     = dispatched p
         (call_analyze (Obj [("symptoms", symptoms); ("patientInfo", patientInfo)])
            "symptoms") w)
  /\ (forall foodData goals,
        AIBrainMethods.analyzeNutrition this foodData goals w
        = dispatched p
            (call_analyze (Obj [("foodData", foodData); ("goals", goals)])
               "nutrition") w)
  /\ (forall responses assessmentType,
        AIBrainMethods.assessMentalHealth this responses assessmentType w
        = dispatched p
            (call_analyze
               (Obj [("responses", responses); ("assessmentType", assessmentType)])
               "mental_health") w)
  /\ (forall userProfile goals,
        AIBrainMethods.createFitnessPlan this userProfile goals w
        = dispatched p
            (call_analyze (Obj [("userProfile", userProfile); ("goals", goals)])
               "fitness") w)
  /\ (forall data_ region,
        AIBrainMethods.predictDiseaseTrends this data_ region w
        = dispatched p (call_predict (Obj [("data", data_); ("region", region)])) w)
  /\ (forall inputData inputType,
        AIBrainMethods.analyzeEmotions this inputData inputType w
        = dispatched p (call_processEmotion inputData inputType) w)
  /\ (forall query_ level,
        AIBrainMethods.educationalQuery this query_ level w
        = dispatched p (call_educate query_) w).
Proof.
  intros Hs.
  repeat split; intros; apply process_dispatched; try apply Hs; reflexivity.
Qed.

Lemma health_methods_dispatch_witness :
  (forall request, selectProvider brain_echo request = Some echo_provider)
  /\ AIBrainMethods.analyzeEmotions brain_echo (Str "so tired") (Str "text") world0
     = (inr (answered echo_provider (Str "so tired") 25),
        after_call world0
          ("echo", call_processEmotion (Str "so tired") (Str "text"))).
Proof.
  assert (H : forall request, selectProvider brain_echo request = Some echo_provider).
  { intros request. reflexivity. }
  split; [exact H|].
  exact (proj1 (proj2 (proj2 (proj2 (proj2 (proj2
           (health_methods_dispatch brain_echo echo_provider world0 H))))))
           (Str "so tired") (Str "text")).
Defined.

(** X18. [educationalQuery] does not use its [level]: two calls with the
    same query and different levels give the same response and make the same
    provider call. *)
Theorem educationalQuery_ignores_level (this : AIBrain.AIBrain) query_ level1 level2 w :
  AIBrainMethods.educationalQuery this query_ level1 w
  = AIBrainMethods.educationalQuery this query_ level2 w.
Proof.
  unfold AIBrainMethods.educationalQuery. rewrite !process_run.
  reflexivity.
Qed.

(** X19. Registering one more provider under a new name changes the
    selection only if the provider is active and its priority is strictly
    higher than that of the provider selected so far (or none was selected):
    a newcomer of the same priority does not take over. *)
Theorem selectProvider_after_registerProvider (this : AIBrain.AIBrain) n p request :
  ~ In n (map fst (providers this)) ->
  priorities_ok this ->
  (isActive p = true -> has_priority p) ->
  selectProvider (registerProvider this n p) request
  = if isActive p
    then match selectProvider this request with
         | None => Some p
         | Some q => if (priority q <? priority p)%float then Some p else Some q
         end
    else selectProvider this request.
Proof.
  intros Hfresh Hok Hp. rewrite !selectProvider_head.
  unfold registerProvider. cbn [providers].
  rewrite Map_values_set_fresh by exact Hfresh.
  rewrite filter_app. cbn [filter].
  destruct (isActive p) eqn:Ha; [|rewrite app_nil_r; reflexivity].
  assert (Hl := active_has_priority this Hok).
  rewrite (hd_sort_app_last _ by_priority has_priority by_priority_trans
             by_priority_false_trans _ p Hl (Hp eq_refl)).
  destruct (hd_error _) as [q|] eqn:Hq; [|reflexivity].
  rewrite by_priority_behind; [reflexivity| |exact (Hp eq_refl)].
  apply hd_sort_In in Hq. rewrite Forall_forall in Hl. apply Hl. exact Hq.
Qed.

Lemma brain_ab_priorities : priorities_ok brain_ab.
Proof. intros p [<-|[<-|[]]] _; reflexivity. Qed.

Lemma selectProvider_after_registerProvider_witness :
  ~ In "c" (map fst (providers brain_ab))
  /\ priorities_ok brain_ab
  /\ (isActive provider_c = true -> has_priority provider_c)
  /\ selectProvider brain_ab (symptoms_request None) = Some provider_a
  /\ selectProvider (registerProvider brain_ab "c" provider_c) (symptoms_request None)
     = Some provider_c.
Proof.
  assert (H : ~ In "c" (map fst (providers brain_ab))).
  { intros [H|[H|[]]]; discriminate. }
  split; [exact H|]. split; [exact brain_ab_priorities|].
  split; [intros _; reflexivity|]. split; [reflexivity|].
  rewrite (selectProvider_after_registerProvider brain_ab "c" provider_c
             (symptoms_request None) H brain_ab_priorities (fun _ => eq_refl)).
  reflexivity.
Defined.

(** X20. Registering a provider under a name that is taken replaces the
    provider of that name where it stands: the names and their order stay,
    the new provider is the one registered under the name, the providers
    under the other names stay, and the provider it replaced is selected no
    more unless it is registered under another name as well. *)
Theorem registerProvider_replaces (this : AIBrain.AIBrain) n p old request :
  Map_ok (providers this) ->
  Map_get (providers this) n = Some old ->
  map fst (providers (registerProvider this n p)) = map fst (providers this)
  /\ Map_get (providers (registerProvider this n p)) n = Some p
  /\ (forall k, k <> n ->
        Map_get (providers (registerProvider this n p)) k
        = Map_get (providers this) k)
  /\ (forall q, selectProvider (registerProvider this n p) request = Some q ->
        q = p \/ exists k, k <> n /\ Map_get (providers this) k = Some q).
Proof.
  intros Hok G. unfold registerProvider. cbn [providers].
  split; [|split; [|split]].
  - rewrite Map_set_keys. unfold Map_has. rewrite G. reflexivity.
  - apply Map_get_set_same.
  - intros k N. apply Map_get_set_other. exact N.
  - intros q Hq. apply selectProvider_In in Hq. destruct Hq as [Hq _].
    cbn [providers] in Hq. apply (In_Map_values_set _ _ _ _ Hok Hq).
Qed.

Lemma brain_ab_ok : Map_ok (providers brain_ab).
Proof.
  unfold Map_ok. simpl. repeat constructor; simpl; intuition discriminate.
Qed.

Lemma registerProvider_replaces_witness :
  Map_ok (providers brain_ab)
  /\ Map_get (providers brain_ab) "a" = Some provider_a
  /\ map fst (providers (registerProvider brain_ab "a" provider_c)) = ["a"; "b"]
  /\ selectProvider (registerProvider brain_ab "a" provider_c) (symptoms_request None)
     = Some provider_c.
Proof.
  split; [exact brain_ab_ok|]. split; [reflexivity|].
  split; [|reflexivity].
  exact (proj1 (registerProvider_replaces brain_ab "a" provider_c provider_a
                  (symptoms_request None) brain_ab_ok eq_refl)).
Defined.

(** ** The symptom and chat service *)

Import ServiceSpec ServiceFacts ServiceSamples.

Section ServiceProperties.
Context {cv : Conversions}.
Variable JSON_parse : string -> thrown + value.

(** X21. [analyzeSymptoms] either throws the one error of the service,
    whatever went wrong, or returns a result with its fields filled in: a
    truthy condition and description, an array of recommendations, an
    urgency that is [low], [medium] or [high], and a confidence that is a
    number from 0 to 100 or [NaN]. *)
Theorem analyzeSymptoms_filled_in reply :
  match AIService.analyzeSymptoms JSON_parse reply with
  | inl e => e = ErrorObj "Failed to analyze symptoms. Please try again later."
  | inr r => filled_in r
  end.
Proof.
  unfold AIService.analyzeSymptoms, AIService.and_then.
  destruct reply as [e|content_]; [reflexivity|].
  destruct (JSON_parse _) as [e|result]; [reflexivity|].
  unfold AIService.symptom_result, AIService.and_then.
  destruct (get result "condition") as [e|c1]; [reflexivity|].
  destruct (get result "confidence") as [e|c2]; [reflexivity|].
  destruct (get result "description") as [e|c3]; [reflexivity|].
  destruct (get result "recommendations") as [e|c4]; [reflexivity|].
  destruct (get result "urgency") as [e|c5]; [reflexivity|].
  unfold filled_in.
  cbn [AIService.condition AIService.confidence AIService.description AIService.recommendations AIService.urgency].
  split; [apply or_else_truthy; reflexivity|].
  split; [apply or_else_truthy; reflexivity|].
  split; [destruct (AIService.isArray c4) eqn:E; [exact E|reflexivity]|].
  split; [destruct (AIService.is_urgency c5) eqn:E; [exact E|reflexivity]|].
  apply clamp_filled.
Qed.

(** X22. When the reply gives its confidence as a number, a boolean or
    not at all, the confidence of the result is a number from 0 to 100,
    whatever the number was: a negative one gives 0, one above 100 gives 100.
    Only a confidence given as a text, an object or an array can come out
    as [NaN]. *)
Theorem analyzeSymptoms_confidence content_ result c r :
  JSON_parse (AIService.content_or content_ "{}") = inr result ->
  get result "confidence" = inr c ->
  plain c = true ->
  AIService.analyzeSymptoms JSON_parse (inr content_) = inr r ->
  AIService.confidence r = Math_max 0 (Math_min 100 (ToNumber (or_else c (Num 0))))
  /\ percentage (AIService.confidence r).
Proof.
  intros Hparse Hc Hplain.
  unfold AIService.analyzeSymptoms, AIService.and_then. rewrite Hparse.
  unfold AIService.symptom_result, AIService.and_then. rewrite Hc.
  destruct (get result "condition") as [e|c1]; [discriminate|].
  destruct (get result "description") as [e|c3]; [discriminate|].
  destruct (get result "recommendations") as [e|c4]; [discriminate|].
  destruct (get result "urgency") as [e|c5]; [discriminate|].
  intros E. injection E as <-. cbn [AIService.confidence].
  split; [reflexivity|]. apply clamp_percentage. apply plain_number. exact Hplain.
Qed.

End ServiceProperties.

Lemma analyzeSymptoms_confidence_witness :
  sample_parse (AIService.content_or None "{}") = inr (Obj [])
  /\ get (Obj []) "confidence" = inr Undefined
  /\ plain Undefined = true
  /\ (exists r,
        AIService.analyzeSymptoms (cv := sample_conversions) sample_parse (inr None)
        = inr r
        /\ percentage (AIService.confidence r)).
Proof.
  split; [reflexivity|]. split; [reflexivity|]. split; [reflexivity|].
  eexists. split; [reflexivity|].
  exact (proj2 (analyzeSymptoms_confidence (cv := sample_conversions) sample_parse
                  None (Obj []) Undefined _ eq_refl eq_refl eq_refl eq_refl)).
Defined.

(** A confidence given in words comes out as [NaN]. *)
Example analyzeSymptoms_confidence_in_words :
  exists r,
    AIService.analyzeSymptoms (cv := sample_conversions) wordy_parse
      (inr (Some "a reply"))
    = inr r
    /\ is_nan (AIService.confidence r) = true.
Proof. eexists. split; reflexivity. Qed.

(** ** The routes of the chat and of the health logs *)


Example post_chat_message_api_down :
  ChatRoutes.post_chat_message api_down sample_sessions "m2" "m3"
    "2025-01-01T00:00:01.000Z" "2025-01-01T00:00:02.000Z" 400%float
    "s1" "are you there" [greeting]
  = (ChatRoutes.Error 500 "Failed to process chat message", sample_sessions).
Proof. reflexivity. Qed.

Example post_chat_message_unknown_session :
  exists ai,
    ChatRoutes.post_chat_message api_silent sample_sessions "m2" "m3"
      "2025-01-01T00:00:01.000Z" "2025-01-01T00:00:02.000Z" 400%float
      "s9" "are you there" [greeting]
    = (ChatRoutes.Json ai "s9", sample_sessions)
    /\ AIService.content ai
       = "I apologize, but I'm having trouble processing your message right now. Please try again.".
Proof. eexists. split; reflexivity. Qed.

(** X24. GET /api/health-logs answers 400 when no user is given, or the
    empty one.  Otherwise it answers 200 with logs of that user only: a log
    is in the answer exactly when it is stored, belongs to the user and, when
    a type other than the empty one is asked for, has that type. *)
Theorem get_health_logs_own healthLogs userId_ type_ :
  match LogRoutes.get_health_logs healthLogs userId_ type_ with
  | LogRoutes.Error status e =>
      status = 400%Z /\ e = "User ID is required"
      /\ truthy_string userId_ = false
  | LogRoutes.Json status logs =>
      status = 200%Z
      /\ exists u, userId_ = Some u /\ u <> ""
           /\ forall log, In log logs
                <-> In log (Map_values healthLogs)
                    /\ HealthLogs.userId log = Some u
                    /\ fits_type type_ log
  | LogRoutes.NoContent _ => False
  end.
Proof.
  unfold LogRoutes.get_health_logs.
  destruct userId_ as [u|]; cbn [truthy_string negb]; [|repeat split].
  destruct (String.eqb_spec u "") as [->|N]; cbn [negb]; [repeat split|].
  split; [reflexivity|]. exists u. split; [reflexivity|]. split; [exact N|].
  intros log. cbn [from_option]. unfold fits_type.
  destruct (truthy_string type_) eqn:T.
  - destruct type_ as [t|]; [|discriminate]. cbn [from_option].
    unfold HealthLogs.getHealthLogsByType.
    rewrite Array_sort_In, filter_In, andb_true_iff, same_user_eq.
    split.
    + intros (H1 & H2 & H3). apply String.eqb_eq in H3. subst t. auto.
    + intros (H1 & H2 & H3). specialize (H3 eq_refl). injection H3 as ->.
      rewrite String.eqb_refl. auto.
  - rewrite getHealthLogs_In. split; [intros [H1 H2]|intros (H1 & H2 & _)]; auto.
    repeat split; auto. discriminate.
Qed.

(** X25. DELETE /api/health-logs/:id answers 204 when a log was stored
    under the identifier and 404 when none was, in which case the table is as
    before.  After either answer the log is gone: the same request once more
    answers 404 and changes nothing. *)
Theorem delete_health_log_status healthLogs id_ :
  (fst (LogRoutes.delete_health_log healthLogs id_) = LogRoutes.NoContent 204
   /\ In id_ (map fst healthLogs)
   \/ fst (LogRoutes.delete_health_log healthLogs id_)
      = LogRoutes.Error 404 "Health log not found"
      /\ ~ In id_ (map fst healthLogs)
      /\ snd (LogRoutes.delete_health_log healthLogs id_) = healthLogs)
  /\ LogRoutes.delete_health_log
       (snd (LogRoutes.delete_health_log healthLogs id_)) id_
     = (LogRoutes.Error 404 "Health log not found",
        snd (LogRoutes.delete_health_log healthLogs id_)).
Proof.
  rewrite !delete_health_log_eq. cbn [fst snd].
  assert (Hgone := Map_delete_get healthLogs id_).
  assert (Hhas : Map_has (snd (Map_delete healthLogs id_)) id_ = false).
  { unfold Map_has. rewrite Hgone. reflexivity. }
  split.
  - destruct (Map_has healthLogs id_) eqn:H.
    + left. split; [reflexivity|]. unfold Map_has in H.
      destruct (Map_get healthLogs id_) as [log|] eqn:G; [|discriminate].
      apply Map_get_In in G. apply in_map_iff. exists (id_, log). auto.
    + right. split; [reflexivity|]. split; [|apply Map_delete_absent; exact H].
      apply Map_get_None. unfold Map_has in H.
      destruct (Map_get healthLogs id_); [discriminate|reflexivity].
  - rewrite Hhas. f_equal. apply Map_delete_absent. exact Hhas.
Qed.

(** ** POST /api/clinics/search *)

Import SearchFacts SearchSamples.

Section SearchProperties.
Context {rt : Runtime}.
Variable geocodeAddress : string -> option (float * float).

(** X26. When the body names a type other than the empty one, every
    result has that type, whichever way the results were found. *)
Theorem clinics_search_type storage b t r :
  body_type b = Some t -> t <> "" ->
  In r (clinics_search geocodeAddress storage b) ->
  type (clinic r) = t.
Proof.
  intros Ht N. unfold clinics_search. rewrite Ht. cbn [truthy_string].
  destruct (String.eqb_spec t ""); [contradiction|]. cbn [negb].
  intros H. apply filter_In in H. destruct H as [_ H].
  apply String.eqb_eq. exact H.
Qed.

(** X27. When only a location is to go by and the geocoder does not know
    it, the search returns nothing: the handler does not fall back on the
    text of the query or on the list of all clinics. *)
Theorem clinics_search_unknown_location storage b :
  truthy_string (location b) = true ->
  truthy_number (body_latitude b) = false
  \/ truthy_number (body_longitude b) = false ->
  geocodeAddress (from_option (location b) "") = None ->
  clinics_search geocodeAddress storage b = [].
Proof.
  intros Hl Hc Hg. unfold clinics_search, search_branch. rewrite Hl.
  replace (negb (truthy_number (body_latitude b))
           || negb (truthy_number (body_longitude b))) with true
    by (destruct Hc as [-> | ->]; rewrite ?orb_true_r; reflexivity).
  cbn [andb]. rewrite Hg.
  destruct (body_type b) as [t|]; [|reflexivity].
  destruct (truthy_string (Some t)); reflexivity.
Qed.

(** X28. When both coordinates are given and neither is zero, the
    results are the clinics around them, filtered by the type: the location,
    the query and the geocoder play no part. *)
Theorem clinics_search_coordinates_first
  (otherGeocoder : string -> option (float * float)) storage b b' :
  truthy_number (body_latitude b) = true ->
  truthy_number (body_longitude b) = true ->
  body_latitude b' = body_latitude b ->
  body_longitude b' = body_longitude b ->
  radius b' = radius b ->
  body_type b' = body_type b ->
  clinics_search geocodeAddress storage b = clinics_search otherGeocoder storage b'.
Proof.
  intros Hlat Hlon E1 E2 E3 E4. unfold clinics_search, search_branch.
  rewrite E1, E2, E3, E4, Hlat, Hlon. cbn [negb orb].
  rewrite !andb_false_r. reflexivity.
Qed.

(** X29. Without a location and without a pair of non-zero coordinates,
    the results are the clinics a text search finds for the query and the
    type, each at distance 0 and in the order of the store; without a query
    the text is the empty one, which every clinic matches. *)
Theorem clinics_search_by_text storage b :
  truthy_string (location b) = false ->
  truthy_number (body_latitude b) = false
  \/ truthy_number (body_longitude b) = false ->
  clinics_search geocodeAddress storage b
  = at_distance_0
      (searchClinics storage (from_option (query b) "") (body_type b)).
Proof.
  intros Hl Hc. unfold clinics_search, search_branch. rewrite Hl. cbn [andb].
  replace (truthy_number (body_latitude b) && truthy_number (body_longitude b))
    with false
    by (destruct Hc as [-> | ->]; rewrite ?andb_false_r; reflexivity).
  destruct (truthy_string (query b)) eqn:Hq.
  - destruct (body_type b) as [t|] eqn:Ht; [|reflexivity].
    destruct (truthy_string (Some t)) eqn:T; [|reflexivity].
    rewrite (filter_at_distance_0 (fun c => String.eqb (type c) t)).
    f_equal. apply filter_all.
    intros c Hc'. apply String.eqb_eq.
    apply (searchClinics_type storage (from_option (query b) "") t c); [|exact Hc'].
    intros ->. discriminate T.
  - rewrite (falsy_string_text _ Hq), searchClinics_empty_query.
    destruct (body_type b) as [t|] eqn:Ht.
    + destruct (truthy_string (Some t)) eqn:T; cbn [negb orb].
      * rewrite (filter_at_distance_0 (fun c => String.eqb (type c) t)).
        reflexivity.
      * rewrite filter_all; [reflexivity|]. intros; reflexivity.
    + rewrite filter_all; [reflexivity|]. intros; reflexivity.
Qed.

End SearchProperties.

Lemma clinics_search_type_witness :
  body_type urgent_body = Some "urgent"
  /\ "urgent" <> ""
  /\ In {| clinic := quickcare; distance := 0%float |}
       (clinics_search (rt := sample_runtime) no_geocoder sample_storage urgent_body)
  /\ type (clinic {| clinic := quickcare; distance := 0%float |}) = "urgent".
Proof.
  assert (N : "urgent" <> "") by discriminate.
  assert (H : In {| clinic := quickcare; distance := 0%float |}
                (clinics_search (rt := sample_runtime) no_geocoder sample_storage
                   urgent_body)).
  { left. reflexivity. }
  split; [reflexivity|]. split; [exact N|]. split; [exact H|].
  exact (clinics_search_type (rt := sample_runtime) no_geocoder sample_storage
           urgent_body "urgent" _ eq_refl N H).
Defined.

Lemma clinics_search_unknown_location_witness :
  truthy_string (location nowhere_body) = true
  /\ (truthy_number (body_latitude nowhere_body) = false
      \/ truthy_number (body_longitude nowhere_body) = false)
  /\ no_geocoder (from_option (location nowhere_body) "") = None
  /\ clinics_search (rt := sample_runtime) no_geocoder sample_storage nowhere_body
     = [].
Proof.
  split; [reflexivity|]. split; [left; reflexivity|]. split; [reflexivity|].
  exact (clinics_search_unknown_location (rt := sample_runtime) no_geocoder
           sample_storage nowhere_body eq_refl (or_introl eq_refl) eq_refl).
Defined.

Lemma clinics_search_coordinates_first_witness :
  truthy_number (body_latitude downtown_body) = true
  /\ truthy_number (body_longitude downtown_body) = true
  /\ clinics_search (rt := sample_runtime) no_geocoder sample_storage downtown_body
     = clinics_search (rt := sample_runtime) fixed_geocoder sample_storage
         downtown_coordinates.
Proof.
  split; [reflexivity|]. split; [reflexivity|].
  exact (clinics_search_coordinates_first (rt := sample_runtime) no_geocoder
           fixed_geocoder sample_storage downtown_body downtown_coordinates
           eq_refl eq_refl eq_refl eq_refl eq_refl eq_refl).
Defined.

Lemma clinics_search_by_text_witness :
  truthy_string (location equator_body) = false
  /\ (truthy_number (body_latitude equator_body) = false
      \/ truthy_number (body_longitude equator_body) = false)
  /\ clinics_search (rt := sample_runtime) no_geocoder sample_storage equator_body
     = at_distance_0 (searchClinics sample_storage "clinic" None).
Proof.
  split; [reflexivity|]. split; [left; reflexivity|].
  exact (clinics_search_by_text (rt := sample_runtime) no_geocoder sample_storage
           equator_body eq_refl (or_introl eq_refl)).
Defined.
